(** * File-Uploader: folder hierarchy and sharing engine

    A shallow embedding of the Express/Prisma back end
    (routes/folders.js, routes/files.js, routes/shareLinks.js,
    routes/share.js and prisma/schema.prisma) together with the
    properties of its folder tree, its upload batches and its share
    links.

    Conventions of the embedding.
    - Integers (ids, sizes, millisecond time stamps) are [Z].
    - Folder and file names are JavaScript strings: lists of UTF-16 code
      units, so that [trim] and [length] are the ones of ECMAScript.
      Messages, tokens and duration strings are [string].
    - A table is the list of its rows in insertion order; [findMany]
      without [orderBy] returns rows in that order.
    - Every handler is a function from the database to a response and a
      new database.  The recursive helpers of the source have no depth
      bound; they take a [fuel] argument here and return [None] when it
      runs out. *)

From Stdlib Require Import ZArith List Bool String Ascii Lia Arith DecimalString
  Permutation Sorted.
Import ListNotations.
Local Open Scope string_scope.
Local Open Scope list_scope.
Local Open Scope Z_scope.

Set Implicit Arguments.

(* ================================================================== *)
(** * JavaScript strings *)
(* ================================================================== *)

Module Js.

(** A string value: its UTF-16 code units. *)
Definition str := list Z.

(** ECMAScript WhiteSpace and LineTerminator code units, the ones
    [String.prototype.trim] strips. *)
Definition isWhiteSpace (c : Z) : bool :=
  (c =? 9) || (c =? 10) || (c =? 11) || (c =? 12) || (c =? 13)
  || (c =? 32) || (c =? 160) || (c =? 5760)
  || ((8192 <=? c) && (c <=? 8202))
  || (c =? 8232) || (c =? 8233) || (c =? 8239) || (c =? 8287)
  || (c =? 12288) || (c =? 65279).

Fixpoint trimStart (s : str) : str :=
  match s with
  | [] => []
  | c :: r => if isWhiteSpace c then trimStart r else s
  end.

Definition trimEnd (s : str) : str := rev (trimStart (rev s)).

Definition trim (s : str) : str := trimEnd (trimStart s).

Definition length (s : str) : Z := Z.of_nat (List.length s).

Fixpoint eqb (a b : str) : bool :=
  match a, b with
  | [], [] => true
  | x :: a', y :: b' => (x =? y) && eqb a' b'
  | _, _ => false
  end.

(** Code-unit order, used for [orderBy: { name: 'asc' }]. *)
Fixpoint leb (a b : str) : bool :=
  match a, b with
  | [], _ => true
  | _ :: _, [] => false
  | x :: a', y :: b' => (x <? y) || ((x =? y) && leb a' b')
  end.

(** The code units of an ASCII literal. *)
Fixpoint lit (s : string) : str :=
  match s with
  | EmptyString => []
  | String c r => Z.of_nat (nat_of_ascii c) :: lit r
  end.

(** Truthiness of a number-or-null value such as [parentId]:
    [null], [undefined] and [0] are falsy. *)
Definition truthy (o : option Z) : bool :=
  match o with
  | None => false
  | Some z => negb (z =? 0)
  end.

End Js.

(* ================================================================== *)
(** * Data model (prisma/schema.prisma) *)
(* ================================================================== *)

Module Folder.
Record t := mk {
  id : Z;
  name : Js.str;
  ownerId : Z;
  parentId : option Z
}.
End Folder.

Module File.
Record t := mk {
  id : Z;
  name : Js.str;
  mimetype : string;
  size : Z;
  cloudUrl : string;
  publicId : string;
  folderId : option Z;
  ownerId : Z
}.
End File.

Module ShareLink.
Record t := mk {
  id : Z;
  token : string;
  folderId : Z;
  expiresAt : Z;
  createdAt : Z
}.
End ShareLink.

(** The three tables and their SERIAL sequences (last value handed out). *)
Record Db := mkDb {
  folders : list Folder.t;
  files : list File.t;
  shareLinks : list ShareLink.t;
  folderSeq : Z;
  fileSeq : Z;
  shareSeq : Z
}.

Definition emptyDb : Db := mkDb [] [] [] 0 0 0.

(** Result of a store call or of a handler body: a value, or a thrown
    exception with its message. *)
Inductive outcome (A : Type) : Type :=
| Ok (a : A)
| Threw (e : string).
Arguments Ok {A} a.
Arguments Threw {A} e.

Definition optZ_eqb (a b : option Z) : bool :=
  match a, b with
  | None, None => true
  | Some x, Some y => x =? y
  | _, _ => false
  end.

(* ================================================================== *)
(** * The record store (Prisma client over PostgreSQL) *)
(* ================================================================== *)

Module Prisma.

Definition P2025 : string := "Record to delete does not exist.".
Definition P2002 : string := "Unique constraint failed".

(** ** folder *)

Definition folder_findUnique (fs : list Folder.t) (i : Z) : option Folder.t :=
  find (fun f => Folder.id f =? i) fs.

Definition folder_findFirst (fs : list Folder.t) (w : Folder.t -> bool)
  : option Folder.t := find w fs.

Definition folder_findMany (fs : list Folder.t) (w : Folder.t -> bool)
  : list Folder.t := filter w fs.

Definition folder_count (fs : list Folder.t) (w : Folder.t -> bool) : Z :=
  Z.of_nat (List.length (filter w fs)).

Definition folder_create (db : Db) (n : Js.str) (owner : Z) (parent : option Z)
  : Folder.t * Db :=
  let i := folderSeq db + 1 in
  let f := Folder.mk i n owner parent in
  (f, mkDb (folders db ++ [f]) (files db) (shareLinks db)
           i (fileSeq db) (shareSeq db)).

Definition folder_set (i : Z) (n : Js.str) (parent : option Z) (f : Folder.t)
  : Folder.t :=
  if Folder.id f =? i then Folder.mk (Folder.id f) n (Folder.ownerId f) parent
  else f.

Definition folder_update (db : Db) (i : Z) (n : Js.str) (parent : option Z)
  : outcome (Folder.t * Db) :=
  match folder_findUnique (folders db) i with
  | None => Threw "Record to update not found."
  | Some f =>
      Ok (folder_set i n parent f,
          mkDb (map (folder_set i n parent) (folders db)) (files db)
               (shareLinks db) (folderSeq db) (fileSeq db) (shareSeq db))
  end.

(** ON DELETE CASCADE of [folders.parentId], [files.folderId] and
    [share_links.folderId]: rows that reference a removed folder are
    removed in turn. *)
Definition folder_present (fs : list Folder.t) (i : Z) : bool :=
  existsb (fun f => Folder.id f =? i) fs.

Definition cascade_step (fs : list Folder.t) : list Folder.t :=
  filter (fun f => match Folder.parentId f with
                   | None => true
                   | Some p => folder_present fs p
                   end) fs.

Fixpoint cascade (n : nat) (fs : list Folder.t) : list Folder.t :=
  match n with
  | O => fs
  | S k => cascade k (cascade_step fs)
  end.

Definition cascade_files (fs : list Folder.t) (l : list File.t) : list File.t :=
  filter (fun x => match File.folderId x with
                   | None => true
                   | Some d => folder_present fs d
                   end) l.

Definition cascade_links (fs : list Folder.t) (l : list ShareLink.t)
  : list ShareLink.t :=
  filter (fun x => folder_present fs (ShareLink.folderId x)) l.

Definition folder_delete (db : Db) (i : Z) : outcome Db :=
  match folder_findUnique (folders db) i with
  | None => Threw P2025
  | Some _ =>
      let fs1 := filter (fun f => negb (Folder.id f =? i)) (folders db) in
      let fs2 := cascade (List.length fs1) fs1 in
      Ok (mkDb fs2 (cascade_files fs2 (files db))
               (cascade_links fs2 (shareLinks db))
               (folderSeq db) (fileSeq db) (shareSeq db))
  end.

(** ** file *)

Definition file_findUnique (l : list File.t) (i : Z) : option File.t :=
  find (fun x => File.id x =? i) l.

Definition file_findFirst (l : list File.t) (w : File.t -> bool)
  : option File.t := find w l.

Definition file_findMany (l : list File.t) (w : File.t -> bool)
  : list File.t := filter w l.

Definition file_count (l : list File.t) (w : File.t -> bool) : Z :=
  Z.of_nat (List.length (filter w l)).

Definition file_create (db : Db) (n : Js.str) (mt : string) (sz : Z)
    (url pid : string) (owner : Z) (folder : option Z) : File.t * Db :=
  let i := fileSeq db + 1 in
  let x := File.mk i n mt sz url pid folder owner in
  (x, mkDb (folders db) (files db ++ [x]) (shareLinks db)
           (folderSeq db) i (shareSeq db)).

Definition file_set (i : Z) (n : Js.str) (folder : option Z) (x : File.t)
  : File.t :=
  if File.id x =? i
  then File.mk (File.id x) n (File.mimetype x) (File.size x) (File.cloudUrl x)
               (File.publicId x) folder (File.ownerId x)
  else x.

Definition file_update (db : Db) (i : Z) (n : Js.str) (folder : option Z)
  : outcome (File.t * Db) :=
  match file_findUnique (files db) i with
  | None => Threw "Record to update not found."
  | Some x =>
      Ok (file_set i n folder x,
          mkDb (folders db) (map (file_set i n folder) (files db))
               (shareLinks db) (folderSeq db) (fileSeq db) (shareSeq db))
  end.

Definition file_delete (db : Db) (i : Z) : outcome Db :=
  match file_findUnique (files db) i with
  | None => Threw P2025
  | Some _ =>
      Ok (mkDb (folders db)
               (filter (fun x => negb (File.id x =? i)) (files db))
               (shareLinks db) (folderSeq db) (fileSeq db) (shareSeq db))
  end.

(** ** shareLink *)

Definition shareLink_findFirst (l : list ShareLink.t) (tok : string)
  : option ShareLink.t :=
  find (fun x => String.eqb (ShareLink.token x) tok) l.

Definition shareLink_findUnique (l : list ShareLink.t) (i : Z)
  : option ShareLink.t :=
  find (fun x => ShareLink.id x =? i) l.

(** [token] is [@unique]; [createdAt] is the store's [now()] at insertion. *)
Definition shareLink_create (db : Db) (tok : string) (folder expires created : Z)
  : outcome (ShareLink.t * Db) :=
  match shareLink_findFirst (shareLinks db) tok with
  | Some _ => Threw P2002
  | None =>
      let i := shareSeq db + 1 in
      let x := ShareLink.mk i tok folder expires created in
      Ok (x, mkDb (folders db) (files db) (shareLinks db ++ [x])
                  (folderSeq db) (fileSeq db) i)
  end.

Definition shareLink_delete (db : Db) (i : Z) : outcome Db :=
  match shareLink_findUnique (shareLinks db) i with
  | None => Threw P2025
  | Some _ =>
      Ok (mkDb (folders db) (files db)
               (filter (fun x => negb (ShareLink.id x =? i)) (shareLinks db))
               (folderSeq db) (fileSeq db) (shareSeq db))
  end.

End Prisma.

(* ================================================================== *)
(** * HTTP responses *)
(* ================================================================== *)

(** The tree [getFolderContents] of routes/share.js returns: the files of
    a folder and its subfolders, each with its own contents. *)
#[local] Unset Elimination Schemes.
Inductive Contents : Type :=
| mkContents (files : list File.t) (subfolders : list (Folder.t * Contents)).
#[local] Set Elimination Schemes.

Definition contents_files (c : Contents) : list File.t :=
  match c with mkContents fl _ => fl end.

Definition contents_subfolders (c : Contents) : list (Folder.t * Contents) :=
  match c with mkContents _ sub => sub end.

(** The JSON bodies the handlers send.  [formattedSize], a rendering of
    [size], and the [createdAt]/[updatedAt] columns of folders and files
    are left out. *)
Inductive Body : Type :=
| BMessage (message : string)
| BError (message error : string)
| BFolder (message : string) (folder : Folder.t) (parent : option (Z * Js.str))
| BNotEmpty (message : string) (hasChildren hasFiles : bool)
            (childrenCount filesCount : Z)
| BDeletedRec (message : string) (deletedRecursively : bool)
              (deletedChildren deletedFiles : Z)
| BDeleted (message : string) (deletedRecursively : bool)
| BUploaded (message : string) (files : list File.t)
            (uploadedCount totalSize : Z)
| BFile (message : string) (file : File.t) (folder : option (Z * Js.str))
| BDeletedFile (message : string) (id : Z) (name : Js.str) (size : Z)
| BShareLink (message : string) (shareLink : ShareLink.t) (shareUrl : string)
             (folderId : Z) (folderName : Js.str)
| BDeletedShare (message : string) (id : Z) (folder : Js.str) (expiresAt : Z)
| BExpired (message : string) (expired : bool) (expiresAt : Z)
| BSharedFolder (message : string) (expiresAt remainingTime : Z)
                (id : Z) (name : Js.str) (contents : Contents)
                (fileCount subfolderCount totalSize : Z)
| BSharedFile (file : File.t).

Record Response := mkRes { status : Z; body : Body }.

Definition json (st : Z) (b : Body) : Response := mkRes st b.

(* ================================================================== *)
(** * routes/folders.js *)
(* ================================================================== *)

Definition validName (name : option Js.str) : option Js.str :=
  match name with
  | None => None
  | Some n => if Js.length (Js.trim n) =? 0 then None else Some (Js.trim n)
  end.

(** [include: { parent: { select: { id, name } } }] *)
Definition parentOf (fs : list Folder.t) (f : Folder.t) : option (Z * Js.str) :=
  match Folder.parentId f with
  | None => None
  | Some p =>
      match Prisma.folder_findUnique fs p with
      | None => None
      | Some g => Some (Folder.id g, Folder.name g)
      end
  end.

(** Middleware [verifyFolderOwnership]: a response that ends the request,
    or the folder handed to the next handler. *)
Definition verifyFolderOwnership (db : Db) (userId folderId : Z)
  : Response + Folder.t :=
  match Prisma.folder_findUnique (folders db) folderId with
  | None => inl (json 404 (BMessage "Folder not found"))
  | Some folder =>
      if negb (Folder.ownerId folder =? userId)
      then inl (json 403 (BMessage "Access denied: You do not own this folder"))
      else inr folder
  end.

(** [where: { parentId: folderId, ownerId }] *)
Definition childOf (folderId ownerId : Z) (f : Folder.t) : bool :=
  optZ_eqb (Folder.parentId f) (Some folderId) && (Folder.ownerId f =? ownerId).

(** [where: { folderId: folderId, ownerId }] *)
Definition fileIn (folderId ownerId : Z) (x : File.t) : bool :=
  optZ_eqb (File.folderId x) (Some folderId) && (File.ownerId x =? ownerId).

(** State of a run of [deleteFolderRecursively]: the database, the ids
    passed to [prisma.folder.delete] so far, in call order, and the
    exception that stopped the run, if any. *)
Record Run := mkRun {
  run_db : Db;
  run_deleted : list Z;
  run_error : option string
}.

(** [for (const child of children) { await body(child) }] *)
Fixpoint forEach (body : Db -> Z -> option Run) (cs : list Z) (db : Db)
  : option Run :=
  match cs with
  | [] => Some (mkRun db [] None)
  | c :: rest =>
      match body db c with
      | None => None
      | Some r =>
          match run_error r with
          | Some _ => Some r
          | None =>
              match forEach body rest (run_db r) with
              | None => None
              | Some r' =>
                  Some (mkRun (run_db r') (run_deleted r ++ run_deleted r')
                              (run_error r'))
              end
          end
      end
  end.

(** [deleteFolderRecursively].  The loop over the files of the folder
    tests [fs.existsSync(file.localPath)]; the rows have no [localPath]
    column any more, the test is false and the loop does nothing. *)
Fixpoint deleteFolderRecursively (fuel : nat) (db : Db) (folderId ownerId : Z)
  : option Run :=
  match fuel with
  | O => None
  | S k =>
      let children :=
        Prisma.folder_findMany (folders db) (childOf folderId ownerId) in
      match forEach (fun d c => deleteFolderRecursively k d c ownerId)
                    (map Folder.id children) db with
      | None => None
      | Some r =>
          match run_error r with
          | Some _ => Some r
          | None =>
              match Prisma.folder_delete (run_db r) folderId with
              | Threw e => Some (mkRun (run_db r) (run_deleted r) (Some e))
              | Ok db' => Some (mkRun db' (run_deleted r ++ [folderId]) None)
              end
          end
      end
  end.

(** [checkCircularReference(checkParentId, targetId)] *)
Fixpoint checkCircularReference (fuel : nat) (fs : list Folder.t)
    (checkParentId : option Z) (targetId : Z) : option bool :=
  match fuel with
  | O => None
  | S k =>
      match checkParentId with
      | None => Some false
      | Some c =>
          if c =? 0 then Some false
          else
            match Prisma.folder_findUnique fs c with
            | None => Some false
            | Some parent =>
                if Folder.id parent =? targetId then Some true
                else checkCircularReference k fs (Folder.parentId parent) targetId
            end
      end
  end.

(** POST /api/folders.  [parentId] is the body field: [None] when it is
    absent or null, [Some p] for the number [p]. *)
Definition postFolder (db : Db) (ownerId : Z) (name : option Js.str)
    (parentId : option Z) : Response * Db :=
  match validName name with
  | None => (json 400 (BMessage "Folder name is required"), db)
  | Some n =>
      if Js.length n >? 255
      then (json 400 (BMessage "Folder name must be less than 255 characters"), db)
      else
        let target := if Js.truthy parentId then parentId else None in
        let check :=
          match target with
          | None => None
          | Some p =>
              match Prisma.folder_findUnique (folders db) p with
              | None => Some (json 400 (BMessage "Parent folder not found"))
              | Some parentFolder =>
                  if negb (Folder.ownerId parentFolder =? ownerId)
                  then Some (json 403 (BMessage
                         "Access denied: You do not own the parent folder"))
                  else None
              end
          end in
        match check with
        | Some r => (r, db)
        | None =>
            match Prisma.folder_findFirst (folders db)
                    (fun f => Js.eqb (Folder.name f) n
                              && (Folder.ownerId f =? ownerId)
                              && optZ_eqb (Folder.parentId f) target) with
            | Some _ =>
                (json 400 (BMessage
                   "A folder with this name already exists in this location"), db)
            | None =>
                let '(folder, db') := Prisma.folder_create db n ownerId target in
                (json 201 (BFolder "Folder created successfully" folder
                                   (parentOf (folders db') folder)), db')
            end
        end
  end.

(** Second half of PUT /api/folders/:id, from the duplicate check on. *)
Definition putFolderCommit (db : Db) (ownerId folderId : Z) (n : Js.str)
    (newParentId : option Z) : Response * Db :=
  match Prisma.folder_findFirst (folders db)
          (fun f => Js.eqb (Folder.name f) n
                    && (Folder.ownerId f =? ownerId)
                    && optZ_eqb (Folder.parentId f) newParentId
                    && negb (Folder.id f =? folderId)) with
  | Some _ =>
      (json 400 (BMessage
         "A folder with this name already exists in this location"), db)
  | None =>
      match Prisma.folder_update db folderId n newParentId with
      | Threw e => (json 500 (BError "Error updating folder" e), db)
      | Ok (updatedFolder, db') =>
          (json 200 (BFolder "Folder updated successfully" updatedFolder
                             (parentOf (folders db') updatedFolder)), db')
      end
  end.

(** PUT /api/folders/:id.  [parentId] is the body field: [None] when it
    is absent, null or the empty string, [Some p] for the number [p]. *)
Definition putFolder (fuel : nat) (db : Db) (userId folderId : Z)
    (name : option Js.str) (parentId : option Z) : option (Response * Db) :=
  match verifyFolderOwnership db userId folderId with
  | inl r => Some (r, db)
  | inr _ =>
      match validName name with
      | None => Some (json 400 (BMessage "Folder name is required"), db)
      | Some n =>
          if Js.length n >? 255
          then Some (json 400 (BMessage
                       "Folder name must be less than 255 characters"), db)
          else
            match parentId with
            | None => Some (putFolderCommit db userId folderId n None)
            | Some newParentId =>
                if newParentId =? folderId
                then Some (json 400 (BMessage
                             "A folder cannot be its own parent"), db)
                else
                  match Prisma.folder_findUnique (folders db) newParentId with
                  | None =>
                      Some (json 400 (BMessage "Parent folder not found"), db)
                  | Some parentFolder =>
                      if negb (Folder.ownerId parentFolder =? userId)
                      then Some (json 403 (BMessage
                             "Access denied: You do not own the parent folder"), db)
                      else
                        match checkCircularReference fuel (folders db)
                                (Some newParentId) folderId with
                        | None => None
                        | Some true =>
                            Some (json 400 (BMessage
                              "Cannot move folder: This would create a circular reference"),
                                  db)
                        | Some false =>
                            Some (putFolderCommit db userId folderId n
                                                  (Some newParentId))
                        end
                  end
            end
      end
  end.

(** DELETE /api/folders/:id.  [force] is [req.query.force === 'true']. *)
Definition deleteFolder (fuel : nat) (db : Db) (userId folderId : Z)
    (force : bool) : option (Response * Db) :=
  match verifyFolderOwnership db userId folderId with
  | inl r => Some (r, db)
  | inr _ =>
      let childrenCount :=
        Prisma.folder_count (folders db) (childOf folderId userId) in
      let filesCount :=
        Prisma.file_count (files db) (fileIn folderId userId) in
      let hasContent := (childrenCount >? 0) || (filesCount >? 0) in
      if hasContent && negb force
      then Some (json 400 (BNotEmpty
             "Cannot delete folder: Folder contains subfolders or files. Use force=true to delete recursively."
             (childrenCount >? 0) (filesCount >? 0) childrenCount filesCount), db)
      else if force
      then
        match deleteFolderRecursively fuel db folderId userId with
        | None => None
        | Some r =>
            match run_error r with
            | Some e =>
                Some (json 500 (BError "Error deleting folder" e), run_db r)
            | None =>
                Some (json 200 (BDeletedRec
                        "Folder and all its contents deleted successfully"
                        true childrenCount filesCount), run_db r)
            end
        end
      else
        match Prisma.folder_delete db folderId with
        | Threw e => Some (json 500 (BError "Error deleting folder" e), db)
        | Ok db' =>
            Some (json 200 (BDeleted "Folder deleted successfully" false), db')
        end
  end.

(* ================================================================== *)
(** * routes/files.js *)
(* ================================================================== *)

(** An entry of [req.files] as multer and the Cloudinary storage leave it:
    the blob is already stored under [filename]. *)
Record Upload := mkUpload {
  originalname : Js.str;
  up_mimetype : string;
  up_size : Z;
  path : string;
  filename : string
}.

Definition sumSizes (l : list File.t) : Z :=
  fold_left (fun sum file => sum + File.size file) l 0.

Definition decimal (z : Z) : string :=
  DecimalString.NilZero.string_of_int (Z.to_int z).

(** The loop of POST /api/files/upload that saves the metadata.  Every
    file comes with the fate of its [prisma.file.create] call ([true]:
    the call throws).  Returns [savedFiles], the database and the
    public ids passed to [cloudinary.uploader.destroy], in call order. *)
Fixpoint saveFiles (db : Db) (ownerId : Z) (folder : option Z)
    (batch : list (Upload * bool)) : list File.t * Db * list string :=
  match batch with
  | [] => ([], db, [])
  | (file, dbError) :: rest =>
      if dbError
      then
        let '(saved, db', destroyed) := saveFiles db ownerId folder rest in
        (saved, db', filename file :: destroyed)
      else
        let '(savedFile, db1) :=
          Prisma.file_create db (originalname file) (up_mimetype file)
            (up_size file) (path file) (filename file) ownerId folder in
        let '(saved, db', destroyed) := saveFiles db1 ownerId folder rest in
        (savedFile :: saved, db', destroyed)
  end.

(** Main handler of POST /api/files/upload, after the multer stage.
    [folderId] is the form field: [None] when absent or empty. *)
Definition uploadFiles (db : Db) (ownerId : Z) (folderId : option Z)
    (batch : list (Upload * bool)) : Response * Db * list string :=
  let cleanup := map (fun fb => filename (fst fb)) batch in
  let check :=
    match folderId with
    | None => None
    | Some d =>
        match Prisma.folder_findUnique (folders db) d with
        | None => Some (json 400 (BMessage "Folder not found"))
        | Some folder =>
            if negb (Folder.ownerId folder =? ownerId)
            then Some (json 403 (BMessage
                   "Access denied: You do not own this folder"))
            else None
        end
    end in
  match check with
  | Some r => (r, db, cleanup)
  | None =>
      match batch with
      | [] => (json 400 (BMessage "No files uploaded"), db, [])
      | _ =>
          let '(savedFiles, db', destroyed) :=
            saveFiles db ownerId folderId batch in
          match savedFiles with
          | [] =>
              (json 500 (BMessage "Failed to save any files to database"),
               db', destroyed)
          | _ =>
              (json 201 (BUploaded
                 ("Successfully uploaded "
                    ++ decimal (Z.of_nat (List.length savedFiles))
                    ++ " file(s)")%string
                 savedFiles (Z.of_nat (List.length savedFiles))
                 (sumSizes savedFiles)),
               db', destroyed)
          end
      end
  end.

(** Middleware [verifyFileOwnership]. *)
Definition verifyFileOwnership (db : Db) (userId fileId : Z)
  : Response + File.t :=
  match Prisma.file_findUnique (files db) fileId with
  | None => inl (json 404 (BMessage "File not found"))
  | Some file =>
      if negb (File.ownerId file =? userId)
      then inl (json 403 (BMessage "Access denied: You do not own this file"))
      else inr file
  end.

Definition folderOf (fs : list Folder.t) (x : File.t) : option (Z * Js.str) :=
  match File.folderId x with
  | None => None
  | Some d =>
      match Prisma.folder_findUnique fs d with
      | None => None
      | Some g => Some (Folder.id g, Folder.name g)
      end
  end.

(** PUT /api/files/:id *)
Definition putFile (db : Db) (userId fileId : Z) (name : option Js.str)
    (folderId : option Z) : Response * Db :=
  match verifyFileOwnership db userId fileId with
  | inl r => (r, db)
  | inr _ =>
      match validName name with
      | None => (json 400 (BMessage "File name is required"), db)
      | Some n =>
          if Js.length n >? 255
          then (json 400 (BMessage
                  "File name must be less than 255 characters"), db)
          else
            let check :=
              match folderId with
              | None => None
              | Some d =>
                  match Prisma.folder_findUnique (folders db) d with
                  | None => Some (json 400 (BMessage "Folder not found"))
                  | Some folder =>
                      if negb (Folder.ownerId folder =? userId)
                      then Some (json 403 (BMessage
                             "Access denied: You do not own the target folder"))
                      else None
                  end
              end in
            match check with
            | Some r => (r, db)
            | None =>
                match Prisma.file_findFirst (files db)
                        (fun x => Js.eqb (File.name x) n
                                  && (File.ownerId x =? userId)
                                  && optZ_eqb (File.folderId x) folderId
                                  && negb (File.id x =? fileId)) with
                | Some _ =>
                    (json 400 (BMessage
                       "A file with this name already exists in this location"),
                     db)
                | None =>
                    match Prisma.file_update db fileId n folderId with
                    | Threw e => (json 500 (BError "Error updating file" e), db)
                    | Ok (updatedFile, db') =>
                        (json 200 (BFile "File updated successfully" updatedFile
                                         (folderOf (folders db') updatedFile)),
                         db')
                    end
                end
            end
      end
  end.

(** DELETE /api/files/:id: the record first, then the blob. *)
Definition deleteFile (db : Db) (userId fileId : Z)
  : Response * Db * list string :=
  match verifyFileOwnership db userId fileId with
  | inl r => (r, db, [])
  | inr file =>
      match Prisma.file_delete db fileId with
      | Threw e => (json 500 (BError "Error deleting file" e), db, [])
      | Ok db' =>
          (json 200 (BDeletedFile "File deleted successfully" (File.id file)
                                  (File.name file) (File.size file)),
           db', [File.publicId file])
      end
  end.

(* ================================================================== *)
(** * routes/shareLinks.js *)
(* ================================================================== *)

Definition isDigit (c : ascii) : bool :=
  let n := Z.of_nat (nat_of_ascii c) in (48 <=? n) && (n <=? 57).

Definition digitValue (c : ascii) : Z := Z.of_nat (nat_of_ascii c) - 48.

Definition isUnit (c : ascii) : bool :=
  Ascii.eqb c "d"%char || Ascii.eqb c "h"%char.

(** The scan for the pattern: decimal digits, then one [d] or [h], then
    the end of the string.  The result is the two captures, the digits
    and the unit, or [None]; the digits may still be empty here. *)
Fixpoint matchDuration (s : string) : option (string * ascii) :=
  match s with
  | EmptyString => None
  | String c r =>
      if isDigit c then
        match matchDuration r with
        | Some (value, unit) => Some (String c value, unit)
        | None => None
        end
      else
        match r with
        | EmptyString => if isUnit c then Some (EmptyString, c) else None
        | String _ _ => None
        end
  end.

(** [duration.match(/^(\d+)([dh])$/)]: at least one digit. *)
Definition durationMatch (duration : string) : option (string * ascii) :=
  match matchDuration duration with
  | Some (String c value, unit) => Some (String c value, unit)
  | _ => None
  end.

(** The Number nearest to a non-negative integer, ties to even: exact
    below 2^53, a multiple of a power of two above. *)
Definition toNumber (z : Z) : Z :=
  if z <? 2 ^ 53 then z
  else
    let e := Z.log2 z - 52 in
    let q := z / 2 ^ e in
    let r := z mod 2 ^ e in
    let half := 2 ^ (e - 1) in
    if r <? half then q * 2 ^ e
    else if half <? r then (q + 1) * 2 ^ e
    else if Z.even q then q * 2 ^ e
    else (q + 1) * 2 ^ e.

(** The integer a string of decimal digits denotes. *)
Fixpoint digitsValue (s : string) (acc : Z) : Z :=
  match s with
  | EmptyString => acc
  | String c r => digitsValue r (10 * acc + digitValue c)
  end.

(** [parseInt(value)] for a capture of [\d+].  The result is a Number.
    An engine may read the digits after the twentieth as zeros, and a
    value beyond the largest Number reads as Infinity; both happen only
    far above 2^53, where every expiry computed below is an Invalid
    Date whatever the exact Number is. *)
Definition parseInt (value : string) : Z := toNumber (digitsValue value 0).

(** Largest time value of a [Date], in milliseconds from the epoch. *)
Definition maxTime : Z := 8640000000000000.

Definition msPerDay : Z := 86400000.
Definition msPerHour : Z := 3600000.

(** [TimeClip]: a time value out of range makes an Invalid Date. *)
Definition timeClip (t : Z) : option Z :=
  if Z.abs t <=? maxTime then Some t else None.

(** The time zone of the server process, as ECMAScript sees it:
    [LocalTZA(t, true)], the offset of local time from UTC in force at
    the instant [t], and [LocalTZA(t, false)], the offset chosen for the
    local time value [t] (for a local time that a change of offset
    repeats or skips, the one in force before the change). *)
Record Zone := mkZone {
  localTZA_utc : Z -> Z;
  localTZA_local : Z -> Z
}.

Definition LocalTime (zone : Zone) (t : Z) : Z := t + localTZA_utc zone t.

Definition UTC (zone : Zone) (t : Z) : Z := t - localTZA_local zone t.

(** A zone without daylight saving: the same offset at all times. *)
Definition fixedOffset (offset : Z) : Zone :=
  mkZone (fun _ => offset) (fun _ => offset).

(** [d.setDate(d.getDate() + n)] and [d.setHours(d.getHours() + n)]:
    both work on the local time value.  [MakeDay] with the day of the
    month plus [n] is the local day plus [n], [MakeTime] with the hour
    plus [n] is the time within the day plus [n] hours, so the new local
    time value is the old one plus [n] days or [n] hours; it is taken
    back to UTC and clipped.  Offsets are less than a day, so whenever
    the exact result is in the range of a Date every intermediate value
    is an integer below 2^53 and the floating-point computation is
    exact, and otherwise the result is an Invalid Date. *)
Definition setDatePlus (zone : Zone) (t n : Z) : option Z :=
  timeClip (UTC zone (LocalTime zone t + n * msPerDay)).

Definition setHoursPlus (zone : Zone) (t n : Z) : option Z :=
  timeClip (UTC zone (LocalTime zone t + n * msPerHour)).

(** The expiry date POST /api/folders/:id/share computes from the clock
    reading [now] in the time zone of the server; [None] is an Invalid
    Date. *)
Definition computeExpiry (zone : Zone) (now : Z) (duration : string)
  : option Z :=
  match durationMatch duration with
  | Some (value, unit) =>
      let numValue := parseInt value in
      if Ascii.eqb unit "d"%char then setDatePlus zone now numValue
      else if Ascii.eqb unit "h"%char then setHoursPlus zone now numValue
      else Some now
  | None => setDatePlus zone now 7
  end.

(** POST /api/folders/:id/share.  [duration] is the body field ([None]
    when absent), [zone] the time zone of the server process, [now] the
    value of [new Date()], [created] the time stamp the store gives the
    new row, [token] the value of [uuidv4()] and [baseUrl] the protocol
    and host of the request. *)
Definition postShare (db : Db) (userId folderId : Z) (duration : option string)
    (zone : Zone) (now created : Z) (token baseUrl : string) : Response * Db :=
  let duration := match duration with None => "7d" | Some d => d end in
  match Prisma.folder_findUnique (folders db) folderId with
  | None => (json 404 (BMessage "Folder not found"), db)
  | Some folder =>
      if negb (Folder.ownerId folder =? userId)
      then (json 403 (BMessage "Access denied: You do not own this folder"), db)
      else
        match computeExpiry zone now duration with
        | None =>
            (json 500 (BError "Error creating share link" "Invalid Date"), db)
        | Some expiresAt =>
            match Prisma.shareLink_create db token folderId expiresAt created with
            | Threw e => (json 500 (BError "Error creating share link" e), db)
            | Ok (shareLink, db') =>
                (json 201 (BShareLink "Share link created successfully"
                             shareLink (baseUrl ++ "/share/" ++ token)%string
                             (Folder.id folder) (Folder.name folder)), db')
            end
        end
  end.

(** DELETE /api/sharelinks/:id *)
Definition deleteShare (db : Db) (userId shareId : Z) : Response * Db :=
  match Prisma.shareLink_findUnique (shareLinks db) shareId with
  | None => (json 404 (BMessage "Share link not found"), db)
  | Some shareLink =>
      match Prisma.folder_findUnique (folders db) (ShareLink.folderId shareLink) with
      | None =>
          (json 500 (BError "Error deleting share link"
                            "Cannot read properties of null"), db)
      | Some folder =>
          if negb (Folder.ownerId folder =? userId)
          then (json 403 (BMessage
                  "Access denied: You do not own this share link"), db)
          else
            match Prisma.shareLink_delete db shareId with
            | Threw e => (json 500 (BError "Error deleting share link" e), db)
            | Ok db' =>
                (json 200 (BDeletedShare "Share link deleted successfully"
                             (ShareLink.id shareLink) (Folder.name folder)
                             (ShareLink.expiresAt shareLink)), db')
            end
      end
  end.

(* ================================================================== *)
(** * routes/share.js: the public gateway *)
(* ================================================================== *)

Section OrderBy.
Variable A : Type.
Variable key : A -> Js.str.

Fixpoint insertBy (x : A) (l : list A) : list A :=
  match l with
  | [] => [x]
  | y :: r => if Js.leb (key x) (key y) then x :: l else y :: insertBy x r
  end.

(** [orderBy: { name: 'asc' }], in code-unit order. *)
Definition orderBy (l : list A) : list A := fold_right insertBy [] l.
End OrderBy.

Section Traverse.
Variables A B : Type.
Variable f : A -> option B.

Fixpoint traverse (l : list A) : option (list B) :=
  match l with
  | [] => Some []
  | x :: r =>
      match f x with
      | None => None
      | Some y =>
          match traverse r with
          | None => None
          | Some ys => Some (y :: ys)
          end
      end
  end.
End Traverse.

(** [getFolderContents(folderId)] of routes/share.js.  The rows are
    returned whole; the [select] of the source keeps their id, name and
    size and adds the name of the owner. *)
Fixpoint getFolderContents (fuel : nat) (db : Db) (folderId : Z)
  : option Contents :=
  match fuel with
  | O => None
  | S k =>
      let fl :=
        orderBy File.name
          (Prisma.file_findMany (files db)
             (fun x => optZ_eqb (File.folderId x) (Some folderId))) in
      let subfolders :=
        orderBy Folder.name
          (Prisma.folder_findMany (folders db)
             (fun f => optZ_eqb (Folder.parentId f) (Some folderId))) in
      match traverse (fun subfolder =>
                        match getFolderContents k db (Folder.id subfolder) with
                        | None => None
                        | Some c => Some (subfolder, c)
                        end) subfolders with
      | None => None
      | Some sub => Some (mkContents fl sub)
      end
  end.

(** GET /share/:token at clock reading [now]. *)
Definition getShared (fuel : nat) (db : Db) (token : string) (now : Z)
  : option Response :=
  match Prisma.shareLink_findFirst (shareLinks db) token with
  | None => Some (json 404 (BMessage "Share link not found"))
  | Some shareLink =>
      if ShareLink.expiresAt shareLink <? now
      then Some (json 403 (BExpired "This share link has expired" true
                                    (ShareLink.expiresAt shareLink)))
      else
        match Prisma.folder_findUnique (folders db) (ShareLink.folderId shareLink) with
        | None =>
            Some (json 500 (BError "Error accessing shared folder"
                                   "Cannot read properties of null"))
        | Some folder =>
            match getFolderContents fuel db (Folder.id folder) with
            | None => None
            | Some contents =>
                Some (json 200 (BSharedFolder
                  "Shared folder accessed successfully"
                  (ShareLink.expiresAt shareLink)
                  (ShareLink.expiresAt shareLink - now)
                  (Folder.id folder) (Folder.name folder) contents
                  (Z.of_nat (List.length (contents_files contents)))
                  (Z.of_nat (List.length (contents_subfolders contents)))
                  (sumSizes (contents_files contents))))
            end
        end
  end.

(** The loop [while (currentFolderId) { ... }] of the file routes. *)
Fixpoint walkUp (fuel : nat) (fs : list Folder.t) (currentFolderId : option Z)
    (sharedFolderId : Z) : option bool :=
  match fuel with
  | O => None
  | S k =>
      if Js.truthy currentFolderId
      then
        match currentFolderId with
        | None => Some false
        | Some c =>
            match Prisma.folder_findUnique fs c with
            | None => Some false
            | Some folder =>
                if Folder.id folder =? sharedFolderId then Some true
                else walkUp k fs (Folder.parentId folder) sharedFolderId
            end
        end
      else Some false
  end.

(** [inSharedFolder] as the two file routes compute it. *)
Definition inSharedFolder (fuel : nat) (fs : list Folder.t) (file : File.t)
    (sharedFolderId : Z) : option bool :=
  if optZ_eqb (File.folderId file) (Some sharedFolderId) then Some true
  else walkUp fuel fs (File.folderId file) sharedFolderId.

(** GET /share/:token/files/:fileId at clock reading [now].  The
    thumbnail and download URLs, built from [cloudUrl], are left out of
    the body. *)
Definition getSharedFile (fuel : nat) (db : Db) (token : string) (fileId now : Z)
  : option Response :=
  match Prisma.shareLink_findFirst (shareLinks db) token with
  | None => Some (json 404 (BMessage "Share link not found"))
  | Some shareLink =>
      if ShareLink.expiresAt shareLink <? now
      then Some (json 403 (BMessage "This share link has expired"))
      else
        match Prisma.file_findUnique (files db) fileId with
        | None => Some (json 404 (BMessage "File not found"))
        | Some file =>
            match inSharedFolder fuel (folders db) file
                    (ShareLink.folderId shareLink) with
            | None => None
            | Some false =>
                Some (json 403 (BMessage
                        "Access denied: File is not in the shared folder"))
            | Some true => Some (json 200 (BSharedFile file))
            end
        end
  end.

(* ================================================================== *)
(** * The server as a transition system *)
(* ================================================================== *)

Unset Implicit Arguments.

(** The requests that change the database.  The first argument of each
    is the id of the authenticated user ([req.user.id]). *)
Inductive Request : Type :=
| PostFolder (userId : Z) (name : option Js.str) (parentId : option Z)
| PutFolder (userId folderId : Z) (name : option Js.str) (parentId : option Z)
| DeleteFolder (userId folderId : Z) (force : bool)
| UploadFiles (userId : Z) (folderId : option Z) (batch : list (Upload * bool))
| PutFile (userId fileId : Z) (name : option Js.str) (folderId : option Z)
| DeleteFile (userId fileId : Z)
| PostShare (userId folderId : Z) (duration : option string) (zone : Zone)
            (now created : Z) (token baseUrl : string)
| DeleteShare (userId shareId : Z).

Definition handle (fuel : nat) (db : Db) (req : Request)
  : option (Response * Db) :=
  match req with
  | PostFolder u name p => Some (postFolder db u name p)
  | PutFolder u i name p => putFolder fuel db u i name p
  | DeleteFolder u i force => deleteFolder fuel db u i force
  | UploadFiles u d batch =>
      let '(r, db', _) := uploadFiles db u d batch in Some (r, db')
  | PutFile u i name d => Some (putFile db u i name d)
  | DeleteFile u i => let '(r, db', _) := deleteFile db u i in Some (r, db')
  | PostShare u i duration zone now created token baseUrl =>
      Some (postShare db u i duration zone now created token baseUrl)
  | DeleteShare u i => Some (deleteShare db u i)
  end.

(** The databases the server can be in: the empty one and every one a
    request leads to from a reachable one. *)
Inductive reachable : Db -> Prop :=
| reach_empty : reachable emptyDb
| reach_step db fuel req res db' :
    reachable db -> handle fuel db req = Some (res, db') -> reachable db'.

(* ================================================================== *)
(** * Ancestor chains *)
(* ================================================================== *)

(** [chain fs o t]: walking up from [o] through [parentId] passes
    through the id [t] (possibly at once). *)
Inductive chain (fs : list Folder.t) : option Z -> Z -> Prop :=
| chain_here x : chain fs (Some x) x
| chain_up x f t :
    In f fs -> Folder.id f = x -> chain fs (Folder.parentId f) t ->
    chain fs (Some x) t.

(** [a] is a proper ancestor of the folder with id [d]: [d] is a
    descendant of [a]. *)
Definition descendant (fs : list Folder.t) (d a : Z) : Prop :=
  exists f, In f fs /\ Folder.id f = d /\ chain fs (Folder.parentId f) a.

(** Number of [parentId] steps from [o] to a null parent; [None] when
    the fuel runs out or a parent is missing. *)
Fixpoint stepsToRoot (fuel : nat) (fs : list Folder.t) (o : option Z)
  : option nat :=
  match fuel with
  | O => None
  | S k =>
      match o with
      | None => Some O
      | Some x =>
          match Prisma.folder_findUnique fs x with
          | None => None
          | Some f =>
              match stepsToRoot k fs (Folder.parentId f) with
              | None => None
              | Some n => Some (S n)
              end
          end
      end
  end.

(** The folders directly under [x], and the files directly in it. *)
Definition directChildren (fs : list Folder.t) (x : Z) : list Folder.t :=
  filter (fun f => optZ_eqb (Folder.parentId f) (Some x)) fs.

Definition directFiles (l : list File.t) (x : Z) : list File.t :=
  filter (fun y => optZ_eqb (File.folderId y) (Some x)) l.

(** Depth-first, children-first order of the subtree of [x]: the orders
    of the subtrees of its children, in table order, then [x]. *)
#[local] Unset Elimination Schemes.
Inductive Postorder (fs : list Folder.t) : Z -> list Z -> Prop :=
| Postorder_node x ls :
    Forall2 (Postorder fs) (map Folder.id (directChildren fs x)) ls ->
    Postorder fs x (List.concat ls ++ [x]).
#[local] Set Elimination Schemes.

Fixpoint postorder (k : nat) (fs : list Folder.t) (x : Z) : list Z :=
  match k with
  | O => []
  | S k' => flat_map (postorder k' fs) (map Folder.id (directChildren fs x)) ++ [x]
  end.

(* ================================================================== *)
(** * The invariant of the database *)
(* ================================================================== *)

(** [rank_ok h fs]: [h] grows strictly from every folder to its parent. *)
Definition rank_ok (h : Z -> nat) (fs : list Folder.t) : Prop :=
  forall f p, In f fs -> Folder.parentId f = Some p ->
              (h (Folder.id f) < h p)%nat.

Record InvH (h : Z -> nat) (db : Db) : Prop := mkInvH {
  inv_nodup : NoDup (map Folder.id (folders db));
  inv_seq : forall f, In f (folders db) -> 0 < Folder.id f <= folderSeq db;
  inv_seq0 : 0 <= folderSeq db;
  inv_parent : forall f p, In f (folders db) -> Folder.parentId f = Some p ->
      exists g, In g (folders db) /\ Folder.id g = p
                /\ Folder.ownerId g = Folder.ownerId f;
  inv_rank : rank_ok h (folders db);
  inv_files : forall x d, In x (files db) -> File.folderId x = Some d ->
      exists g, In g (folders db) /\ Folder.id g = d
                /\ Folder.ownerId g = File.ownerId x;
  inv_links : forall l, In l (shareLinks db) ->
      exists g, In g (folders db) /\ Folder.id g = ShareLink.folderId l;
  inv_file_nodup : NoDup (map File.id (files db));
  inv_file_seq : forall x, In x (files db) -> File.id x <= fileSeq db
}.

Definition Inv (db : Db) : Prop := exists h, InvH h db.

(** What a run without exception leaves: the folders that are not in
    the set [gone], the files and links that still have their folder,
    and the trace [tr]. *)
Definition run_post (h : Z -> nat) (db : Db) (gone : Z -> Prop)
    (tr : list Z) (r : Run) : Prop :=
  run_error r = None
  /\ InvH h (run_db r)
  /\ (exists keep, folders (run_db r) = filter keep (folders db)
        /\ forall f, In f (folders db) ->
                     (keep f = false <-> gone (Folder.id f)))
  /\ files (run_db r) = Prisma.cascade_files (folders (run_db r)) (files db)
  /\ shareLinks (run_db r)
     = Prisma.cascade_links (folders (run_db r)) (shareLinks db)
  /\ folderSeq (run_db r) = folderSeq db
  /\ fileSeq (run_db r) = fileSeq db
  /\ shareSeq (run_db r) = shareSeq db
  /\ run_deleted r = tr.

(** [deleteFolderRecursively] with fuel [k] succeeds on every folder of
    owner [o] whose rank is below [k]. *)
Definition del_ok (h : Z -> nat) (o : Z) (k : nat) : Prop :=
  forall db x,
    InvH h db ->
    (exists f, In f (folders db) /\ Folder.id f = x /\ Folder.ownerId f = o) ->
    (h x < k)%nat ->
    exists r, deleteFolderRecursively k db x o = Some r
              /\ run_post h db (fun y => chain (folders db) (Some y) x)
                          (postorder k (folders db) x) r.

(* ================================================================== *)
(** * Vocabulary of the statements *)
(* ================================================================== *)

(** The parent a create request designates: a falsy [parentId] is the
    root of the owner. *)
Definition parentScope (parentId : option Z) : option Z :=
  if Js.truthy parentId then parentId else None.

(** The [where] clause of the duplicate check of POST /api/folders. *)
Definition sameTriple (n : Js.str) (ownerId : Z) (parent : option Z)
    (f : Folder.t) : bool :=
  Js.eqb (Folder.name f) n && (Folder.ownerId f =? ownerId)
  && optZ_eqb (Folder.parentId f) parent.

(** The files of a batch whose metadata is saved, and the public ids of
    those whose [prisma.file.create] fails. *)
Definition committed (batch : list (Upload * bool)) : list (Upload * bool) :=
  filter (fun fb => negb (snd fb)) batch.

Definition failedIds (batch : list (Upload * bool)) : list string :=
  map (fun fb => filename (fst fb)) (filter (fun fb => snd fb) batch).

(** The duration a share request asks for, with the default of the
    handler. *)
Definition requested (duration : option string) : string :=
  match duration with None => "7d" | Some d => d end.




(* ================================================================== *)
(** * A running example *)
(* ================================================================== *)

(** User 1 creates the root folder "Docs" (id 1), the folder "2024"
    (id 2) inside it, uploads "report.pdf" into "2024" and shares
    "2024" for one day. *)
Definition exDb1 : Db := snd (postFolder emptyDb 1 (Some (Js.lit "Docs")) None).

Definition exDb2 : Db := snd (postFolder exDb1 1 (Some (Js.lit "2024")) (Some 1)).

Definition exReport : Upload :=
  mkUpload (Js.lit "report.pdf") "application/pdf" 10485760
           "https://res.cloudinary.com/demo/raw/upload/v1/file-uploader/report"
           "file-uploader/report".

Definition exDb3 : Db :=
  snd (fst (uploadFiles exDb2 1 (Some 2) [(exReport, false)])).

Definition exToken : string := "3f0c2a1e-58b7-4c7e-9d23-6a1f0b9e4d11".

Definition exNow : Z := 1750000000000.

(** The server of the example runs in UTC. *)
Definition utc : Zone := fixedOffset 0.

Definition exDb4 : Db :=
  snd (postShare exDb3 1 2 (Some "1d") utc exNow exNow exToken
                 "http://localhost:5000").

(** A zone with daylight saving: Eastern Time around 2025, four hours
    behind UTC from 9 March 2025 07:00 UTC to 2 November 2025 06:00 UTC
    (local times from 9 March 03:00 up to 2 November 02:00) and five
    hours behind otherwise; the changes of other years are left out. *)
Definition eastern2025 : Zone :=
  mkZone
    (fun t => if (1741503600000 <=? t) && (t <? 1762063200000)
              then -4 * msPerHour else -5 * msPerHour)
    (fun t => if (1741489200000 <=? t) && (t <? 1762048800000)
              then -4 * msPerHour else -5 * msPerHour).

Definition exNotes : Upload :=
  mkUpload (Js.lit "notes.txt") "text/plain" 2048
           "https://res.cloudinary.com/demo/raw/upload/v1/file-uploader/notes"
           "file-uploader/notes".

(* ================================================================== *)
(** * Further routes and callers *)
(* ================================================================== *)

(** The tree [getFolderWithChildren] of routes/folders.js returns:
    [null], or a folder row whose [children] are trees again. *)
#[local] Unset Elimination Schemes.
Inductive FolderTree : Type :=
| TNull
| TNode (folder : Folder.t) (children : list FolderTree).
#[local] Set Elimination Schemes.

(** [getFolderWithChildren(folderId, ownerId)]: the row with its
    children of the same owner, ordered by name, each replaced by its
    own expansion. *)
Fixpoint getFolderWithChildren (fuel : nat) (db : Db) (folderId ownerId : Z)
  : option FolderTree :=
  match fuel with
  | O => None
  | S k =>
      match Prisma.folder_findUnique (folders db) folderId with
      | None => Some TNull
      | Some folder =>
          let children :=
            orderBy Folder.name
              (Prisma.folder_findMany (folders db)
                 (childOf (Folder.id folder) ownerId)) in
          match traverse (fun child =>
                            getFolderWithChildren k db (Folder.id child) ownerId)
                         children with
          | None => None
          | Some ts => Some (TNode folder ts)
          end
      end
  end.

(** [response.ok] of the fetch API. *)
Definition responseOk (r : Response) : bool :=
  (200 <=? status r) && (status r <=? 299).

(** lib/stores/file-store.ts, [moveFolder(folderId, newParentId)]: the
    request body is [{ parentId: newParentId }], without a name; the
    result is [response.ok]. *)
Definition storeMoveFolder (fuel : nat) (db : Db) (userId folderId : Z)
    (newParentId : option Z) : option (bool * Db) :=
  match putFolder fuel db userId folderId None newParentId with
  | None => None
  | Some (r, db') => Some (responseOk r, db')
  end.

(** lib/stores/file-store.ts, [moveFile(fileId, newFolderId)]: the
    request body is [{ folderId: newFolderId }], without a name. *)
Definition storeMoveFile (db : Db) (userId fileId : Z)
    (newFolderId : option Z) : bool * Db :=
  let '(r, db') := putFile db userId fileId None newFolderId in
  (responseOk r, db').

(* ================================================================== *)
(** * More vocabulary *)
(* ================================================================== *)

(** The authenticated user of a request. *)
Definition userOf (req : Request) : Z :=
  match req with
  | PostFolder u _ _ => u
  | PutFolder u _ _ _ => u
  | DeleteFolder u _ _ => u
  | UploadFiles u _ _ => u
  | PutFile u _ _ _ => u
  | DeleteFile u _ => u
  | PostShare u _ _ _ _ _ _ _ => u
  | DeleteShare u _ => u
  end.

Definition ownedFolder (v : Z) (f : Folder.t) : bool := Folder.ownerId f =? v.

Definition ownedFile (v : Z) (x : File.t) : bool := File.ownerId x =? v.

(** No two folders have the same owner, parent and name. *)
Definition SiblingsUnique (fs : list Folder.t) : Prop :=
  forall f g, In f fs -> In g fs ->
    Folder.name f = Folder.name g -> Folder.ownerId f = Folder.ownerId g ->
    Folder.parentId f = Folder.parentId g -> f = g.

(** No two share links have the same token. *)
Definition TokensUnique (db : Db) : Prop :=
  NoDup (map ShareLink.token (shareLinks db)).

(** The ids of the rows of a folder tree. *)
Fixpoint treeIds (t : FolderTree) : list Z :=
  match t with
  | TNull => []
  | TNode f ts =>
      Folder.id f
      :: (fix go (l : list FolderTree) : list Z :=
            match l with
            | [] => []
            | t' :: r => treeIds t' ++ go r
            end) ts
  end.

(** The files listed anywhere in the contents of a shared folder, and
    the subfolders listed anywhere in them. *)
Fixpoint allFiles (c : Contents) : list File.t :=
  match c with
  | mkContents fl sub =>
      fl ++ (fix go (l : list (Folder.t * Contents)) : list File.t :=
               match l with
               | [] => []
               | (_, c') :: r => allFiles c' ++ go r
               end) sub
  end.

Fixpoint allFolders (c : Contents) : list Folder.t :=
  match c with
  | mkContents _ sub =>
      (fix go (l : list (Folder.t * Contents)) : list Folder.t :=
         match l with
         | [] => []
         | (f, c') :: r => f :: allFolders c' ++ go r
         end) sub
  end.

(** The running example goes on: user 1 adds the root folder "Archive"
    (id 3) and user 2 the root folder "Private" (id 4). *)
Definition exDb5 : Db := snd (postFolder exDb4 1 (Some (Js.lit "Archive")) None).

Definition exDb6 : Db := snd (postFolder exDb5 2 (Some (Js.lit "Private")) None).

(** [orderBy: { createdAt: 'desc' }].  The store leaves the order of
    rows with equal keys open; here the row inserted first comes
    first. *)
Section OrderByDesc.
Variable A : Type.
Variable key : A -> Z.

Fixpoint insertDesc (x : A) (l : list A) : list A :=
  match l with
  | [] => [x]
  | y :: r => if key y <=? key x then x :: l else y :: insertDesc x r
  end.

Definition orderByDesc (l : list A) : list A := fold_right insertDesc [] l.
End OrderByDesc.

(** An entry of the list GET /api/sharelinks returns: the row of the
    link, its folder ([include: { folder: true }]), [shareUrl] and
    [expiresIn]. *)
Record ShareRow := mkShareRow {
  row_link : ShareLink.t;
  row_folder : option Folder.t;
  row_shareUrl : string;
  row_expiresIn : Z
}.

(** GET /api/sharelinks at clock reading [now]: [shareLinks] and
    [count] of the body. *)
Definition getShareLinks (db : Db) (userId now : Z) (baseUrl : string)
  : list ShareRow * Z :=
  let userFolders :=
    Prisma.folder_findMany (folders db) (fun f => Folder.ownerId f =? userId) in
  let folderIds := map Folder.id userFolders in
  let links :=
    orderByDesc ShareLink.t ShareLink.createdAt
      (filter (fun l => existsb (Z.eqb (ShareLink.folderId l)) folderIds)
              (shareLinks db)) in
  (map (fun link =>
          mkShareRow link
            (Prisma.folder_findUnique (folders db) (ShareLink.folderId link))
            (baseUrl ++ "/share/" ++ ShareLink.token link)%string
            (ShareLink.expiresAt link - now))
       links,
   Z.of_nat (List.length links)).

(* ================================================================== *)
(** * Facts about the record store *)
(* ================================================================== *)

Lemma optZ_eqb_eq (a b : option Z) : optZ_eqb a b = true <-> a = b.
Proof.
  destruct a as [x|], b as [y|]; simpl; split; intro H;
    try discriminate; try reflexivity.
  - apply Z.eqb_eq in H. now subst.
  - inversion H. apply Z.eqb_refl.
Qed.

Lemma Js_eqb_eq (a b : Js.str) : Js.eqb a b = true <-> a = b.
Proof.
  revert b. induction a as [|x a IH]; intros [|y b]; simpl; split; intro H;
    try discriminate; try reflexivity.
  - apply andb_true_iff in H. destruct H as [H1 H2].
    apply Z.eqb_eq in H1. apply IH in H2. now subst.
  - inversion H; subst. rewrite Z.eqb_refl. simpl. now apply IH.
Qed.

Lemma findUnique_Some fs i f :
  Prisma.folder_findUnique fs i = Some f -> In f fs /\ Folder.id f = i.
Proof.
  unfold Prisma.folder_findUnique. intro H. apply find_some in H.
  destruct H as [H1 H2]. split; [assumption | now apply Z.eqb_eq].
Qed.

Lemma findUnique_None fs i :
  Prisma.folder_findUnique fs i = None ->
  forall f, In f fs -> Folder.id f <> i.
Proof.
  unfold Prisma.folder_findUnique. intros H f Hf E.
  apply (find_none _ _ H) in Hf. simpl in Hf.
  apply Z.eqb_neq in Hf. contradiction.
Qed.

Lemma nodup_same_id fs f g :
  NoDup (map Folder.id fs) -> In f fs -> In g fs ->
  Folder.id f = Folder.id g -> f = g.
Proof.
  induction fs as [|a fs IH]; simpl; intros ND Hf Hg E; [contradiction|].
  inversion ND as [|? ? Hn ND']; subst.
  destruct Hf as [->|Hf], Hg as [->|Hg].
  - reflexivity.
  - exfalso. apply Hn. rewrite E. now apply in_map.
  - exfalso. apply Hn. rewrite <- E. now apply in_map.
  - now apply IH.
Qed.

Lemma findUnique_In fs f :
  NoDup (map Folder.id fs) -> In f fs ->
  Prisma.folder_findUnique fs (Folder.id f) = Some f.
Proof.
  intros ND Hf.
  destruct (Prisma.folder_findUnique fs (Folder.id f)) as [g|] eqn:E.
  - apply findUnique_Some in E. destruct E as [Hg Eg].
    f_equal. now apply (nodup_same_id fs).
  - exfalso. now apply (findUnique_None _ _ E f Hf).
Qed.

Lemma present_iff fs i :
  Prisma.folder_present fs i = true <-> exists f, In f fs /\ Folder.id f = i.
Proof.
  unfold Prisma.folder_present. rewrite existsb_exists.
  split; intros [f [H1 H2]]; exists f; split; try assumption.
  - now apply Z.eqb_eq.
  - now apply Z.eqb_eq.
Qed.

Lemma filter_filter_andb (A : Type) (p q : A -> bool) (l : list A) :
  filter q (filter p l) = filter (fun x => p x && q x) l.
Proof.
  induction l as [|a l IH]; simpl; [reflexivity|].
  destruct (p a); simpl; [destruct (q a)|]; now rewrite IH.
Qed.

Lemma filter_all (A : Type) (p : A -> bool) (l : list A) :
  (forall x, In x l -> p x = true) -> filter p l = l.
Proof.
  induction l as [|a l IH]; simpl; intro H; [reflexivity|].
  rewrite (H a (or_introl eq_refl)). f_equal. apply IH.
  intros x Hx. apply H. now right.
Qed.

(** With every parent present the cascade of a delete removes nothing. *)
Lemma cascade_step_closed fs :
  (forall f p, In f fs -> Folder.parentId f = Some p ->
               exists g, In g fs /\ Folder.id g = p) ->
  Prisma.cascade_step fs = fs.
Proof.
  intro H. unfold Prisma.cascade_step. apply filter_all.
  intros f Hf. destruct (Folder.parentId f) as [p|] eqn:E; [|reflexivity].
  apply present_iff. now apply (H f).
Qed.

Lemma cascade_closed n fs :
  (forall f p, In f fs -> Folder.parentId f = Some p ->
               exists g, In g fs /\ Folder.id g = p) ->
  Prisma.cascade n fs = fs.
Proof.
  intro H. induction n as [|n IH]; simpl; [reflexivity|].
  now rewrite (cascade_step_closed fs H).
Qed.

Lemma cascade_files_twice fs fs' l :
  (forall f, In f fs' -> In f fs) ->
  Prisma.cascade_files fs' (Prisma.cascade_files fs l)
  = Prisma.cascade_files fs' l.
Proof.
  intro Hsub. unfold Prisma.cascade_files. rewrite filter_filter_andb.
  apply filter_ext. intro x. destruct (File.folderId x) as [d|]; [|reflexivity].
  destruct (Prisma.folder_present fs' d) eqn:E.
  - apply present_iff in E. destruct E as [f [Hf Ef]].
    rewrite andb_true_r. apply present_iff. exists f. auto.
  - apply andb_false_r.
Qed.

Lemma cascade_links_twice fs fs' l :
  (forall f, In f fs' -> In f fs) ->
  Prisma.cascade_links fs' (Prisma.cascade_links fs l)
  = Prisma.cascade_links fs' l.
Proof.
  intro Hsub. unfold Prisma.cascade_links. rewrite filter_filter_andb.
  apply filter_ext. intro x.
  destruct (Prisma.folder_present fs' (ShareLink.folderId x)) eqn:E.
  - apply present_iff in E. destruct E as [f [Hf Ef]].
    rewrite andb_true_r. apply present_iff. exists f. auto.
  - apply andb_false_r.
Qed.

(* ================================================================== *)
(** * Facts about ancestor chains *)
(* ================================================================== *)

Lemma chain_some fs o t : chain fs o t -> exists x, o = Some x.
Proof. intro H. destruct H; eauto. Qed.

Lemma chain_trans fs o y t :
  chain fs o y -> chain fs (Some y) t -> chain fs o t.
Proof.
  intros H1 H2. induction H1 as [x | x f y Hf E H IH].
  - assumption.
  - apply (chain_up fs x f t Hf E). now apply IH.
Qed.

Lemma chain_incl fs fs' o t :
  (forall f, In f fs' -> In f fs) -> chain fs' o t -> chain fs o t.
Proof.
  intros Hsub H. induction H as [x | x f t Hf E H IH].
  - apply chain_here.
  - apply (chain_up fs x f t (Hsub f Hf) E IH).
Qed.

Lemma chain_rank h fs o t :
  rank_ok h fs -> chain fs o t ->
  forall x, o = Some x -> (h x <= h t)%nat.
Proof.
  intros R H. induction H as [x | x f t Hf E H IH]; intros y Ey.
  - inversion Ey. subst. apply Nat.le_refl.
  - inversion Ey. subst.
    destruct (chain_some _ _ _ H) as [p Ep].
    specialize (IH p Ep). specialize (R f p Hf Ep). lia.
Qed.

Lemma descendant_rank h fs d a :
  rank_ok h fs -> descendant fs d a -> (h d < h a)%nat.
Proof.
  intros R [f [Hf [E H]]].
  destruct (chain_some _ _ _ H) as [p Ep].
  pose proof (chain_rank h fs _ _ R H p Ep). specialize (R f p Hf Ep).
  subst. lia.
Qed.

(** Chains that start at the same folder lie on one line. *)
Lemma chain_fork fs o a b :
  NoDup (map Folder.id fs) ->
  chain fs o a -> chain fs o b ->
  chain fs (Some a) b \/ chain fs (Some b) a.
Proof.
  intros ND Ha. revert b. induction Ha as [x | x f a Hf E H IH]; intros b Hb.
  - now left.
  - inversion Hb as [y | y g t Hg Eg Hc]; subst.
    + right. apply (chain_up fs (Folder.id f) f a Hf eq_refl H).
    + assert (g = f) by (apply (nodup_same_id fs); auto). subst g.
      now apply IH.
Qed.

(** A chain that reaches [x] from elsewhere enters it from a child. *)
Lemma chain_last fs o x :
  chain fs o x ->
  forall y, o = Some y -> y <> x ->
  exists c, In c fs /\ Folder.parentId c = Some x
            /\ chain fs (Some y) (Folder.id c).
Proof.
  intro H. induction H as [z | z f x Hf E H IH]; intros y Ey Ny.
  - inversion Ey. subst. contradiction.
  - inversion Ey. subst.
    destruct (chain_some _ _ _ H) as [p Ep].
    destruct (Z.eq_dec p x) as [->|Np].
    + exists f. split; [assumption|]. split; [assumption|]. apply chain_here.
    + destruct (IH p Ep Np) as [c [Hc [Pc Cc]]].
      exists c. split; [assumption|]. split; [assumption|].
      apply (chain_up fs (Folder.id f) f (Folder.id c) Hf eq_refl).
      now rewrite Ep.
Qed.

(** The loop of the gateway and [checkCircularReference] are the same walk. *)
Lemma walkUp_check n fs o t :
  walkUp n fs o t = checkCircularReference n fs o t.
Proof.
  revert o. induction n as [|n IH]; intro o; simpl; [reflexivity|].
  destruct o as [c|]; simpl; [|reflexivity].
  destruct (c =? 0); simpl; [reflexivity|].
  destruct (Prisma.folder_findUnique fs c) as [f|]; [|reflexivity].
  destruct (Folder.id f =? t); [reflexivity|]. apply IH.
Qed.

Lemma check_true n fs o t :
  checkCircularReference n fs o t = Some true -> chain fs o t.
Proof.
  revert o. induction n as [|n IH]; intro o; simpl; [discriminate|].
  destruct o as [c|]; [|discriminate].
  destruct (c =? 0); [discriminate|].
  destruct (Prisma.folder_findUnique fs c) as [f|] eqn:E; [|discriminate].
  apply findUnique_Some in E. destruct E as [Hf Ef].
  destruct (Folder.id f =? t) eqn:Et.
  - intros _. apply Z.eqb_eq in Et. subst. apply chain_here.
  - intro H. apply (chain_up fs c f t Hf Ef). now apply IH.
Qed.

Lemma check_false n fs o t :
  NoDup (map Folder.id fs) ->
  (forall f, In f fs -> Folder.id f <> 0) ->
  (exists f, In f fs /\ Folder.id f = t) ->
  checkCircularReference n fs o t = Some false -> ~ chain fs o t.
Proof.
  intros ND Nz [ft [Hft Eft]].
  revert o. induction n as [|n IH]; intro o; simpl; [discriminate|].
  destruct o as [c|]; [|intros _ H; inversion H].
  destruct (c =? 0) eqn:E0.
  - apply Z.eqb_eq in E0. subst c. intros _ H.
    inversion H as [y | y g u Hg Eg Hc]; subst.
    + now apply (Nz ft Hft).
    + now apply (Nz g Hg).
  - destruct (Prisma.folder_findUnique fs c) as [f|] eqn:E.
    + destruct (findUnique_Some _ _ _ E) as [Hf Ef].
      destruct (Folder.id f =? t) eqn:Et; [discriminate|].
      apply Z.eqb_neq in Et. intros Hk H.
      inversion H as [y | y g u Hg Eg Hc]; subst.
      * now apply Et.
      * assert (g = f) by (apply (nodup_same_id fs); auto). subst g.
        now apply (IH _ Hk).
    + intros _ H. pose proof (findUnique_None _ _ E) as Hn.
      inversion H as [y | y g u Hg Eg Hc]; subst.
      * now apply (Hn ft Hft).
      * now apply (Hn g Hg).
Qed.

Lemma rank_bound (h : Z -> nat) (fs : list Folder.t) :
  exists M, forall f, In f fs -> (h (Folder.id f) <= M)%nat.
Proof.
  induction fs as [|a fs [M HM]].
  - exists O. intros f [].
  - exists (Nat.max M (h (Folder.id a))). intros f [->|Hf].
    + apply Nat.le_max_r.
    + specialize (HM f Hf). lia.
Qed.

Section Fuel.
Variable h : Z -> nat.
Variable fs : list Folder.t.
Variable M : nat.
Hypothesis ND : NoDup (map Folder.id fs).
Hypothesis R : rank_ok h fs.
Hypothesis B : forall f, In f fs -> (h (Folder.id f) <= M)%nat.
Hypothesis PAR : forall f p, In f fs -> Folder.parentId f = Some p ->
                             exists g, In g fs /\ Folder.id g = p.

Lemma check_total_aux n t :
  forall o, (0 < n)%nat ->
    (forall f, In f fs -> o = Some (Folder.id f) ->
               (M - h (Folder.id f) + 1 < n)%nat) ->
    exists b, checkCircularReference n fs o t = Some b.
Proof.
  induction n as [|n IH]; intros o Hn Ho; [lia|]. simpl.
  destruct o as [c|]; [|eauto].
  destruct (c =? 0); [eauto|].
  destruct (Prisma.folder_findUnique fs c) as [f|] eqn:E; [|eauto].
  destruct (findUnique_Some _ _ _ E) as [Hf Ef].
  destruct (Folder.id f =? t); [eauto|].
  subst c. specialize (Ho f Hf eq_refl).
  apply IH.
  - lia.
  - intros g Hg Eg. specialize (R f (Folder.id g) Hf Eg).
    specialize (B g Hg). lia.
Qed.

Lemma check_total n o t :
  (M + 1 < n)%nat -> exists b, checkCircularReference n fs o t = Some b.
Proof.
  intro Hn. apply check_total_aux; [lia|]. intros. lia.
Qed.

Lemma stepsToRoot_total_aux n :
  forall o, (0 < n)%nat ->
    (o = None \/ exists f, In f fs /\ o = Some (Folder.id f)
                           /\ (M - h (Folder.id f) + 1 < n)%nat) ->
    exists k, stepsToRoot n fs o = Some k.
Proof.
  induction n as [|n IH]; intros o Hn Ho; [lia|]. simpl.
  destruct Ho as [->|[f [Hf [-> Hlt]]]]; [eauto|].
  rewrite (findUnique_In fs f ND Hf).
  assert (exists k, stepsToRoot n fs (Folder.parentId f) = Some k) as [k Hk].
  { destruct (Folder.parentId f) as [p|] eqn:Ep.
    - destruct (PAR f p Hf Ep) as [g [Hg Eg]].
      specialize (R f p Hf Ep). specialize (B g Hg). subst p.
      apply IH; [lia|]. right. exists g. repeat split; auto. lia.
    - destruct n; [lia|]. simpl. eauto. }
  rewrite Hk. eauto.
Qed.
End Fuel.

(* ================================================================== *)
(** * The invariant is kept by the store operations the handlers use *)
(* ================================================================== *)

Lemma emptyDb_inv : InvH (fun _ => O) emptyDb.
Proof.
  constructor; simpl; try (intros; contradiction); try lia;
    try constructor.
  intros f p [].
Qed.

Lemma nodup_map_filter (A B : Type) (g : A -> B) (p : A -> bool) (l : list A) :
  NoDup (map g l) -> NoDup (map g (filter p l)).
Proof.
  induction l as [|a l IH]; simpl; intro H; [constructor|].
  inversion H as [|? ? Hn H']; subst.
  destruct (p a); simpl; [|now apply IH].
  constructor; [|now apply IH].
  intro Hin. apply Hn. apply in_map_iff in Hin. destruct Hin as [x [Ex Hx]].
  apply filter_In in Hx. apply in_map_iff. exists x. tauto.
Qed.

Lemma find_app_l (A : Type) (p : A -> bool) (l l' : list A) (x : A) :
  find p l = Some x -> find p (l ++ l') = Some x.
Proof.
  induction l as [|a l IH]; simpl; [discriminate|].
  destruct (p a); [auto | apply IH].
Qed.

Lemma find_app_r (A : Type) (p : A -> bool) (l l' : list A) :
  find p l = None -> find p (l ++ l') = find p l'.
Proof.
  induction l as [|a l IH]; simpl; [reflexivity|].
  destruct (p a); [discriminate | apply IH].
Qed.

Lemma folder_create_inv h db n o target f db' :
  InvH h db ->
  (forall p, target = Some p ->
     exists g, In g (folders db) /\ Folder.id g = p /\ Folder.ownerId g = o) ->
  Prisma.folder_create db n o target = (f, db') ->
  InvH (fun y => if y =? folderSeq db + 1 then O else S (h y)) db'.
Proof.
  intros I Ht E. unfold Prisma.folder_create in E. inversion E; subst; clear E.
  destruct I as [ND SEQ SEQ0 PAR RK FL LK FND FSEQ].
  constructor; simpl; [| | | | | | |assumption|assumption].
  - rewrite map_app. apply NoDup_app; [assumption | repeat constructor; intros [] |].
    simpl. intros a Ha [<-|[]]. apply in_map_iff in Ha.
    destruct Ha as [g [Eg Hg]]. specialize (SEQ g Hg). lia.
  - intros g Hg. apply in_app_or in Hg. destruct Hg as [Hg|[<-|[]]].
    + specialize (SEQ g Hg). lia.
    + simpl. lia.
  - lia.
  - intros g p Hg Ep. apply in_app_or in Hg. destruct Hg as [Hg|[<-|[]]].
    + destruct (PAR g p Hg Ep) as [g' [H1 [H2 H3]]].
      exists g'. split; [apply in_or_app; now left | tauto].
    + simpl in Ep. destruct (Ht p Ep) as [g' [H1 [H2 H3]]].
      exists g'. split; [apply in_or_app; now left | simpl; tauto].
  - intros g p Hg Ep. apply in_app_or in Hg. destruct Hg as [Hg|[<-|[]]].
    + destruct (PAR g p Hg Ep) as [g' [H1 [H2 H3]]].
      pose proof (SEQ g Hg). pose proof (SEQ g' H1). pose proof (RK g p Hg Ep).
      destruct (Z.eqb_spec (Folder.id g) (folderSeq db + 1)); [lia|].
      destruct (Z.eqb_spec p (folderSeq db + 1)); [lia|]. lia.
    + simpl in *. rewrite Z.eqb_refl.
      destruct (Ht p Ep) as [g' [H1 [H2 H3]]]. pose proof (SEQ g' H1).
      destruct (Z.eqb_spec p (folderSeq db + 1)); lia.
  - intros x d Hx Ed. destruct (FL x d Hx Ed) as [g' [H1 H2]].
    exists g'. split; [apply in_or_app; now left | assumption].
  - intros l Hl. destruct (LK l Hl) as [g' [H1 H2]].
    exists g'. split; [apply in_or_app; now left | assumption].
Qed.

(** Removing a set of folders that leaves every kept folder its parent. *)
Lemma filter_inv h db keep :
  InvH h db ->
  (forall f p g, In f (folders db) -> keep f = true ->
     Folder.parentId f = Some p -> In g (folders db) -> Folder.id g = p ->
     keep g = true) ->
  InvH h (mkDb (filter keep (folders db))
               (Prisma.cascade_files (filter keep (folders db)) (files db))
               (Prisma.cascade_links (filter keep (folders db)) (shareLinks db))
               (folderSeq db) (fileSeq db) (shareSeq db)).
Proof.
  intros [ND SEQ SEQ0 PAR RK FL LK FND FSEQ] Hk. constructor; simpl.
  - now apply nodup_map_filter.
  - intros f Hf. apply filter_In in Hf. now apply SEQ.
  - assumption.
  - intros f p Hf Ep. apply filter_In in Hf. destruct Hf as [Hf Kf].
    destruct (PAR f p Hf Ep) as [g [H1 [H2 H3]]].
    exists g. split; [|tauto]. apply filter_In. split; [assumption|].
    now apply (Hk f p g).
  - intros f p Hf Ep. apply filter_In in Hf. now apply RK.
  - intros x d Hx Ed. unfold Prisma.cascade_files in Hx.
    apply filter_In in Hx. destruct Hx as [Hx Px]. rewrite Ed in Px.
    apply present_iff in Px. destruct Px as [g' [Hg' Eg']].
    destruct (FL x d Hx Ed) as [g [H1 [H2 H3]]].
    exists g'. split; [assumption|]. split; [assumption|].
    apply filter_In in Hg'. destruct Hg' as [Hg' _].
    assert (g' = g) by (apply (nodup_same_id (folders db)); auto; congruence).
    now subst.
  - intros l Hl. unfold Prisma.cascade_links in Hl.
    apply filter_In in Hl. destruct Hl as [_ Pl].
    now apply present_iff in Pl.
  - now apply nodup_map_filter.
  - intros x Hx. apply filter_In in Hx. now apply FSEQ.
Qed.

(** [prisma.folder.delete] on a folder without child folders. *)
Lemma folder_delete_childless h db i fi :
  InvH h db ->
  Prisma.folder_findUnique (folders db) i = Some fi ->
  (forall f, In f (folders db) -> Folder.parentId f <> Some i) ->
  let fs' := filter (fun f => negb (Folder.id f =? i)) (folders db) in
  let db' := mkDb fs' (Prisma.cascade_files fs' (files db))
                  (Prisma.cascade_links fs' (shareLinks db))
                  (folderSeq db) (fileSeq db) (shareSeq db) in
  Prisma.folder_delete db i = Ok db' /\ InvH h db'.
Proof.
  intros I E Hc fs' db'.
  assert (I' : InvH h db').
  { apply filter_inv; [assumption|].
    intros f p g Hf Kf Ep Hg Eg. apply negb_true_iff. apply Z.eqb_neq.
    intro Ei. apply (Hc f Hf). congruence. }
  split; [|assumption].
  unfold Prisma.folder_delete. rewrite E. fold fs'.
  rewrite cascade_closed; [reflexivity|].
  intros f p Hf Ep. destruct (inv_parent h db' I' f p Hf Ep) as [g [H1 [H2 _]]].
  eauto.
Qed.

Lemma folder_set_id i n p f : Folder.id (Prisma.folder_set i n p f) = Folder.id f.
Proof. unfold Prisma.folder_set. now destruct (Folder.id f =? i). Qed.

Lemma folder_set_owner i n p f :
  Folder.ownerId (Prisma.folder_set i n p f) = Folder.ownerId f.
Proof. unfold Prisma.folder_set. now destruct (Folder.id f =? i). Qed.

Lemma folder_set_parent i n p f :
  Folder.parentId (Prisma.folder_set i n p f)
  = if Folder.id f =? i then p else Folder.parentId f.
Proof. unfold Prisma.folder_set. now destruct (Folder.id f =? i). Qed.

Lemma map_folder_set_ids i n p fs :
  map Folder.id (map (Prisma.folder_set i n p) fs) = map Folder.id fs.
Proof.
  rewrite map_map. apply map_ext. intro f. apply folder_set_id.
Qed.

(** [prisma.folder.update] keeps the invariant when the new parent, if
    any, is a folder of the same owner and a rank exists for the result. *)
Lemma folder_update_inv h h' db i n newp :
  InvH h db ->
  rank_ok h' (map (Prisma.folder_set i n newp) (folders db)) ->
  (forall P, newp = Some P ->
     exists g, In g (folders db) /\ Folder.id g = P
               /\ forall f, In f (folders db) -> Folder.id f = i ->
                            Folder.ownerId g = Folder.ownerId f) ->
  InvH h' (mkDb (map (Prisma.folder_set i n newp) (folders db)) (files db)
                (shareLinks db) (folderSeq db) (fileSeq db) (shareSeq db)).
Proof.
  intros [ND SEQ SEQ0 PAR RK FL LK FND FSEQ] RK' HP.
  constructor; simpl; [| | | | | | |assumption|assumption].
  - now rewrite map_folder_set_ids.
  - intros f' Hf'. apply in_map_iff in Hf'. destruct Hf' as [f [<- Hf]].
    rewrite folder_set_id. now apply SEQ.
  - assumption.
  - intros f' p Hf' Ep. apply in_map_iff in Hf'. destruct Hf' as [f [<- Hf]].
    rewrite folder_set_parent in Ep. rewrite folder_set_owner.
    destruct (Z.eqb_spec (Folder.id f) i) as [Ei|Ni].
    + destruct (HP p Ep) as [g [Hg [Eg Ho]]].
      exists (Prisma.folder_set i n newp g).
      rewrite folder_set_id, folder_set_owner.
      split; [now apply in_map|]. split; [assumption | now apply Ho].
    + destruct (PAR f p Hf Ep) as [g [Hg [Eg Ho]]].
      exists (Prisma.folder_set i n newp g).
      rewrite folder_set_id, folder_set_owner.
      split; [now apply in_map | tauto].
  - assumption.
  - intros x d Hx Ed. destruct (FL x d Hx Ed) as [g [Hg [Eg Ho]]].
    exists (Prisma.folder_set i n newp g).
    rewrite folder_set_id, folder_set_owner.
    split; [now apply in_map | tauto].
  - intros l Hl. destruct (LK l Hl) as [g [Hg Eg]].
    exists (Prisma.folder_set i n newp g). rewrite folder_set_id.
    split; [now apply in_map | assumption].
Qed.

Lemma rank_ok_root h i n fs :
  rank_ok h fs -> rank_ok h (map (Prisma.folder_set i n None) fs).
Proof.
  intros R f' p Hf' Ep. apply in_map_iff in Hf'. destruct Hf' as [f [<- Hf]].
  rewrite folder_set_parent in Ep. rewrite folder_set_id.
  destruct (Folder.id f =? i); [discriminate|]. now apply R.
Qed.

(** Moving [i] under [P] when [i] is not on the chain of [P]: the rank of
    every folder on that chain is raised above the rank of [i]. *)
Lemma rank_ok_move h db i n P :
  InvH h db ->
  (exists f, In f (folders db) /\ Folder.id f = i) ->
  (exists g, In g (folders db) /\ Folder.id g = P) ->
  ~ chain (folders db) (Some P) i ->
  exists h', rank_ok h' (map (Prisma.folder_set i n (Some P)) (folders db)).
Proof.
  intros [ND SEQ SEQ0 PAR RK FL LK FND FSEQ] Hi [gP [HgP EgP]] Hno.
  destruct (rank_bound h (folders db)) as [M HM].
  assert (PAR' : forall f p, In f (folders db) -> Folder.parentId f = Some p ->
                             exists g, In g (folders db) /\ Folder.id g = p).
  { intros f p Hf Ep. destruct (PAR f p Hf Ep) as [g [H1 [H2 _]]]. eauto. }
  assert (NZ : forall f, In f (folders db) -> Folder.id f <> 0).
  { intros f Hf. specialize (SEQ f Hf). lia. }
  set (inC := fun y =>
         match checkCircularReference (S (S M)) (folders db) (Some P) y with
         | Some true => true
         | _ => false
         end).
  assert (inC_spec : forall g, In g (folders db) ->
            (inC (Folder.id g) = true <-> chain (folders db) (Some P) (Folder.id g))).
  { intros g Hg. unfold inC.
    destruct (check_total h (folders db) M RK HM (S (S M)) (Some P) (Folder.id g))
      as [b Hb]; [lia|].
    rewrite Hb. destruct b.
    - split; [intros _; now apply (check_true _ _ _ _ Hb) | reflexivity].
    - split; [discriminate|]. intro Hc. exfalso.
      apply (check_false _ _ _ _ ND NZ (ex_intro _ g (conj Hg eq_refl)) Hb Hc). }
  exists (fun y => if inC y then (h y + h i + 1)%nat else h y).
  intros f' p Hf' Ep. apply in_map_iff in Hf'. destruct Hf' as [f [<- Hf]].
  rewrite folder_set_parent in Ep. rewrite folder_set_id.
  destruct (Z.eqb_spec (Folder.id f) i) as [Ei|Ni].
  - inversion Ep; subst p. clear Ep.
    assert (inC (Folder.id f) = false) as ->.
    { destruct (inC (Folder.id f)) eqn:E; [|reflexivity].
      apply (inC_spec f Hf) in E. rewrite Ei in E. contradiction. }
    assert (inC P = true) as ->.
    { rewrite <- EgP. apply (inC_spec gP HgP). rewrite EgP. apply chain_here. }
    rewrite Ei. lia.
  - destruct (PAR' f p Hf Ep) as [g [Hg Eg]]. pose proof (RK f p Hf Ep) as Hlt.
    destruct (inC (Folder.id f)) eqn:E.
    + assert (inC p = true) as ->; [|lia].
      rewrite <- Eg. apply (inC_spec g Hg). apply (inC_spec f Hf) in E.
      apply (chain_trans _ _ _ _ E).
      apply (chain_up _ _ f _ Hf eq_refl). rewrite Ep, Eg. apply chain_here.
    + destruct (inC p); lia.
Qed.

(** Changes to the file and link tables that keep their references. *)
Lemma inv_reftables h db fl lk s1 s2 :
  InvH h db ->
  (forall x d, In x fl -> File.folderId x = Some d ->
     exists g, In g (folders db) /\ Folder.id g = d
               /\ Folder.ownerId g = File.ownerId x) ->
  (forall l, In l lk ->
     exists g, In g (folders db) /\ Folder.id g = ShareLink.folderId l) ->
  NoDup (map File.id fl) ->
  (forall x, In x fl -> File.id x <= s1) ->
  InvH h (mkDb (folders db) fl lk (folderSeq db) s1 s2).
Proof.
  intros [ND SEQ SEQ0 PAR RK FL LK FND FSEQ] H1 H2 H3 H4.
  constructor; simpl; assumption.
Qed.

Lemma owner_check g u :
  negb (Folder.ownerId g =? u) = false -> Folder.ownerId g = u.
Proof.
  intro H. apply negb_false_iff in H. now apply Z.eqb_eq.
Qed.

Lemma saveFiles_inv h db u d batch saved db' destroyed :
  InvH h db ->
  (forall p, d = Some p ->
     exists g, In g (folders db) /\ Folder.id g = p /\ Folder.ownerId g = u) ->
  saveFiles db u d batch = (saved, db', destroyed) ->
  InvH h db'.
Proof.
  revert db saved db' destroyed.
  induction batch as [|[file dbError] rest IH]; intros db saved db' destroyed I Hd E.
  - simpl in E. inversion E; subst. assumption.
  - simpl in E. destruct dbError.
    + destruct (saveFiles db u d rest) as [[s1 d1] x1] eqn:E1.
      inversion E; subst. eapply IH; eauto.
    + unfold Prisma.file_create in E.
      match type of E with
      | context [saveFiles ?D u d rest] =>
          destruct (saveFiles D u d rest) as [[s1 d1] x1] eqn:E1
      end.
      inversion E; subst. eapply IH; [| |exact E1].
      * apply inv_reftables; [assumption| |exact (inv_links h db I)| |].
        -- intros x p Hx Ep. apply in_app_or in Hx. destruct Hx as [Hx|[<-|[]]].
           ++ exact (inv_files h db I x p Hx Ep).
           ++ simpl in *. now apply Hd.
        -- rewrite map_app. apply NoDup_app;
             [exact (inv_file_nodup h db I) | repeat constructor; intros [] |].
           simpl. intros a Ha [<-|[]]. apply in_map_iff in Ha.
           destruct Ha as [x [Ex Hx]]. pose proof (inv_file_seq h db I x Hx). lia.
        -- intros x Hx. apply in_app_or in Hx. destruct Hx as [Hx|[<-|[]]].
           ++ pose proof (inv_file_seq h db I x Hx). lia.
           ++ simpl. lia.
      * simpl. assumption.
Qed.

Lemma uploadFiles_inv db u d batch res db' destroyed :
  Inv db -> uploadFiles db u d batch = (res, db', destroyed) -> Inv db'.
Proof.
  intros [h I] E. exists h. unfold uploadFiles in E.
  assert (Hsave : (forall p, d = Some p ->
            exists g, In g (folders db) /\ Folder.id g = p
                      /\ Folder.ownerId g = u) ->
          forall saved db1 x1, saveFiles db u d batch = (saved, db1, x1) ->
          InvH h db1).
  { intros Hd saved db1 x1 E1. eapply saveFiles_inv; eauto. }
  destruct d as [p|].
  - destruct (Prisma.folder_findUnique (folders db) p) as [g|] eqn:Eg;
      [|inversion E; subst; assumption].
    destruct (negb (Folder.ownerId g =? u)) eqn:Eo;
      [inversion E; subst; assumption|].
    apply owner_check in Eo. apply findUnique_Some in Eg.
    destruct batch as [|b rest]; [inversion E; subst; assumption|].
    destruct (saveFiles db u (Some p) (b :: rest)) as [[s1 d1] x1] eqn:E1.
    assert (InvH h d1).
    { eapply Hsave; [|reflexivity]. intros q Eq. inversion Eq; subst.
      exists g. tauto. }
    destruct s1; inversion E; subst; assumption.
  - destruct batch as [|b rest]; [inversion E; subst; assumption|].
    destruct (saveFiles db u None (b :: rest)) as [[s1 d1] x1] eqn:E1.
    assert (InvH h d1).
    { eapply Hsave; [|reflexivity]. intros q Eq. discriminate. }
    destruct s1; inversion E; subst; assumption.
Qed.

Lemma file_set_owner i n d x :
  File.ownerId (Prisma.file_set i n d x) = File.ownerId x.
Proof. unfold Prisma.file_set. now destruct (File.id x =? i). Qed.

Lemma file_set_folder i n d x :
  File.folderId (Prisma.file_set i n d x)
  = if File.id x =? i then d else File.folderId x.
Proof. unfold Prisma.file_set. now destruct (File.id x =? i). Qed.

Lemma file_set_id i n d x : File.id (Prisma.file_set i n d x) = File.id x.
Proof. unfold Prisma.file_set. now destruct (File.id x =? i). Qed.

Lemma file_findUnique_Some l i x :
  Prisma.file_findUnique l i = Some x -> In x l /\ File.id x = i.
Proof.
  unfold Prisma.file_findUnique. intro H. apply find_some in H.
  destruct H as [H1 H2]. split; [assumption | now apply Z.eqb_eq].
Qed.

Lemma nodup_same_file_id l x y :
  NoDup (map File.id l) -> In x l -> In y l -> File.id x = File.id y -> x = y.
Proof.
  induction l as [|a l IH]; simpl; intros ND Hx Hy E; [contradiction|].
  inversion ND as [|? ? Hn ND']; subst.
  destruct Hx as [->|Hx], Hy as [->|Hy].
  - reflexivity.
  - exfalso. apply Hn. rewrite E. now apply in_map.
  - exfalso. apply Hn. rewrite <- E. now apply in_map.
  - now apply IH.
Qed.

Lemma putFile_inv db u i name d res db' :
  Inv db -> putFile db u i name d = (res, db') -> Inv db'.
Proof.
  intros [h I] E. exists h. unfold putFile in E.
  destruct (verifyFileOwnership db u i) as [r|file] eqn:Ev;
    [inversion E; subst; assumption|].
  assert (Hown : In file (files db) /\ File.id file = i /\ File.ownerId file = u).
  { unfold verifyFileOwnership in Ev.
    destruct (Prisma.file_findUnique (files db) i) as [x2|] eqn:Ex2;
      [|discriminate].
    destruct (negb (File.ownerId x2 =? u)) eqn:Eo; [discriminate|].
    apply negb_false_iff in Eo. apply Z.eqb_eq in Eo.
    apply file_findUnique_Some in Ex2. inversion Ev; subst. tauto. }
  destruct Hown as [Hfile [Eid Eown]].
  destruct (validName name) as [n|]; [|inversion E; subst; assumption].
  destruct (Js.length n >? 255); [inversion E; subst; assumption|].
  assert (Hd : (forall p, d = Some p ->
             exists g, In g (folders db) /\ Folder.id g = p
                       /\ Folder.ownerId g = u) ->
          forall r0 d0,
          match Prisma.file_findFirst (files db)
                  (fun x => Js.eqb (File.name x) n && (File.ownerId x =? u)
                            && optZ_eqb (File.folderId x) d
                            && negb (File.id x =? i)) with
          | Some _ =>
              (json 400 (BMessage
                 "A file with this name already exists in this location"), db)
          | None =>
              match Prisma.file_update db i n d with
              | Threw e => (json 500 (BError "Error updating file" e), db)
              | Ok (updatedFile, db') =>
                  (json 200 (BFile "File updated successfully" updatedFile
                                   (folderOf (folders db') updatedFile)), db')
              end
          end = (r0, d0) -> InvH h d0).
  { intros Hd r0 d0 E'.
    destruct (Prisma.file_findFirst _ _); [inversion E'; subst; assumption|].
    unfold Prisma.file_update in E'.
    destruct (Prisma.file_findUnique (files db) i) as [x0|] eqn:Ex;
      [|inversion E'; subst; assumption].
    inversion E'; subst. clear E'.
    apply inv_reftables; [assumption| |exact (inv_links h db I)| |].
    - intros x p Hx Ep. apply in_map_iff in Hx. destruct Hx as [x1 [<- Hx1]].
      rewrite file_set_folder in Ep. rewrite file_set_owner.
      destruct (Z.eqb_spec (File.id x1) (File.id file)) as [Ei|Ni].
      + destruct (Hd p Ep) as [g [Hg [Eg Ho]]]. exists g.
        split; [assumption|]. split; [assumption|].
        assert (x1 = file)
          by (apply (nodup_same_file_id (files db)); auto;
              exact (inv_file_nodup h db I)).
        subst x1. assumption.
      + exact (inv_files h db I x1 p Hx1 Ep).
    - rewrite map_map.
      rewrite (map_ext _ File.id) by (intro; apply file_set_id).
      exact (inv_file_nodup h db I).
    - intros x Hx. apply in_map_iff in Hx. destruct Hx as [x1 [<- Hx1]].
      rewrite file_set_id. exact (inv_file_seq h db I x1 Hx1). }
  destruct d as [p|].
  - destruct (Prisma.folder_findUnique (folders db) p) as [g|] eqn:Eg;
      [|inversion E; subst; assumption].
    destruct (negb (Folder.ownerId g =? u)) eqn:Eo;
      [inversion E; subst; assumption|].
    apply owner_check in Eo. apply findUnique_Some in Eg.
    eapply Hd; [|exact E]. intros q Eq. inversion Eq; subst. exists g. tauto.
  - eapply Hd; [|exact E]. intros q Eq. discriminate.
Qed.

Lemma deleteFile_inv db u i res db' destroyed :
  Inv db -> deleteFile db u i = (res, db', destroyed) -> Inv db'.
Proof.
  intros [h I] E. exists h. unfold deleteFile in E.
  destruct (verifyFileOwnership db u i) as [r|file];
    [inversion E; subst; assumption|].
  unfold Prisma.file_delete in E.
  destruct (Prisma.file_findUnique (files db) i);
    [|inversion E; subst; assumption].
  inversion E; subst. clear E.
  apply inv_reftables; [assumption| |exact (inv_links h db I)| |].
  - intros x p Hx Ep. apply filter_In in Hx.
    apply (inv_files h db I x p); tauto.
  - apply nodup_map_filter. exact (inv_file_nodup h db I).
  - intros x Hx. apply filter_In in Hx. apply (inv_file_seq h db I x). tauto.
Qed.

Lemma postShare_inv db u i duration zone now created token baseUrl res db' :
  Inv db ->
  postShare db u i duration zone now created token baseUrl = (res, db') -> Inv db'.
Proof.
  intros [h I] E. exists h. unfold postShare in E.
  destruct (Prisma.folder_findUnique (folders db) i) as [g|] eqn:Eg;
    [|inversion E; subst; assumption].
  destruct (negb (Folder.ownerId g =? u)); [inversion E; subst; assumption|].
  destruct (computeExpiry zone now _) as [expiresAt|];
    [|inversion E; subst; assumption].
  unfold Prisma.shareLink_create in E.
  destruct (Prisma.shareLink_findFirst (shareLinks db) token);
    [inversion E; subst; assumption|].
  inversion E; subst. clear E. apply findUnique_Some in Eg.
  apply inv_reftables;
    [assumption | exact (inv_files h db I) | |
     exact (inv_file_nodup h db I) | exact (inv_file_seq h db I)].
  intros l Hl. apply in_app_or in Hl. destruct Hl as [Hl|[<-|[]]].
  - exact (inv_links h db I l Hl).
  - simpl. exists g. tauto.
Qed.

Lemma deleteShare_inv db u i res db' :
  Inv db -> deleteShare db u i = (res, db') -> Inv db'.
Proof.
  intros [h I] E. exists h. unfold deleteShare in E.
  destruct (Prisma.shareLink_findUnique (shareLinks db) i) as [l|] eqn:El;
    [|inversion E; subst; assumption].
  destruct (Prisma.folder_findUnique (folders db) (ShareLink.folderId l))
    as [g|]; [|inversion E; subst; assumption].
  destruct (negb (Folder.ownerId g =? u)); [inversion E; subst; assumption|].
  unfold Prisma.shareLink_delete in E. rewrite El in E.
  inversion E; subst. clear E.
  apply inv_reftables;
    [assumption | exact (inv_files h db I) | |
     exact (inv_file_nodup h db I) | exact (inv_file_seq h db I)].
  intros l' Hl'. apply filter_In in Hl'. apply (inv_links h db I l'). tauto.
Qed.

Lemma postFolder_inv db u name p res db' :
  Inv db -> postFolder db u name p = (res, db') -> Inv db'.
Proof.
  intros [h I] E. unfold postFolder in E.
  destruct (validName name) as [n|]; [|inversion E; subst; exists h; assumption].
  destruct (Js.length n >? 255); [inversion E; subst; exists h; assumption|].
  set (target := if Js.truthy p then p else None) in *.
  assert (Hd : (forall q, target = Some q ->
             exists g, In g (folders db) /\ Folder.id g = q
                       /\ Folder.ownerId g = u) ->
          forall r0 d0,
          match Prisma.folder_findFirst (folders db)
                  (fun f => Js.eqb (Folder.name f) n && (Folder.ownerId f =? u)
                            && optZ_eqb (Folder.parentId f) target) with
          | Some _ =>
              (json 400 (BMessage
                 "A folder with this name already exists in this location"), db)
          | None =>
              let '(folder, db') := Prisma.folder_create db n u target in
              (json 201 (BFolder "Folder created successfully" folder
                                 (parentOf (folders db') folder)), db')
          end = (r0, d0) -> Inv d0).
  { intros Hd r0 d0 E'.
    destruct (Prisma.folder_findFirst _ _);
      [inversion E'; subst; exists h; assumption|].
    destruct (Prisma.folder_create db n u target) as [folder d1] eqn:Ec.
    inversion E'; subst. eexists. eapply folder_create_inv; eauto. }
  destruct target as [q|].
  - destruct (Prisma.folder_findUnique (folders db) q) as [g|] eqn:Eg;
      [|inversion E; subst; exists h; assumption].
    destruct (negb (Folder.ownerId g =? u)) eqn:Eo;
      [inversion E; subst; exists h; assumption|].
    apply owner_check in Eo. apply findUnique_Some in Eg.
    eapply Hd; [|exact E]. intros q' Eq. inversion Eq; subst. exists g. tauto.
  - eapply Hd; [|exact E]. intros q' Eq. discriminate.
Qed.

Lemma verify_inr db u i f :
  verifyFolderOwnership db u i = inr f ->
  Prisma.folder_findUnique (folders db) i = Some f
  /\ In f (folders db) /\ Folder.id f = i /\ Folder.ownerId f = u.
Proof.
  unfold verifyFolderOwnership. intro H.
  destruct (Prisma.folder_findUnique (folders db) i) as [g|] eqn:E;
    [|discriminate].
  destruct (negb (Folder.ownerId g =? u)) eqn:Eo; [discriminate|].
  inversion H; subst. apply owner_check in Eo.
  destruct (findUnique_Some _ _ _ E). tauto.
Qed.

Lemma putFolderCommit_inv h db u i n newp res db' :
  InvH h db ->
  (exists h', rank_ok h' (map (Prisma.folder_set i n newp) (folders db))) ->
  (forall P, newp = Some P ->
     exists g, In g (folders db) /\ Folder.id g = P
               /\ forall f, In f (folders db) -> Folder.id f = i ->
                            Folder.ownerId g = Folder.ownerId f) ->
  putFolderCommit db u i n newp = (res, db') -> Inv db'.
Proof.
  intros I [h' R'] HP E. unfold putFolderCommit in E.
  destruct (Prisma.folder_findFirst _ _);
    [inversion E; subst; exists h; assumption|].
  unfold Prisma.folder_update in E.
  destruct (Prisma.folder_findUnique (folders db) i);
    [|inversion E; subst; exists h; assumption].
  inversion E; subst. exists h'. now apply (folder_update_inv h).
Qed.

Lemma putFolder_inv fuel db u i name p res db' :
  Inv db -> putFolder fuel db u i name p = Some (res, db') -> Inv db'.
Proof.
  intros [h I] E. unfold putFolder in E.
  destruct (verifyFolderOwnership db u i) as [r|fi] eqn:Ev;
    [inversion E; subst; exists h; assumption|].
  destruct (verify_inr _ _ _ _ Ev) as [Efi [Hfi [Eid Eown]]].
  destruct (validName name) as [n|]; [|inversion E; subst; exists h; assumption].
  destruct (Js.length n >? 255); [inversion E; subst; exists h; assumption|].
  destruct p as [P|].
  - destruct (P =? i) eqn:EP; [inversion E; subst; exists h; assumption|].
    destruct (Prisma.folder_findUnique (folders db) P) as [g|] eqn:Eg;
      [|inversion E; subst; exists h; assumption].
    destruct (negb (Folder.ownerId g =? u)) eqn:Eo;
      [inversion E; subst; exists h; assumption|].
    apply owner_check in Eo. destruct (findUnique_Some _ _ _ Eg) as [Hg EgP].
    destruct (checkCircularReference fuel (folders db) (Some P) i)
      as [[|]|] eqn:Ec; [inversion E; subst; exists h; assumption| |discriminate].
    inversion E as [E']. clear E.
    assert (Hno : ~ chain (folders db) (Some P) i).
    { apply (check_false fuel); try exact Ec.
      - exact (inv_nodup h db I).
      - intros f Hf. pose proof (inv_seq h db I f Hf). lia.
      - exists fi. tauto. }
    apply (putFolderCommit_inv h db u i n (Some P) res db' I); try exact E'.
    + apply (rank_ok_move h db i n P I); eauto.
    + intros P' EP'. inversion EP'; subst P'. exists g.
      split; [assumption|]. split; [assumption|].
      intros f Hf Ef.
      assert (f = fi) by (apply (nodup_same_id (folders db)); auto;
                          [exact (inv_nodup h db I) | congruence]).
      subst f. congruence.
  - inversion E as [E']. clear E.
    apply (putFolderCommit_inv h db u i n None res db' I); try exact E'.
    + exists h. apply rank_ok_root. exact (inv_rank h db I).
    + intros P' EP'. discriminate.
Qed.

(* ================================================================== *)
(** * Recursive deletion *)
(* ================================================================== *)

Lemma flat_map_ext_in (A B : Type) (f g : A -> list B) (l : list A) :
  (forall a, In a l -> f a = g a) -> flat_map f l = flat_map g l.
Proof.
  induction l as [|a l IH]; simpl; intro H; [reflexivity|].
  rewrite (H a (or_introl eq_refl)). f_equal. apply IH.
  intros b Hb. apply H. now right.
Qed.

Lemma chain_child fs f x :
  In f fs -> Folder.parentId f = Some x -> chain fs (Some (Folder.id f)) x.
Proof.
  intros Hf Ep. apply (chain_up fs _ f x Hf eq_refl). rewrite Ep.
  apply chain_here.
Qed.

(** Chains survive the removal of folders when no kept folder has a
    removed ancestor. *)
Lemma chain_filter fs keep o t :
  (forall f g, In f fs -> In g fs -> keep f = true ->
               chain fs (Some (Folder.id f)) (Folder.id g) -> keep g = true) ->
  chain fs o t ->
  forall y, o = Some y ->
    (forall f, In f fs -> Folder.id f = y -> keep f = true) ->
    chain (filter keep fs) o t.
Proof.
  intros K H. induction H as [x | x f t Hf E H IH]; intros y Ey Ky.
  - apply chain_here.
  - inversion Ey; subst y. clear Ey.
    assert (Kf : keep f = true) by now apply Ky.
    apply (chain_up _ x f t); [apply filter_In; tauto | assumption |].
    destruct (chain_some _ _ _ H) as [p Ep].
    apply (IH p Ep). intros g Hg Eg.
    apply (K f g Hf Hg Kf). rewrite Eg. now apply chain_child.
Qed.

Lemma postorder_filter k fs keep :
  forall x,
    (forall f, In f fs -> chain fs (Some (Folder.id f)) x -> keep f = true) ->
    postorder k (filter keep fs) x = postorder k fs x.
Proof.
  induction k as [|k IH]; intros x Hk; simpl; [reflexivity|].
  assert (Ed : directChildren (filter keep fs) x = directChildren fs x).
  { unfold directChildren. rewrite filter_filter_andb. apply filter_ext_in.
    intros f Hf.
    destruct (optZ_eqb (Folder.parentId f) (Some x)) eqn:E.
    - rewrite andb_true_r. apply Hk; [assumption|].
      apply chain_child; [assumption | now apply optZ_eqb_eq].
    - apply andb_false_r. }
  rewrite Ed. f_equal. apply flat_map_ext_in. intros c Hc.
  apply in_map_iff in Hc. destruct Hc as [fc [<- Hfc]].
  unfold directChildren in Hfc. apply filter_In in Hfc.
  destruct Hfc as [Hfc Ep]. apply optZ_eqb_eq in Ep.
  apply IH. intros f Hf Hch. apply Hk; [assumption|].
  apply (chain_trans _ _ _ _ Hch). now apply chain_child.
Qed.

Lemma cascade_files_id h db :
  InvH h db -> Prisma.cascade_files (folders db) (files db) = files db.
Proof.
  intro I. unfold Prisma.cascade_files. apply filter_all. intros x Hx.
  destruct (File.folderId x) as [d|] eqn:Ed; [|reflexivity].
  apply present_iff. destruct (inv_files h db I x d Hx Ed) as [g [H1 [H2 _]]].
  eauto.
Qed.

Lemma cascade_links_id h db :
  InvH h db -> Prisma.cascade_links (folders db) (shareLinks db) = shareLinks db.
Proof.
  intro I. unfold Prisma.cascade_links. apply filter_all. intros x Hx.
  apply present_iff. exact (inv_links h db I x Hx).
Qed.

Lemma run_post_intro h db gone tr r keep :
  run_error r = None ->
  InvH h (run_db r) ->
  folders (run_db r) = filter keep (folders db) ->
  (forall f, In f (folders db) -> (keep f = false <-> gone (Folder.id f))) ->
  files (run_db r) = Prisma.cascade_files (folders (run_db r)) (files db) ->
  shareLinks (run_db r)
    = Prisma.cascade_links (folders (run_db r)) (shareLinks db) ->
  folderSeq (run_db r) = folderSeq db ->
  fileSeq (run_db r) = fileSeq db ->
  shareSeq (run_db r) = shareSeq db ->
  run_deleted r = tr ->
  run_post h db gone tr r.
Proof.
  intros. unfold run_post. repeat (split; [assumption|]).
  split; [exists keep; split; assumption|].
  repeat (split; [assumption|]). assumption.
Qed.

Section DeleteRecursively.
Variable h : Z -> nat.
Variable o : Z.

Lemma siblings_apart db x f f' :
  InvH h db -> In f (folders db) -> In f' (folders db) ->
  Folder.parentId f = Some x -> Folder.parentId f' = Some x ->
  Folder.id f <> Folder.id f' ->
  ~ chain (folders db) (Some (Folder.id f')) (Folder.id f).
Proof.
  intros I Hf Hf' Ep Ep' Ne Hc.
  inversion Hc as [y | y g t Hg Eg Hc']; subst.
  - now apply Ne.
  - assert (g = f') by (apply (nodup_same_id (folders db)); auto;
                        exact (inv_nodup h db I)).
    subst g. rewrite Ep' in Hc'.
    pose proof (chain_rank h _ _ _ (inv_rank h db I) Hc' x eq_refl).
    pose proof (inv_rank h db I f x Hf Ep). lia.
Qed.

Lemma forEach_ok k x :
  del_ok h o k -> (h x <= k)%nat ->
  forall cs db,
    InvH h db -> NoDup cs ->
    (forall c, In c cs ->
       exists f, In f (folders db) /\ Folder.id f = c
                 /\ Folder.ownerId f = o /\ Folder.parentId f = Some x) ->
    exists r,
      forEach (fun d c => deleteFolderRecursively k d c o) cs db = Some r
      /\ run_post h db
           (fun y => exists c, In c cs /\ chain (folders db) (Some y) c)
           (flat_map (postorder k (folders db)) cs) r.
Proof.
  intros IHk Hx. induction cs as [|c rest IH]; intros db I ND Hcs.
  - exists (mkRun db [] None). split; [reflexivity|].
    apply (run_post_intro h db _ _ _ (fun _ => true)); simpl;
      try reflexivity; try assumption.
    + symmetry. now apply filter_all.
    + intros f Hf. split; [discriminate | intros [c [[] _]]].
    + symmetry. apply (cascade_files_id h db I).
    + symmetry. apply (cascade_links_id h db I).
  - inversion ND as [|? ? Hnc ND']; subst.
    destruct (Hcs c (or_introl eq_refl)) as [fc [Hfc [Efc [Ofc Pfc]]]].
    assert (Hlt : (h c < k)%nat).
    { pose proof (inv_rank h db I fc x Hfc Pfc). subst c. lia. }
    destruct (IHk db c I (ex_intro _ fc (conj Hfc (conj Efc Ofc))) Hlt)
      as [r1 [E1 P1]].
    destruct P1 as [Err1 [I1 [[keep1 [Ek1 Hk1]] [Fl1 [Lk1 [S1 [S2 [S3 T1]]]]]]]].
    assert (Kept : forall c', In c' rest ->
              exists f, In f (folders (run_db r1)) /\ Folder.id f = c'
                        /\ Folder.ownerId f = o /\ Folder.parentId f = Some x).
    { intros c' Hc'. destruct (Hcs c' (or_intror Hc')) as [f' [Hf' [Ef' [Of' Pf']]]].
      exists f'. split; [|tauto]. rewrite Ek1. apply filter_In.
      split; [assumption|].
      destruct (keep1 f') eqn:Ek; [reflexivity|]. exfalso.
      apply (Hk1 f' Hf') in Ek.
      apply (siblings_apart db x fc f' I Hfc Hf' Pfc Pf'); [|congruence].
      intro Eq. apply Hnc. congruence. }
    destruct (IH (run_db r1) I1 ND' Kept) as [r2 [E2 P2]].
    destruct P2 as [Err2 [I2 [[keep2 [Ek2 Hk2]] [Fl2 [Lk2 [S1' [S2' [S3' T2]]]]]]]].
    simpl. rewrite E1, Err1, E2.
    eexists. split; [reflexivity|].
    assert (Closed : forall f g, In f (folders db) -> In g (folders db) ->
              keep1 f = true ->
              chain (folders db) (Some (Folder.id f)) (Folder.id g) ->
              keep1 g = true).
    { intros f g Hf Hg Kf Hch. destruct (keep1 g) eqn:Kg; [reflexivity|].
      apply (Hk1 g Hg) in Kg.
      assert (keep1 f = false); [|congruence].
      apply (Hk1 f Hf). now apply (chain_trans _ _ _ _ Hch). }
    apply (run_post_intro h db _ _ _ (fun f => keep1 f && keep2 f)); simpl;
      try assumption; try congruence.
    + rewrite Ek2, Ek1. apply filter_filter_andb.
    + intros f Hf. split.
      * intro Hk. destruct (keep1 f) eqn:Kf.
        -- simpl in Hk.
           assert (Hf1 : In f (folders (run_db r1)))
             by (rewrite Ek1; apply filter_In; tauto).
           apply (Hk2 f Hf1) in Hk. destruct Hk as [c' [Hc' Hch]].
           exists c'. split; [now right|].
           apply (chain_incl (folders db) (folders (run_db r1)));
             [|assumption].
           intros g Hg. rewrite Ek1 in Hg. apply filter_In in Hg. tauto.
        -- exists c. split; [now left|]. now apply (Hk1 f Hf).
      * intros [c' [[<-|Hc'] Hch]].
        -- apply (Hk1 f Hf) in Hch. now rewrite Hch.
        -- destruct (keep1 f) eqn:Kf; [|reflexivity]. simpl.
           assert (Hf1 : In f (folders (run_db r1)))
             by (rewrite Ek1; apply filter_In; tauto).
           apply (Hk2 f Hf1). exists c'. split; [assumption|].
           rewrite Ek1.
           apply (chain_filter (folders db) keep1 _ _ Closed Hch
                    (Folder.id f) eq_refl).
           intros g Hg Eg.
           assert (g = f) by (apply (nodup_same_id (folders db)); auto;
                              exact (inv_nodup h db I)).
           now subst g.
    + rewrite Fl2, Fl1. apply cascade_files_twice.
      intros f Hf. rewrite Ek2 in Hf. apply filter_In in Hf. tauto.
    + rewrite Lk2, Lk1. apply cascade_links_twice.
      intros f Hf. rewrite Ek2 in Hf. apply filter_In in Hf. tauto.
    + rewrite T1, T2. f_equal. apply flat_map_ext_in.
      intros c' Hc'. rewrite Ek1. apply postorder_filter.
      intros f Hf Hch. destruct (keep1 f) eqn:Kf; [reflexivity|]. exfalso.
      apply (Hk1 f Hf) in Kf.
      destruct (Hcs c' (or_intror Hc')) as [f' [Hf' [Ef' [Of' Pf']]]].
      assert (Ne : Folder.id fc <> Folder.id f').
      { intro Eq. apply Hnc. congruence. }
      destruct (chain_fork _ _ _ _ (inv_nodup h db I) Hch Kf) as [Hx1|Hx1].
      * apply (siblings_apart db x fc f' I Hfc Hf' Pfc Pf' Ne). congruence.
      * apply (siblings_apart db x f' fc I Hf' Hfc Pf' Pfc);
          [congruence | congruence].
Qed.
End DeleteRecursively.

Lemma children_same_owner h db x fx :
  InvH h db -> In fx (folders db) -> Folder.id fx = x ->
  filter (childOf x (Folder.ownerId fx)) (folders db)
  = directChildren (folders db) x.
Proof.
  intros I Hfx Efx. unfold directChildren. apply filter_ext_in.
  intros f Hf. unfold childOf.
  destruct (optZ_eqb (Folder.parentId f) (Some x)) eqn:E; [|reflexivity].
  simpl. apply optZ_eqb_eq in E.
  destruct (inv_parent h db I f x Hf E) as [g [Hg [Eg Og]]].
  assert (g = fx) by (apply (nodup_same_id (folders db)); auto;
                      [exact (inv_nodup h db I) | congruence]).
  subst g. apply Z.eqb_eq. congruence.
Qed.

Lemma deleteFolderRecursively_ok h o : forall k, del_ok h o k.
Proof.
  induction k as [|k IHk]; intros db x I [fx [Hfx [Efx Ofx]]] Hlt; [lia|].
  simpl. unfold Prisma.folder_findMany.
  pose proof (children_same_owner h db x fx I Hfx Efx) as Ech.
  rewrite Ofx in Ech. rewrite Ech.
  set (cs := map Folder.id (directChildren (folders db) x)).
  assert (Hcs : forall c, In c cs ->
            exists f, In f (folders db) /\ Folder.id f = c
                      /\ Folder.ownerId f = o /\ Folder.parentId f = Some x).
  { intros c Hc. apply in_map_iff in Hc. destruct Hc as [f [Ef Hf]].
    rewrite <- Ech in Hf. apply filter_In in Hf. destruct Hf as [Hf Cf].
    unfold childOf in Cf. apply andb_true_iff in Cf. destruct Cf as [C1 C2].
    exists f. apply optZ_eqb_eq in C1. apply Z.eqb_eq in C2. tauto. }
  assert (NDcs : NoDup cs).
  { apply nodup_map_filter. exact (inv_nodup h db I). }
  destruct (forEach_ok h o k x IHk ltac:(lia) cs db I NDcs Hcs) as [r1 [E1 P1]].
  destruct P1 as [Err1 [I1 [[keep1 [Ek1 Hk1]] [Fl1 [Lk1 [S1 [S2 [S3 T1]]]]]]]].
  rewrite E1, Err1.
  assert (Kx : keep1 fx = true).
  { destruct (keep1 fx) eqn:K; [reflexivity|]. exfalso.
    apply (Hk1 fx Hfx) in K. destruct K as [c [Hc Hch]].
    destruct (Hcs c Hc) as [f [Hf [Ef [Of Pf]]]].
    pose proof (chain_rank h _ _ _ (inv_rank h db I) Hch _ eq_refl).
    pose proof (inv_rank h db I f x Hf Pf). subst. lia. }
  assert (Hfx1 : In fx (folders (run_db r1)))
    by (rewrite Ek1; apply filter_In; tauto).
  assert (Efind : Prisma.folder_findUnique (folders (run_db r1)) x = Some fx).
  { rewrite <- Efx. apply findUnique_In; [exact (inv_nodup h _ I1) | assumption]. }
  assert (Childless : forall f, In f (folders (run_db r1)) ->
                                Folder.parentId f <> Some x).
  { intros f Hf Pf. rewrite Ek1 in Hf. apply filter_In in Hf.
    destruct Hf as [Hf Kf].
    assert (keep1 f = false); [|congruence].
    apply (Hk1 f Hf). exists (Folder.id f). split; [|apply chain_here].
    unfold cs. apply in_map. unfold directChildren. apply filter_In.
    split; [assumption | now apply optZ_eqb_eq]. }
  destruct (folder_delete_childless h (run_db r1) x fx I1 Efind Childless)
    as [Edel I2].
  rewrite Edel. eexists. split; [reflexivity|].
  apply (run_post_intro h db _ _ _
           (fun f => keep1 f && negb (Folder.id f =? x))); simpl;
    try assumption; try reflexivity.
  - rewrite Ek1. apply filter_filter_andb.
  - intros f Hf. split.
    + intro K. destruct (keep1 f) eqn:Kf.
      * simpl in K. apply negb_false_iff in K. apply Z.eqb_eq in K.
        rewrite K. apply chain_here.
      * apply (Hk1 f Hf) in Kf. destruct Kf as [c [Hc Hch]].
        destruct (Hcs c Hc) as [g [Hg [Eg [Og Pg]]]].
        apply (chain_trans _ _ _ _ Hch). rewrite <- Eg.
        now apply chain_child.
    + intro Hch. destruct (Z.eqb_spec (Folder.id f) x) as [Ex|Nx].
      * apply andb_false_r.
      * destruct (chain_last _ _ _ Hch (Folder.id f) eq_refl Nx)
          as [c [Hc [Pc Cc]]].
        assert (keep1 f = false) as ->; [|reflexivity].
        apply (Hk1 f Hf). exists (Folder.id c). split; [|assumption].
        unfold cs. apply in_map. unfold directChildren. apply filter_In.
        split; [assumption | now apply optZ_eqb_eq].
  - rewrite Fl1. apply cascade_files_twice.
    intros f Hf. apply filter_In in Hf. tauto.
  - rewrite Lk1. apply cascade_links_twice.
    intros f Hf. apply filter_In in Hf. tauto.
  - now rewrite T1.
Qed.

(** More fuel does not change the result of a run. *)
Lemma forEach_mono (b1 b2 : Db -> Z -> option Run) :
  (forall d c r, b1 d c = Some r -> b2 d c = Some r) ->
  forall cs db r, forEach b1 cs db = Some r -> forEach b2 cs db = Some r.
Proof.
  intros Hb. induction cs as [|c rest IH]; intros db r E; simpl in *;
    [assumption|].
  destruct (b1 db c) as [r1|] eqn:E1; [|discriminate].
  rewrite (Hb _ _ _ E1).
  destruct (run_error r1); [assumption|].
  destruct (forEach b1 rest (run_db r1)) as [r2|] eqn:E2; [|discriminate].
  now rewrite (IH _ _ E2).
Qed.

Lemma deleteFolderRecursively_S k :
  forall db x o r,
    deleteFolderRecursively k db x o = Some r ->
    deleteFolderRecursively (S k) db x o = Some r.
Proof.
  induction k as [|k IH]; intros db x o r E; [discriminate|].
  simpl in E.
  destruct (forEach _ _ db) as [r1|] eqn:E1 in E; [|discriminate].
  change (deleteFolderRecursively (S (S k)) db x o)
    with (match forEach (fun d c => deleteFolderRecursively (S k) d c o)
                  (map Folder.id
                     (Prisma.folder_findMany (folders db) (childOf x o))) db with
          | None => None
          | Some r =>
              match run_error r with
              | Some _ => Some r
              | None =>
                  match Prisma.folder_delete (run_db r) x with
                  | Threw e => Some (mkRun (run_db r) (run_deleted r) (Some e))
                  | Ok db' => Some (mkRun db' (run_deleted r ++ [x]) None)
                  end
              end
          end).
  rewrite (forEach_mono _ (fun d c => deleteFolderRecursively (S k) d c o)
             (fun d c r0 => IH d c o r0) _ _ _ E1).
  assumption.
Qed.

Lemma deleteFolderRecursively_mono k k' db x o r :
  (k <= k')%nat ->
  deleteFolderRecursively k db x o = Some r ->
  deleteFolderRecursively k' db x o = Some r.
Proof.
  intros Hle E. induction Hle as [|k' Hle IH]; [assumption|].
  now apply deleteFolderRecursively_S.
Qed.

Lemma count_zero (A : Type) (w : A -> bool) (l : list A) :
  (Z.of_nat (List.length (filter w l)) >? 0) = false -> filter w l = [].
Proof.
  intro H. destruct (filter w l); [reflexivity|].
  simpl in H. rewrite Zpos_P_of_succ_nat in H.
  destruct (Z.gtb_spec (Z.succ (Z.of_nat (List.length l0))) 0); [discriminate|lia].
Qed.

Lemma count_zero_len (A : Type) (l : list A) :
  (Z.of_nat (List.length l) >? 0) = false -> Z.of_nat (List.length l) = 0.
Proof.
  intro H. destruct (Z.gtb_spec (Z.of_nat (List.length l)) 0); [discriminate|lia].
Qed.

Lemma no_children h db u i fi :
  InvH h db -> verifyFolderOwnership db u i = inr fi ->
  (Prisma.folder_count (folders db) (childOf i u) >? 0) = false ->
  forall f, In f (folders db) -> Folder.parentId f <> Some i.
Proof.
  intros I Ev Hc f Hf Pf.
  destruct (verify_inr _ _ _ _ Ev) as [Efi [Hfi [Eid Eown]]].
  apply count_zero in Hc.
  pose proof (children_same_owner h db i fi I Hfi Eid) as Ech.
  rewrite Eown, Hc in Ech.
  assert (In f (directChildren (folders db) i)).
  { unfold directChildren. apply filter_In. split; [assumption|].
    now apply optZ_eqb_eq. }
  rewrite <- Ech in H. contradiction.
Qed.

Lemma deleteFolder_inv fuel db u i force res db' :
  Inv db -> deleteFolder fuel db u i force = Some (res, db') -> Inv db'.
Proof.
  intros [h I] E. exists h. unfold deleteFolder in E.
  destruct (verifyFolderOwnership db u i) as [r|fi] eqn:Ev;
    [inversion E; subst; assumption|].
  destruct (verify_inr _ _ _ _ Ev) as [Efi [Hfi [Eid Eown]]].
  destruct force.
  - rewrite andb_false_r in E.
    destruct (deleteFolderRecursively fuel db i u) as [r|] eqn:Er;
      [|discriminate].
    apply (deleteFolderRecursively_mono fuel (Nat.max fuel (S (h i)))) in Er;
      [|lia].
    destruct (deleteFolderRecursively_ok h u (Nat.max fuel (S (h i))) db i I)
      as [r' [Er' P]]; [eauto | lia |].
    rewrite Er in Er'. inversion Er'; subst r'. clear Er'.
    destruct P as [Err [I' _]].
    rewrite Err in E. inversion E; subst. assumption.
  - rewrite andb_true_r in E.
    destruct (Prisma.folder_count (folders db) (childOf i u) >? 0) eqn:Ec;
      [simpl in E; inversion E; subst; assumption|].
    destruct (Prisma.file_count (files db) (fileIn i u) >? 0) eqn:Ef;
      [simpl in E; inversion E; subst; assumption|].
    simpl in E.
    destruct (folder_delete_childless h db i fi I Efi
                (no_children h db u i fi I Ev Ec)) as [Ed I'].
    rewrite Ed in E. inversion E; subst. assumption.
Qed.

(** Every reachable database satisfies the invariant. *)
Lemma reachable_inv db : reachable db -> Inv db.
Proof.
  induction 1 as [|db fuel req res db' Hr IH E].
  - exists (fun _ => O). apply emptyDb_inv.
  - destruct req; simpl in E.
    + inversion E. eapply postFolder_inv; eauto.
    + eapply putFolder_inv; eauto.
    + eapply deleteFolder_inv; eauto.
    + destruct (uploadFiles db userId folderId batch) as [[r d] x] eqn:Eu.
      inversion E; subst. eapply uploadFiles_inv; eauto.
    + inversion E. eapply putFile_inv; eauto.
    + destruct (deleteFile db userId fileId) as [[r d] x] eqn:Eu.
      inversion E; subst. eapply deleteFile_inv; eauto.
    + inversion E. eapply postShare_inv; eauto.
    + inversion E. eapply deleteShare_inv; eauto.
Qed.

(* ================================================================== *)
(** * The folder tree *)
(* ================================================================== *)

Lemma chain_owner h db o t :
  InvH h db -> chain (folders db) o t ->
  forall f g, In f (folders db) -> o = Some (Folder.id f) ->
              In g (folders db) -> Folder.id g = t ->
              Folder.ownerId f = Folder.ownerId g.
Proof.
  intros I H. induction H as [x | x f' t Hf' E H IH]; intros f g Hf Ef Hg Eg.
  - inversion Ef. f_equal.
    apply (nodup_same_id (folders db)); auto; [exact (inv_nodup h db I)|congruence].
  - inversion Ef.
    assert (f' = f) by (apply (nodup_same_id (folders db)); auto;
                        [exact (inv_nodup h db I) | congruence]).
    subst f'. destruct (chain_some _ _ _ H) as [p Ep].
    destruct (inv_parent h db I f p Hf Ep) as [g' [Hg' [Eg' Og']]].
    rewrite <- Og'. apply (IH g' g); auto. congruence.
Qed.

Lemma inv_fuel h db :
  InvH h db ->
  exists M, forall n o t, (M + 1 < n)%nat ->
    exists b, checkCircularReference n (folders db) o t = Some b.
Proof.
  intro I. destruct (rank_bound h (folders db)) as [M HM]. exists M.
  intros n o t Hn.
  exact (check_total h (folders db) M (inv_rank h db I) HM n o t Hn).
Qed.

(** C1.  In every database the server can reach, from every folder the
    walk along [parentId] arrives at a null parent after finitely many
    steps, and no folder is a descendant of itself: no sequence of
    creations, renames, moves and deletions builds a cycle. *)
Theorem C1_parent_chain_terminates db f :
  reachable db -> In f (folders db) ->
  (exists fuel n, stepsToRoot fuel (folders db) (Some (Folder.id f)) = Some n)
  /\ ~ descendant (folders db) (Folder.id f) (Folder.id f).
Proof.
  intros Hr Hf. destruct (reachable_inv db Hr) as [h I]. split.
  - destruct (rank_bound h (folders db)) as [M HM].
    assert (PAR : forall g p, In g (folders db) -> Folder.parentId g = Some p ->
                              exists g', In g' (folders db) /\ Folder.id g' = p).
    { intros g p Hg Ep. destruct (inv_parent h db I g p Hg Ep) as [g' [H1 [H2 _]]].
      eauto. }
    destruct (stepsToRoot_total_aux h (folders db) M (inv_nodup h db I)
                (inv_rank h db I) HM PAR (S (S M)) (Some (Folder.id f)))
      as [n Hn]; [lia | | eauto].
    right. exists f. repeat split; auto. specialize (HM f Hf). lia.
  - intro Hd. pose proof (descendant_rank h _ _ _ (inv_rank h db I) Hd). lia.
Qed.

Lemma C1_witness :
  reachable exDb2 /\ In (Folder.mk 2 (Js.lit "2024") 1 (Some 1)) (folders exDb2)
  /\ (exists fuel n, stepsToRoot fuel (folders exDb2) (Some 2) = Some n)
  /\ ~ descendant (folders exDb2) 2 2.
Proof.
  assert (R : reachable exDb2).
  { apply (reach_step exDb1 O (PostFolder 1 (Some (Js.lit "2024")) (Some 1))
             (fst (postFolder exDb1 1 (Some (Js.lit "2024")) (Some 1))));
      [|reflexivity].
    apply (reach_step emptyDb O (PostFolder 1 (Some (Js.lit "Docs")) None)
             (fst (postFolder emptyDb 1 (Some (Js.lit "Docs")) None)));
      [apply reach_empty | reflexivity]. }
  assert (H : In (Folder.mk 2 (Js.lit "2024") 1 (Some 1)) (folders exDb2)).
  { simpl. right. left. reflexivity. }
  split; [exact R|]. split; [exact H|].
  exact (C1_parent_chain_terminates exDb2 _ R H).
Defined.

(** C4 (amended).  Moving a folder F under one of its descendants D is
    always refused with status 400, and the database, hence the name
    and parent of every folder, is the one before the call.  The error
    is the circular-reference one when the request carries a name that
    is not empty after trimming and has at most 255 code units; the
    handler checks the name first, so without such a name the error is
    the one about the name. *)
Theorem C4_move_into_descendant db u F D name fi :
  reachable db ->
  verifyFolderOwnership db u F = inr fi ->
  descendant (folders db) D F ->
  exists fuel0, forall fuel, (fuel0 <= fuel)%nat ->
    exists message,
      putFolder fuel db u F name (Some D)
      = Some (json 400 (BMessage message), db)
      /\ match validName name with
         | None => message = "Folder name is required"
         | Some n =>
             if Js.length n >? 255
             then message = "Folder name must be less than 255 characters"
             else message
                  = "Cannot move folder: This would create a circular reference"
         end.
Proof.
  intros Hr Ev Hd. destruct (reachable_inv db Hr) as [h I].
  destruct (verify_inr _ _ _ _ Ev) as [Efi [Hfi [Eid Eown]]].
  destruct (inv_fuel h db I) as [M HM]. exists (S (S M)). intros fuel Hfuel.
  pose proof (descendant_rank h _ _ _ (inv_rank h db I) Hd) as Hlt.
  destruct Hd as [d [Hd [Ed Hch]]].
  unfold putFolder. rewrite Ev.
  destruct (validName name) as [n|];
    [|eexists; split; reflexivity].
  destruct (Js.length n >? 255);
    [eexists; split; reflexivity|].
  exists "Cannot move folder: This would create a circular reference".
  split; [|reflexivity].
  destruct (Z.eqb_spec D F) as [->|Ne]; [lia|].
  rewrite <- Ed. rewrite (findUnique_In _ d (inv_nodup h db I) Hd).
  assert (Od : Folder.ownerId d = u).
  { destruct (chain_some _ _ _ Hch) as [p Ep].
    destruct (inv_parent h db I d p Hd Ep) as [g [Hg [Eg Og]]].
    rewrite <- Og, <- Eown.
    apply (chain_owner h db _ _ I Hch g fi); auto. congruence. }
  rewrite Od, Z.eqb_refl. simpl.
  destruct (HM fuel (Some (Folder.id d)) F) as [b Hb]; [lia|].
  rewrite Hb. destruct b; [reflexivity|]. exfalso.
  apply (check_false fuel (folders db) (Some (Folder.id d)) F); try exact Hb.
  - exact (inv_nodup h db I).
  - intros f Hf. pose proof (inv_seq h db I f Hf). lia.
  - exists fi. tauto.
  - apply (chain_up _ _ d F Hd eq_refl Hch).
Qed.

Lemma C4_witness :
  exists fuel0, forall fuel, (fuel0 <= fuel)%nat ->
    putFolder fuel exDb2 1 1 (Some (Js.lit "Docs")) (Some 2)
    = Some (json 400 (BMessage
              "Cannot move folder: This would create a circular reference"),
            exDb2).
Proof.
  destruct (C4_move_into_descendant exDb2 1 1 2 (Some (Js.lit "Docs"))
              (Folder.mk 1 (Js.lit "Docs") 1 None)) as [fuel0 H].
  - apply (reach_step exDb1 O (PostFolder 1 (Some (Js.lit "2024")) (Some 1))
             (fst (postFolder exDb1 1 (Some (Js.lit "2024")) (Some 1))));
      [|reflexivity].
    apply (reach_step emptyDb O (PostFolder 1 (Some (Js.lit "Docs")) None)
             (fst (postFolder emptyDb 1 (Some (Js.lit "Docs")) None)));
      [apply reach_empty | reflexivity].
  - reflexivity.
  - exists (Folder.mk 2 (Js.lit "2024") 1 (Some 1)).
    split; [simpl; right; left; reflexivity|]. split; [reflexivity|].
    apply chain_here.
  - exists fuel0. intros fuel Hfuel.
    destruct (H fuel Hfuel) as [message [E Hm]].
    change (message
            = "Cannot move folder: This would create a circular reference")
      in Hm.
    rewrite <- Hm. exact E.
Defined.

(** C4 as stated fails for a move that carries no name, which is the
    request the client sends to move a folder: moving "Docs" under its
    child "2024" is refused, and nothing changes, but the error is the
    one about the name, not the circular-reference one. *)
Lemma C4_counterexample :
  descendant (folders exDb2) 2 1
  /\ (forall fuel,
        putFolder fuel exDb2 1 1 None (Some 2)
        = Some (json 400 (BMessage "Folder name is required"), exDb2))
  /\ (forall fuel,
        putFolder fuel exDb2 1 1 None (Some 2)
        <> Some (json 400 (BMessage
                   "Cannot move folder: This would create a circular reference"),
                 exDb2)).
Proof.
  split.
  - exists (Folder.mk 2 (Js.lit "2024") 1 (Some 1)).
    split; [simpl; right; left; reflexivity|]. split; [reflexivity|].
    apply chain_here.
  - split; intro fuel.
    + reflexivity.
    + change (putFolder fuel exDb2 1 1 None (Some 2))
        with (Some (json 400 (BMessage "Folder name is required"), exDb2)).
      discriminate.
Qed.

(* ================================================================== *)
(** * Deleting folders *)
(* ================================================================== *)

Lemma files_same_owner h db x fx :
  InvH h db -> In fx (folders db) -> Folder.id fx = x ->
  filter (fileIn x (Folder.ownerId fx)) (files db) = directFiles (files db) x.
Proof.
  intros I Hfx Efx. unfold directFiles. apply filter_ext_in.
  intros y Hy. unfold fileIn.
  destruct (optZ_eqb (File.folderId y) (Some x)) eqn:E; [|reflexivity].
  simpl. apply optZ_eqb_eq in E.
  destruct (inv_files h db I y x Hy E) as [g [Hg [Eg Og]]].
  assert (g = fx) by (apply (nodup_same_id (folders db)); auto;
                      [exact (inv_nodup h db I) | congruence]).
  subst g. apply Z.eqb_eq. congruence.
Qed.

Lemma findUnique_absent fs i :
  (forall f, In f fs -> Folder.id f <> i) ->
  Prisma.folder_findUnique fs i = None.
Proof.
  intro H. destruct (Prisma.folder_findUnique fs i) as [f|] eqn:E;
    [|reflexivity].
  apply findUnique_Some in E. destruct E as [Hf Ef]. now elim (H f Hf).
Qed.

Lemma verify_absent db u i :
  (forall f, In f (folders db) -> Folder.id f <> i) ->
  verifyFolderOwnership db u i = inl (json 404 (BMessage "Folder not found")).
Proof.
  intro H. unfold verifyFolderOwnership. now rewrite (findUnique_absent _ _ H).
Qed.

Lemma gtb_length_pos (A : Type) (l : list A) :
  (Z.of_nat (List.length l) >? 0) = true <-> 0 < Z.of_nat (List.length l).
Proof.
  destruct (Z.gtb_spec (Z.of_nat (List.length l)) 0); split; intro;
    try lia; try discriminate; reflexivity.
Qed.

(** C6.  A non-recursive delete of a folder F of the caller is refused
    with the not-empty error exactly when F has a child folder or a
    file; the error carries the two counts and the database is
    unchanged.  It succeeds exactly when F has neither, and then F, and
    only F, is removed. *)
Theorem C6_delete_non_recursive db u F fi fuel :
  reachable db ->
  verifyFolderOwnership db u F = inr fi ->
  let cc := Z.of_nat (List.length (directChildren (folders db) F)) in
  let fc := Z.of_nat (List.length (directFiles (files db) F)) in
  exists res db',
    deleteFolder fuel db u F false = Some (res, db')
    /\ (status res = 400 <-> 0 < cc \/ 0 < fc)
    /\ (status res = 200 <-> cc = 0 /\ fc = 0)
    /\ (0 < cc \/ 0 < fc ->
        res = json 400 (BNotEmpty
                "Cannot delete folder: Folder contains subfolders or files. Use force=true to delete recursively."
                (cc >? 0) (fc >? 0) cc fc)
        /\ db' = db)
    /\ (cc = 0 /\ fc = 0 ->
        res = json 200 (BDeleted "Folder deleted successfully" false)
        /\ (forall g, In g (folders db') <->
                      In g (folders db) /\ Folder.id g <> F)
        /\ files db' = files db
        /\ verifyFolderOwnership db' u F
           = inl (json 404 (BMessage "Folder not found"))).
Proof.
  intros Hr Ev cc fc. destruct (reachable_inv db Hr) as [h I].
  destruct (verify_inr _ _ _ _ Ev) as [Efi [Hfi [Eid Eown]]].
  unfold deleteFolder. rewrite Ev. rewrite andb_true_r.
  unfold Prisma.folder_count, Prisma.file_count.
  pose proof (children_same_owner h db F fi I Hfi Eid) as Ech.
  pose proof (files_same_owner h db F fi I Hfi Eid) as Efl.
  rewrite Eown in Ech, Efl. rewrite Ech, Efl. fold cc fc.
  destruct (cc >? 0) eqn:Ec.
  - assert (0 < cc) by now apply gtb_length_pos.
    simpl. eexists. eexists. split; [reflexivity|]. simpl.
    repeat split; intros; try lia; try reflexivity; auto.
  - destruct (fc >? 0) eqn:Ef.
    + assert (0 < fc) by now apply gtb_length_pos.
      simpl. eexists. eexists. split; [reflexivity|]. simpl.
      repeat split; intros; try lia; try reflexivity; auto.
    + assert (Hc0 : cc = 0).
      { unfold cc. unfold cc in Ec. apply count_zero_len in Ec. lia. }
      assert (Hf0 : fc = 0).
      { unfold fc. unfold fc in Ef. apply count_zero_len in Ef. lia. }
      simpl.
      assert (NoCh : forall f, In f (folders db) -> Folder.parentId f <> Some F).
      { apply (no_children h db u F fi I Ev).
        unfold Prisma.folder_count. now rewrite Ech. }
      destruct (folder_delete_childless h db F fi I Efi NoCh) as [Ed I'].
      rewrite Ed. eexists. eexists. split; [reflexivity|]. simpl.
      split; [split; [discriminate | lia]|].
      split; [split; [auto | reflexivity]|].
      split; [lia|]. intros _. split; [reflexivity|].
      split; [|split].
      * intro g. rewrite filter_In. rewrite negb_true_iff, Z.eqb_neq. tauto.
      * unfold Prisma.cascade_files. apply filter_all. intros y Hy.
        destruct (File.folderId y) as [d|] eqn:Ed'; [|reflexivity].
        apply present_iff.
        destruct (inv_files h db I y d Hy Ed') as [g [Hg [Eg _]]].
        exists g. split; [|assumption]. apply filter_In. split; [assumption|].
        apply negb_true_iff. apply Z.eqb_neq. intro EF.
        assert (In y (directFiles (files db) F)).
        { unfold directFiles. apply filter_In. split; [assumption|].
          apply optZ_eqb_eq. congruence. }
        unfold fc in Hf0. destruct (directFiles (files db) F); [contradiction|].
        simpl in Hf0. lia.
      * apply verify_absent. simpl. intros f Hf. apply filter_In in Hf.
        destruct Hf as [_ Hf]. apply negb_true_iff in Hf. now apply Z.eqb_neq.
Qed.

Lemma Forall2_map_self (A B : Type) (R : A -> B -> Prop) (f : A -> B) (l : list A) :
  (forall a, In a l -> R a (f a)) -> Forall2 R l (map f l).
Proof.
  induction l as [|a l IH]; simpl; intro H; constructor.
  - apply H. now left.
  - apply IH. intros b Hb. apply H. now right.
Qed.

Lemma postorder_Postorder h fs :
  rank_ok h fs ->
  forall k x, (h x < k)%nat -> Postorder fs x (postorder k fs x).
Proof.
  intro R. induction k as [|k IH]; intros x Hx; [lia|].
  simpl. rewrite flat_map_concat_map. apply Postorder_node.
  apply Forall2_map_self. intros c Hc.
  apply in_map_iff in Hc. destruct Hc as [f [<- Hf]].
  unfold directChildren in Hf. apply filter_In in Hf. destruct Hf as [Hf Ep].
  apply optZ_eqb_eq in Ep. apply IH. specialize (R f x Hf Ep). lia.
Qed.

Lemma file_findUnique_absent l i :
  (forall x, In x l -> File.id x <> i) -> Prisma.file_findUnique l i = None.
Proof.
  intro H. destruct (Prisma.file_findUnique l i) as [x|] eqn:E; [|reflexivity].
  apply file_findUnique_Some in E. destruct E as [Hx Ex]. now elim (H x Hx).
Qed.

(** C5.  A recursive delete of a folder F of the caller runs to the end
    without exception.  The calls of [prisma.folder.delete] come in
    depth-first order: the whole subtree of a child before the next
    child, every child before its parent, F last.  Afterwards the
    folders left are those outside the subtree of F, the files left
    are those whose folder is outside it, and every request for a
    removed folder or file is answered 404. *)
Theorem C5_delete_recursive db u F fi :
  reachable db ->
  verifyFolderOwnership db u F = inr fi ->
  exists fuel0, forall fuel, (fuel0 <= fuel)%nat ->
    exists r,
      deleteFolderRecursively fuel db F u = Some r
      /\ run_error r = None
      /\ deleteFolder fuel db u F true
         = Some (json 200 (BDeletedRec
                   "Folder and all its contents deleted successfully" true
                   (Z.of_nat (List.length (directChildren (folders db) F)))
                   (Z.of_nat (List.length (directFiles (files db) F)))),
                 run_db r)
      /\ Postorder (folders db) F (run_deleted r)
      /\ (forall g, In g (folders (run_db r)) <->
                    In g (folders db)
                    /\ ~ chain (folders db) (Some (Folder.id g)) F)
      /\ (forall x, In x (files (run_db r)) <->
                    In x (files db)
                    /\ ~ chain (folders db) (File.folderId x) F)
      /\ (forall g v, In g (folders db) ->
            chain (folders db) (Some (Folder.id g)) F ->
            verifyFolderOwnership (run_db r) v (Folder.id g)
            = inl (json 404 (BMessage "Folder not found")))
      /\ (forall x v, In x (files db) ->
            chain (folders db) (File.folderId x) F ->
            verifyFileOwnership (run_db r) v (File.id x)
            = inl (json 404 (BMessage "File not found"))).
Proof.
  intros Hr Ev. destruct (reachable_inv db Hr) as [h I].
  destruct (verify_inr _ _ _ _ Ev) as [Efi [Hfi [Eid Eown]]].
  exists (S (h F)). intros fuel Hfuel.
  destruct (deleteFolderRecursively_ok h u fuel db F I) as [r [Er P]];
    [eauto | lia |].
  destruct P as [Err [I' [[keep [Ek Hk]] [Fl [Lk [S1 [S2 [S3 T]]]]]]]].
  assert (Hfolders : forall g, In g (folders (run_db r)) <->
            In g (folders db) /\ ~ chain (folders db) (Some (Folder.id g)) F).
  { intro g. rewrite Ek, filter_In. split.
    - intros [Hg Kg]. split; [assumption|]. intro Hc.
      apply (Hk g Hg) in Hc. congruence.
    - intros [Hg Nc]. split; [assumption|].
      destruct (keep g) eqn:Kg; [reflexivity|]. now apply (Hk g Hg) in Kg. }
  assert (Hfiles : forall x, In x (files (run_db r)) <->
            In x (files db) /\ ~ chain (folders db) (File.folderId x) F).
  { intro x. rewrite Fl. unfold Prisma.cascade_files. rewrite filter_In.
    destruct (File.folderId x) as [d|] eqn:Ed.
    - split.
      + intros [Hx Px]. split; [assumption|]. intro Hc.
        apply present_iff in Px. destruct Px as [g [Hg Eg]].
        apply Hfolders in Hg. destruct Hg as [_ Hg]. apply Hg. congruence.
      + intros [Hx Nc]. split; [assumption|]. apply present_iff.
        destruct (inv_files h db I x d Hx Ed) as [g [Hg [Eg _]]].
        exists g. split; [|assumption]. apply Hfolders.
        split; [assumption|]. congruence.
    - split.
      + intros [Hx _]. split; [assumption|]. intro Hc. inversion Hc.
      + intros [Hx _]. split; [assumption|reflexivity]. }
  exists r. split; [assumption|]. split; [assumption|].
  split; [|split; [|split; [exact Hfolders|split; [exact Hfiles|split]]]].
  - unfold deleteFolder. rewrite Ev, andb_false_r, Er, Err.
    unfold Prisma.folder_count, Prisma.file_count.
    pose proof (children_same_owner h db F fi I Hfi Eid) as Ech.
    pose proof (files_same_owner h db F fi I Hfi Eid) as Efl.
    rewrite Eown in Ech, Efl. now rewrite Ech, Efl.
  - rewrite T. apply (postorder_Postorder h); [exact (inv_rank h db I) | lia].
  - intros g v Hg Hc. apply verify_absent. intros f Hf Ef.
    apply Hfolders in Hf. destruct Hf as [Hf Nf]. apply Nf. congruence.
  - intros x v Hx Hc. unfold verifyFileOwnership.
    rewrite file_findUnique_absent; [reflexivity|].
    intros y Hy Ey. apply Hfiles in Hy. destruct Hy as [Hy Ny].
    assert (y = x) by (apply (nodup_same_file_id (files db)); auto;
                       exact (inv_file_nodup h db I)).
    subst y. contradiction.
Qed.

(* ================================================================== *)
(** * The public gateway *)
(* ================================================================== *)

Lemma insertBy_In (A : Type) (key : A -> Js.str) (x y : A) (l : list A) :
  In y (insertBy key x l) -> y = x \/ In y l.
Proof.
  induction l as [|a l IH]; simpl.
  - intros [<-|[]]. now left.
  - destruct (Js.leb (key x) (key a)); simpl.
    + intros [<-|H]; [now left | now right].
    + intros [<-|H]; [right; now left|].
      destruct (IH H) as [->|H']; [now left | right; now right].
Qed.

Lemma orderBy_In (A : Type) (key : A -> Js.str) (y : A) (l : list A) :
  In y (orderBy key l) -> In y l.
Proof.
  induction l as [|a l IH]; simpl; [tauto|].
  intro H. apply insertBy_In in H. destruct H as [->|H]; [now left|].
  right. now apply IH.
Qed.

Lemma traverse_total (A B : Type) (f : A -> option B) (l : list A) :
  (forall a, In a l -> exists b, f a = Some b) ->
  exists bs, traverse f l = Some bs.
Proof.
  induction l as [|a l IH]; simpl; intro H; [eauto|].
  destruct (H a (or_introl eq_refl)) as [b ->].
  destruct IH as [bs ->]; [intros; apply H; now right|]. eauto.
Qed.

Lemma getFolderContents_total h db :
  rank_ok h (folders db) ->
  forall k x, (h x < k)%nat -> exists c, getFolderContents k db x = Some c.
Proof.
  intro R. induction k as [|k IH]; intros x Hx; [lia|]. simpl.
  match goal with
  | |- context [traverse ?f ?l] =>
      destruct (traverse_total _ _ f l) as [sub ->]; [|eauto]
  end.
  intros g Hg. apply orderBy_In in Hg. unfold Prisma.folder_findMany in Hg.
  apply filter_In in Hg. destruct Hg as [Hg Ep]. apply optZ_eqb_eq in Ep.
  destruct (IH (Folder.id g)) as [c ->]; [|eauto].
  specialize (R g x Hg Ep). lia.
Qed.

Lemma link_found l tok x :
  Prisma.shareLink_findFirst l tok = Some x ->
  In x l /\ ShareLink.token x = tok.
Proof.
  unfold Prisma.shareLink_findFirst. intro H. apply find_some in H.
  destruct H as [H1 H2]. split; [assumption | now apply String.eqb_eq].
Qed.

(** C2 (amended).  A stored link resolves to the shared folder at every
    instant up to and including [expiresAt], and is answered with the
    expired error at every later instant. *)
Theorem C2_resolve_until_expiry db token link now :
  reachable db ->
  Prisma.shareLink_findFirst (shareLinks db) token = Some link ->
  (now <= ShareLink.expiresAt link ->
   exists fuel0, forall fuel, (fuel0 <= fuel)%nat ->
     exists folder contents,
       Prisma.folder_findUnique (folders db) (ShareLink.folderId link)
       = Some folder
       /\ getShared fuel db token now
          = Some (json 200 (BSharedFolder
               "Shared folder accessed successfully"
               (ShareLink.expiresAt link) (ShareLink.expiresAt link - now)
               (Folder.id folder) (Folder.name folder) contents
               (Z.of_nat (List.length (contents_files contents)))
               (Z.of_nat (List.length (contents_subfolders contents)))
               (sumSizes (contents_files contents)))))
  /\ (ShareLink.expiresAt link < now ->
      forall fuel,
        getShared fuel db token now
        = Some (json 403 (BExpired "This share link has expired" true
                                   (ShareLink.expiresAt link)))).
Proof.
  intros Hr El. destruct (reachable_inv db Hr) as [h I]. split.
  - intro Hle. destruct (link_found _ _ _ El) as [Hl _].
    destruct (inv_links h db I link Hl) as [g [Hg Eg]].
    exists (S (h (Folder.id g))). intros fuel Hfuel.
    destruct (getFolderContents_total h db (inv_rank h db I) fuel (Folder.id g))
      as [c Hc]; [lia|].
    exists g, c. rewrite <- Eg.
    rewrite (findUnique_In _ g (inv_nodup h db I) Hg). split; [reflexivity|].
    unfold getShared. rewrite El.
    destruct (Z.ltb_spec (ShareLink.expiresAt link) now) as [Hlt|_]; [lia|].
    rewrite <- Eg. rewrite (findUnique_In _ g (inv_nodup h db I) Hg).
    now rewrite Hc.
  - intros Hlt fuel. unfold getShared. rewrite El.
    destruct (Z.ltb_spec (ShareLink.expiresAt link) now) as [_|Hge]; [|lia].
    reflexivity.
Qed.

(** C3.  With a stored, unexpired link the gateway serves a file by id
    only if the walk from the folder of the file up the parent chain
    passes through the shared folder; it serves it whenever the walk
    does, and refuses with 403 whenever it does not. *)
Theorem C3_file_inside_shared_folder db token fileId now link file :
  reachable db ->
  Prisma.shareLink_findFirst (shareLinks db) token = Some link ->
  now <= ShareLink.expiresAt link ->
  Prisma.file_findUnique (files db) fileId = Some file ->
  (forall fuel res,
     getSharedFile fuel db token fileId now = Some res ->
     status res = 200 ->
     res = json 200 (BSharedFile file)
     /\ chain (folders db) (File.folderId file) (ShareLink.folderId link))
  /\ (~ chain (folders db) (File.folderId file) (ShareLink.folderId link) ->
      exists fuel0, forall fuel, (fuel0 <= fuel)%nat ->
        getSharedFile fuel db token fileId now
        = Some (json 403 (BMessage
                  "Access denied: File is not in the shared folder")))
  /\ (chain (folders db) (File.folderId file) (ShareLink.folderId link) ->
      exists fuel0, forall fuel, (fuel0 <= fuel)%nat ->
        getSharedFile fuel db token fileId now
        = Some (json 200 (BSharedFile file))).
Proof.
  intros Hr El Hle Ef. destruct (reachable_inv db Hr) as [h I].
  assert (Hexp : (ShareLink.expiresAt link <? now) = false).
  { destruct (Z.ltb_spec (ShareLink.expiresAt link) now); [lia|reflexivity]. }
  assert (Hin : forall fuel b,
            inSharedFolder fuel (folders db) file (ShareLink.folderId link)
            = Some b ->
            (b = true <->
             chain (folders db) (File.folderId file) (ShareLink.folderId link))).
  { intros fuel b Hb. unfold inSharedFolder in Hb.
    destruct (optZ_eqb (File.folderId file) (Some (ShareLink.folderId link)))
      eqn:Eq.
    - apply optZ_eqb_eq in Eq. inversion Hb; subst b. rewrite Eq.
      split; [intros _; apply chain_here | reflexivity].
    - rewrite walkUp_check in Hb. destruct b.
      + split; [intros _; now apply (check_true fuel) | reflexivity].
      + split; [discriminate|]. intro Hc. exfalso.
        destruct (link_found _ _ _ El) as [Hl _].
        revert Hc. apply (check_false fuel); try exact Hb.
        * exact (inv_nodup h db I).
        * intros f Hf. pose proof (inv_seq h db I f Hf). lia.
        * exact (inv_links h db I link Hl). }
  assert (Htot : exists fuel0, forall fuel, (fuel0 <= fuel)%nat ->
            exists b, inSharedFolder fuel (folders db) file
                        (ShareLink.folderId link) = Some b).
  { destruct (inv_fuel h db I) as [M HM]. exists (S (S M)). intros fuel Hfuel.
    unfold inSharedFolder.
    destruct (optZ_eqb (File.folderId file) (Some (ShareLink.folderId link)));
      [eauto|].
    rewrite walkUp_check. apply HM. lia. }
  split; [|split].
  - intros fuel res E Hs. unfold getSharedFile in E.
    rewrite El, Hexp, Ef in E.
    destruct (inSharedFolder fuel (folders db) file (ShareLink.folderId link))
      as [[|]|] eqn:Eb; inversion E; subst res; simpl in Hs; try lia.
    split; [reflexivity|]. now apply (Hin fuel true Eb).
  - intro Hn. destruct Htot as [fuel0 Htot]. exists fuel0. intros fuel Hfuel.
    destruct (Htot fuel Hfuel) as [b Hb].
    unfold getSharedFile. rewrite El, Hexp, Ef, Hb.
    destruct b; [|reflexivity]. exfalso. apply Hn. now apply (Hin fuel true Hb).
  - intro Hc. destruct Htot as [fuel0 Htot]. exists fuel0. intros fuel Hfuel.
    destruct (Htot fuel Hfuel) as [b Hb].
    unfold getSharedFile. rewrite El, Hexp, Ef, Hb.
    destruct b; [reflexivity|].
    apply (Hin fuel false Hb) in Hc. discriminate.
Qed.

(* ================================================================== *)
(** * The running example is reachable *)
(* ================================================================== *)

Ltac reach_from db req :=
  apply (reach_step db O req
           (match handle O db req with
            | Some (r, _) => r
            | None => json 500 (BMessage "")
            end));
  [ | vm_compute; reflexivity ].

Ltac reach_exDb2 :=
  reach_from exDb1 (PostFolder 1 (Some (Js.lit "2024")) (Some 1));
  reach_from emptyDb (PostFolder 1 (Some (Js.lit "Docs")) None);
  apply reach_empty.

Ltac reach_exDb4 :=
  reach_from exDb3 (PostShare 1 2 (Some "1d") utc exNow exNow exToken
                              "http://localhost:5000");
  reach_from exDb2 (UploadFiles 1 (Some 2) [(exReport, false)]);
  reach_exDb2.

Lemma C5_witness :
  exists fuel0, forall fuel, (fuel0 <= fuel)%nat ->
    exists r,
      deleteFolderRecursively fuel exDb4 1 1 = Some r
      /\ run_error r = None
      /\ Postorder (folders exDb4) 1 (run_deleted r)
      /\ (forall v, verifyFolderOwnership (run_db r) v 2
                    = inl (json 404 (BMessage "Folder not found"))).
Proof.
  destruct (C5_delete_recursive exDb4 1 1 (Folder.mk 1 (Js.lit "Docs") 1 None))
    as [fuel0 H].
  - reach_exDb4.
  - reflexivity.
  - exists fuel0. intros fuel Hfuel.
    destruct (H fuel Hfuel) as [r [H1 [H2 [_ [H4 [_ [_ [H7 _]]]]]]]].
    exists r. split; [exact H1|]. split; [exact H2|]. split; [exact H4|].
    intro v.
    apply (H7 (Folder.mk 2 (Js.lit "2024") 1 (Some 1)) v).
    + simpl. right. left. reflexivity.
    + apply (chain_up _ 2 (Folder.mk 2 (Js.lit "2024") 1 (Some 1)) 1).
      * simpl. right. left. reflexivity.
      * reflexivity.
      * apply chain_here.
Defined.

Lemma C6_witness :
  exists res db',
    deleteFolder O exDb4 1 1 false = Some (res, db')
    /\ status res = 400 /\ db' = exDb4.
Proof.
  destruct (C6_delete_non_recursive exDb4 1 1
              (Folder.mk 1 (Js.lit "Docs") 1 None) O)
    as [res [db' [E [H1 [_ [H3 _]]]]]].
  - reach_exDb4.
  - reflexivity.
  - exists res, db'. split; [exact E|].
    assert (P : 0 < Z.of_nat (List.length (directChildren (folders exDb4) 1))
                \/ 0 < Z.of_nat (List.length (directFiles (files exDb4) 1))).
    { left. vm_compute. reflexivity. }
    split; [apply H1; exact P | apply (H3 P)].
Defined.

Lemma C2_witness :
  exists fuel0, forall fuel, (fuel0 <= fuel)%nat ->
    exists b, getShared fuel exDb4 exToken exNow = Some (json 200 b).
Proof.
  destruct (C2_resolve_until_expiry exDb4 exToken
              (ShareLink.mk 1 exToken 2 (exNow + msPerDay) exNow) exNow)
    as [H _].
  - reach_exDb4.
  - reflexivity.
  - destruct H as [fuel0 H]; [vm_compute; discriminate|].
    exists fuel0. intros fuel Hfuel.
    destruct (H fuel Hfuel) as [folder [contents [_ E]]].
    eexists. exact E.
Defined.

(** C2 as stated fails at the boundary: the link of the example, which
    expires at [exNow + msPerDay], is still served at that instant. *)
Lemma C2_counterexample :
  Prisma.shareLink_findFirst (shareLinks exDb4) exToken
  = Some (ShareLink.mk 1 exToken 2 (exNow + msPerDay) exNow)
  /\ (exists b, getShared 2 exDb4 exToken (exNow + msPerDay)
                = Some (json 200 b))
  /\ forall fuel,
       getShared fuel exDb4 exToken (exNow + msPerDay)
       <> Some (json 403 (BExpired "This share link has expired" true
                                   (exNow + msPerDay))).
Proof.
  split; [reflexivity|]. split; [eexists; vm_compute; reflexivity|].
  intros fuel E. unfold getShared in E.
  change (Prisma.shareLink_findFirst (shareLinks exDb4) exToken)
    with (Some (ShareLink.mk 1 exToken 2 (exNow + msPerDay) exNow)) in E.
  cbv iota beta in E.
  change (ShareLink.expiresAt (ShareLink.mk 1 exToken 2 (exNow + msPerDay) exNow)
          <? exNow + msPerDay) with false in E.
  cbv iota in E.
  destruct (Prisma.folder_findUnique _ _) as [g|]; [|discriminate].
  destruct (getFolderContents fuel exDb4 (Folder.id g)); discriminate.
Qed.

Lemma C3_witness :
  exists fuel0, forall fuel, (fuel0 <= fuel)%nat ->
    getSharedFile fuel exDb4 exToken 1 exNow
    = Some (json 200 (BSharedFile
              (File.mk 1 (Js.lit "report.pdf") "application/pdf" 10485760
                 "https://res.cloudinary.com/demo/raw/upload/v1/file-uploader/report"
                 "file-uploader/report" (Some 2) 1))).
Proof.
  destruct (C3_file_inside_shared_folder exDb4 exToken 1 exNow
              (ShareLink.mk 1 exToken 2 (exNow + msPerDay) exNow)
              (File.mk 1 (Js.lit "report.pdf") "application/pdf" 10485760
                 "https://res.cloudinary.com/demo/raw/upload/v1/file-uploader/report"
                 "file-uploader/report" (Some 2) 1))
    as [_ [_ H]].
  - reach_exDb4.
  - reflexivity.
  - vm_compute. discriminate.
  - reflexivity.
  - apply H. apply chain_here.
Defined.

(* ================================================================== *)
(** * Creating and renaming folders *)
(* ================================================================== *)

Lemma find_app_last (A : Type) (p : A -> bool) (l : list A) (x : A) :
  p x = true -> exists y, find p (l ++ [x]) = Some y.
Proof.
  intro H. induction l as [|a l IH]; simpl.
  - rewrite H. eauto.
  - destruct (p a); eauto.
Qed.

(** What a successful POST /api/folders has checked and done. *)
Lemma postFolder_created db o name p b db1 :
  postFolder db o name p = (json 201 b, db1) ->
  exists n,
    validName name = Some n
    /\ (Js.length n >? 255) = false
    /\ (forall q, parentScope p = Some q ->
          exists g, Prisma.folder_findUnique (folders db) q = Some g
                    /\ Folder.ownerId g = o)
    /\ db1 = mkDb (folders db ++ [Folder.mk (folderSeq db + 1) n o (parentScope p)])
                  (files db) (shareLinks db) (folderSeq db + 1)
                  (fileSeq db) (shareSeq db).
Proof.
  unfold postFolder. fold (parentScope p). intro E.
  destruct (validName name) as [n|]; [|inversion E].
  destruct (Js.length n >? 255) eqn:El; [inversion E|].
  exists n. split; [reflexivity|]. split; [exact El|].
  destruct (parentScope p) as [q|].
  - destruct (Prisma.folder_findUnique (folders db) q) as [g|] eqn:Eg;
      [|inversion E].
    destruct (negb (Folder.ownerId g =? o)) eqn:Eo; [inversion E|].
    destruct (Prisma.folder_findFirst _ _); [inversion E|].
    simpl in E. inversion E; subst. split; [|reflexivity].
    intros q' Eq. inversion Eq; subst. exists g. split; [assumption|].
    now apply owner_check.
  - destruct (Prisma.folder_findFirst _ _); [inversion E|].
    simpl in E. inversion E; subst. split; [|reflexivity].
    intros q' Eq. discriminate.
Qed.

(** C7.  After a successful create of (owner, parent, name), a second
    create with the same owner, the same parent and a name that trims to
    the same string is refused as a duplicate and changes nothing.  A
    second create whose trimmed name or whose parent differs, and which
    meets no other folder of that name under its parent, succeeds. *)
Theorem C7_duplicate_name_scope db o name p b db1 :
  postFolder db o name p = (json 201 b, db1) ->
  (forall name2 p2,
     validName name2 = validName name -> parentScope p2 = parentScope p ->
     postFolder db1 o name2 p2
     = (json 400 (BMessage
          "A folder with this name already exists in this location"), db1))
  /\ (forall name2 p2 n2,
        validName name2 = Some n2 -> (Js.length n2 >? 255) = false ->
        validName name2 <> validName name \/ parentScope p2 <> parentScope p ->
        (forall q, parentScope p2 = Some q ->
           exists g, Prisma.folder_findUnique (folders db1) q = Some g
                     /\ Folder.ownerId g = o) ->
        Prisma.folder_findFirst (folders db) (sameTriple n2 o (parentScope p2))
        = None ->
        exists f2 db2,
          postFolder db1 o name2 p2
          = (json 201 (BFolder "Folder created successfully" f2
                               (parentOf (folders db2) f2)), db2)
          /\ f2 = Folder.mk (folderSeq db1 + 1) n2 o (parentScope p2)
          /\ folders db2 = folders db1 ++ [f2]).
Proof.
  intro E. destruct (postFolder_created _ _ _ _ _ _ E)
    as [n [En [El [Hp Edb]]]].
  split.
  - intros name2 p2 En2 Ep2. unfold postFolder. fold (parentScope p2).
    rewrite En2, En, El, Ep2.
    assert (Hdup : exists y,
              Prisma.folder_findFirst (folders db1)
                (fun f => Js.eqb (Folder.name f) n && (Folder.ownerId f =? o)
                          && optZ_eqb (Folder.parentId f) (parentScope p))
              = Some y).
    { rewrite Edb. simpl. unfold Prisma.folder_findFirst.
      apply find_app_last. simpl.
      rewrite Z.eqb_refl, andb_true_r.
      apply andb_true_iff. split; [now apply Js_eqb_eq | now apply optZ_eqb_eq]. }
    destruct Hdup as [y Hy]. rewrite Hy.
    destruct (parentScope p) as [q|]; [|reflexivity].
    destruct (Hp q eq_refl) as [g [Eg Og]].
    rewrite Edb. simpl. unfold Prisma.folder_findUnique.
    rewrite (find_app_l _ _ _ _ _ Eg). rewrite Og, Z.eqb_refl. reflexivity.
  - intros name2 p2 n2 En2 El2 Hdiff Hp2 Hnone.
    unfold postFolder. fold (parentScope p2). rewrite En2, El2.
    assert (Hfree : Prisma.folder_findFirst (folders db1)
                      (fun f => Js.eqb (Folder.name f) n2
                                && (Folder.ownerId f =? o)
                                && optZ_eqb (Folder.parentId f) (parentScope p2))
                    = None).
    { rewrite Edb. simpl. unfold Prisma.folder_findFirst.
      rewrite find_app_r; [|exact Hnone]. simpl.
      destruct (Js.eqb n n2) eqn:Enn; [|reflexivity].
      destruct (optZ_eqb (parentScope p) (parentScope p2)) eqn:Epp;
        [|now rewrite andb_false_r].
      apply Js_eqb_eq in Enn. apply optZ_eqb_eq in Epp. exfalso.
      destruct Hdiff as [Hd|Hd]; apply Hd; congruence. }
    rewrite Hfree.
    assert (Hcheck :
              match parentScope p2 with
              | Some q =>
                  match Prisma.folder_findUnique (folders db1) q with
                  | Some parentFolder =>
                      if negb (Folder.ownerId parentFolder =? o)
                      then Some (json 403 (BMessage
                             "Access denied: You do not own the parent folder"))
                      else None
                  | None => Some (json 400 (BMessage "Parent folder not found"))
                  end
              | None => None
              end = None).
    { destruct (parentScope p2) as [q|]; [|reflexivity].
      destruct (Hp2 q eq_refl) as [g [Eg Og]].
      rewrite Eg. now rewrite Og, Z.eqb_refl. }
    rewrite Hcheck. simpl.
    exists (Folder.mk (folderSeq db1 + 1) n2 o (parentScope p2)).
    exists (mkDb (folders db1
                  ++ [Folder.mk (folderSeq db1 + 1) n2 o (parentScope p2)])
                 (files db1) (shareLinks db1) (folderSeq db1 + 1)
                 (fileSeq db1) (shareSeq db1)).
    split; [reflexivity|]. split; reflexivity.
Qed.

Lemma C7_witness :
  postFolder exDb2 1 (Some (Js.lit "  2024 ")) (Some 1)
  = (json 400 (BMessage
       "A folder with this name already exists in this location"), exDb2)
  /\ exists f2 db2,
       postFolder exDb2 1 (Some (Js.lit "2024")) (Some 2)
       = (json 201 (BFolder "Folder created successfully" f2
                            (parentOf (folders db2) f2)), db2)
       /\ f2 = Folder.mk 3 (Js.lit "2024") 1 (Some 2)
       /\ folders db2 = folders exDb2 ++ [f2].
Proof.
  destruct (C7_duplicate_name_scope exDb1 1 (Some (Js.lit "2024")) (Some 1)
              (BFolder "Folder created successfully"
                       (Folder.mk 2 (Js.lit "2024") 1 (Some 1))
                       (Some (1, Js.lit "Docs")))
              exDb2) as [H1 H2].
  - reflexivity.
  - split.
    + apply (H1 (Some (Js.lit "  2024 ")) (Some 1)); reflexivity.
    + apply (H2 (Some (Js.lit "2024")) (Some 2) (Js.lit "2024")).
      * reflexivity.
      * reflexivity.
      * right. discriminate.
      * intros q Eq. inversion Eq; subst q.
        exists (Folder.mk 2 (Js.lit "2024") 1 (Some 1)).
        split; reflexivity.
      * reflexivity.
Defined.

Lemma findUnique_map_set fs i n p f :
  Prisma.folder_findUnique fs i = Some f ->
  Prisma.folder_findUnique (map (Prisma.folder_set i n p) fs) i
  = Some (Prisma.folder_set i n p f).
Proof.
  unfold Prisma.folder_findUnique. induction fs as [|a fs IH]; simpl;
    [discriminate|].
  rewrite folder_set_id. destruct (Folder.id a =? i).
  - intro E. inversion E. reflexivity.
  - apply IH.
Qed.

(** C10.  An update that carries a name and no parent writes a null
    [parentId]: whatever the parent of the folder was, the folder is
    afterwards a root folder of its owner. *)
Theorem C10_rename_resets_parent db u F name n fi fuel :
  verifyFolderOwnership db u F = inr fi ->
  validName name = Some n -> (Js.length n >? 255) = false ->
  Prisma.folder_findFirst (folders db)
    (fun f => sameTriple n u None f && negb (Folder.id f =? F)) = None ->
  exists db',
    putFolder fuel db u F name None
    = Some (json 200 (BFolder "Folder updated successfully"
                              (Folder.mk F n u None) None), db')
    /\ Prisma.folder_findUnique (folders db') F = Some (Folder.mk F n u None)
    /\ folders db' = map (Prisma.folder_set F n None) (folders db).
Proof.
  intros Ev En El Hfree.
  destruct (verify_inr _ _ _ _ Ev) as [Efi [Hfi [Eid Eown]]].
  unfold putFolder. rewrite Ev, En, El. unfold putFolderCommit.
  unfold sameTriple in Hfree. rewrite Hfree.
  unfold Prisma.folder_update. rewrite Efi.
  assert (Eset : Prisma.folder_set F n None fi = Folder.mk F n u None).
  { unfold Prisma.folder_set. rewrite Eid, Z.eqb_refl. now rewrite Eown. }
  rewrite Eset. eexists. split; [reflexivity|]. simpl.
  split; [|reflexivity].
  rewrite <- Eset. now apply findUnique_map_set.
Qed.

Lemma C10_witness :
  Prisma.folder_findUnique (folders exDb2) 2
  = Some (Folder.mk 2 (Js.lit "2024") 1 (Some 1))
  /\ exists db',
       putFolder O exDb2 1 2 (Some (Js.lit "2025")) None
       = Some (json 200 (BFolder "Folder updated successfully"
                                 (Folder.mk 2 (Js.lit "2025") 1 None) None), db')
       /\ Prisma.folder_findUnique (folders db') 2
          = Some (Folder.mk 2 (Js.lit "2025") 1 None).
Proof.
  split; [reflexivity|].
  destruct (C10_rename_resets_parent exDb2 1 2 (Some (Js.lit "2025"))
              (Js.lit "2025") (Folder.mk 2 (Js.lit "2024") 1 (Some 1)) O)
    as [db' [H1 [H2 _]]].
  - reflexivity.
  - reflexivity.
  - reflexivity.
  - reflexivity.
  - exists db'. split; [exact H1 | exact H2].
Defined.

(* ================================================================== *)
(** * Upload batches *)
(* ================================================================== *)

Lemma saveFiles_committed batch :
  forall db o d saved db' destroyed,
    saveFiles db o d batch = (saved, db', destroyed) ->
    saveFiles db o d (committed batch) = (saved, db', [])
    /\ destroyed = failedIds batch
    /\ map File.publicId saved
       = map (fun fb => filename (fst fb)) (committed batch).
Proof.
  induction batch as [|[file dbError] rest IH];
    intros db o d saved db' destroyed E.
  - simpl in E. inversion E; subst. repeat split.
  - simpl in E. destruct dbError.
    + destruct (saveFiles db o d rest) as [[s1 d1] x1] eqn:E1.
      inversion E; subst. destruct (IH _ _ _ _ _ _ E1) as [H1 [H2 H3]].
      unfold committed, failedIds in *. simpl. repeat split; congruence.
    + unfold Prisma.file_create in E.
      match type of E with
      | context [saveFiles ?D o d rest] =>
          destruct (saveFiles D o d rest) as [[s1 d1] x1] eqn:E1
      end.
      inversion E; subst. destruct (IH _ _ _ _ _ _ E1) as [H1 [H2 H3]].
      unfold committed, failedIds in *. simpl.
      unfold Prisma.file_create. rewrite H1.
      repeat split; simpl; congruence.
Qed.

(** C8 (amended).  When the folder check of an upload passes, the blob
    of every file whose metadata could not be saved is handed to
    [cloudinary.uploader.destroy], in batch order.  If at least one file
    was saved the response is 201 with the saved files and their count;
    it is the very response, and the very database, of the batch made of
    the saved files alone, so it says nothing about the failures.  If no
    file was saved the response is the bare 500 message. *)
Theorem C8_partial_batch db o d batch res db' destroyed :
  (forall q, d = Some q ->
     exists g, Prisma.folder_findUnique (folders db) q = Some g
               /\ Folder.ownerId g = o) ->
  batch <> [] ->
  uploadFiles db o d batch = (res, db', destroyed) ->
  destroyed = failedIds batch
  /\ (committed batch <> [] ->
      (exists saved,
         res = json 201 (BUploaded
                 ("Successfully uploaded "
                    ++ decimal (Z.of_nat (List.length saved)) ++ " file(s)")%string
                 saved (Z.of_nat (List.length saved)) (sumSizes saved))
         /\ map File.publicId saved
            = map (fun fb => filename (fst fb)) (committed batch))
      /\ uploadFiles db o d (committed batch) = (res, db', []))
  /\ (committed batch = [] ->
      res = json 500 (BMessage "Failed to save any files to database")).
Proof.
  intros Hd Hne E. unfold uploadFiles in E.
  assert (Hcheck :
            match d with
            | Some q =>
                match Prisma.folder_findUnique (folders db) q with
                | Some folder =>
                    if negb (Folder.ownerId folder =? o)
                    then Some (json 403 (BMessage
                           "Access denied: You do not own this folder"))
                    else None
                | None => Some (json 400 (BMessage "Folder not found"))
                end
            | None => None
            end = None).
  { destruct d as [q|]; [|reflexivity].
    destruct (Hd q eq_refl) as [g [Eg Og]]. now rewrite Eg, Og, Z.eqb_refl. }
  rewrite Hcheck in E.
  destruct batch as [|b0 rest]; [contradiction|].
  destruct (saveFiles db o d (b0 :: rest)) as [[saved d1] x1] eqn:Es.
  destruct (saveFiles_committed _ _ _ _ _ _ _ Es) as [H1 [H2 H3]].
  assert (Hlen : List.length saved = List.length (committed (b0 :: rest))).
  { rewrite <- (length_map File.publicId), H3. apply length_map. }
  destruct saved as [|s0 saved'].
  - injection E as Er Ed Ex. subst res db' destroyed x1.
    split; [reflexivity|]. split.
    + intro Hc. destruct (committed (b0 :: rest)); [contradiction|discriminate].
    + reflexivity.
  - injection E as Er Ed Ex. subst res db' destroyed x1.
    split; [reflexivity|]. split.
    + intros _. split; [exists (s0 :: saved'); split; [reflexivity | exact H3]|].
      unfold uploadFiles. rewrite Hcheck.
      destruct (committed (b0 :: rest)) as [|c0 crest] eqn:Ec; [discriminate|].
      rewrite H1. reflexivity.
    + intro Hc. rewrite Hc in Hlen. discriminate.
Qed.

Lemma C8_witness :
  snd (uploadFiles exDb2 1 (Some 2) [(exReport, false); (exNotes, true)])
  = ["file-uploader/notes"]
  /\ uploadFiles exDb2 1 (Some 2) [(exReport, false)]
     = (fst (fst (uploadFiles exDb2 1 (Some 2)
                    [(exReport, false); (exNotes, true)])), exDb3, []).
Proof.
  destruct (C8_partial_batch exDb2 1 (Some 2)
              [(exReport, false); (exNotes, true)]
              (fst (fst (uploadFiles exDb2 1 (Some 2)
                           [(exReport, false); (exNotes, true)])))
              exDb3 ["file-uploader/notes"])
    as [H1 [H2 _]].
  - intros q Eq. inversion Eq; subst q.
    exists (Folder.mk 2 (Js.lit "2024") 1 (Some 1)). split; reflexivity.
  - discriminate.
  - reflexivity.
  - split; [reflexivity|]. apply H2. discriminate.
Defined.

(** C8 as stated fails: a batch in which the second file fails its
    database commit gets the response of the batch without that file;
    nothing in the response tells that a file was dropped. *)
Lemma C8_counterexample :
  fst (fst (uploadFiles exDb2 1 (Some 2) [(exReport, false); (exNotes, true)]))
  = fst (fst (uploadFiles exDb2 1 (Some 2) [(exReport, false)]))
  /\ status (fst (fst (uploadFiles exDb2 1 (Some 2)
                         [(exReport, false); (exNotes, true)]))) = 201
  /\ failedIds [(exReport, false); (exNotes, true)] = ["file-uploader/notes"]
  /\ failedIds [(exReport, false)] = [].
Proof.
  repeat split.
Qed.

(* ================================================================== *)
(** * Share links *)
(* ================================================================== *)










(* ================================================================== *)
(** * Every request is answered *)
(* ================================================================== *)

(** On a reachable database the recursive helpers terminate: with
    enough fuel every request gets its response. *)
Lemma handle_total db req :
  reachable db ->
  exists fuel0, forall fuel, (fuel0 <= fuel)%nat ->
    exists res db', handle fuel db req = Some (res, db').
Proof.
  intro Hr. destruct (reachable_inv db Hr) as [h I].
  destruct req as [u name p | u i name p | u i force | u d batch
                   | u i name d | u i | u i duration zone now created token baseUrl
                   | u i]; simpl.
  - exists O. intros. destruct (postFolder db u name p). eauto.
  - destruct (inv_fuel h db I) as [M HM]. exists (S (S M)). intros fuel Hfuel.
    unfold putFolder.
    destruct (verifyFolderOwnership db u i); [eauto|].
    destruct (validName name) as [n|]; [|eauto].
    destruct (Js.length n >? 255); [eauto|].
    destruct p as [P|]; [|destruct (putFolderCommit db u i n None); eauto].
    destruct (P =? i); [eauto|].
    destruct (Prisma.folder_findUnique (folders db) P) as [g|]; [|eauto].
    destruct (negb (Folder.ownerId g =? u)); [eauto|].
    destruct (HM fuel (Some P) i) as [b ->]; [lia|].
    destruct b; [eauto|].
    destruct (putFolderCommit db u i n (Some P)). eauto.
  - exists (S (h i)). intros fuel Hfuel. unfold deleteFolder.
    destruct (verifyFolderOwnership db u i) as [r|fi] eqn:Ev; [eauto|].
    destruct (verify_inr _ _ _ _ Ev) as [Efi [Hfi [Eid Eown]]].
    match goal with |- context [if ?c then _ else _] => destruct c end;
      [eauto|].
    destruct force.
    + destruct (deleteFolderRecursively_ok h u fuel db i I) as [r [-> P]];
        [eauto | lia |].
      destruct (run_error r); eauto.
    + destruct (Prisma.folder_delete db i); eauto.
  - exists O. intros. destruct (uploadFiles db u d batch) as [[r d'] x]. eauto.
  - exists O. intros. destruct (putFile db u i name d). eauto.
  - exists O. intros. destruct (deleteFile db u i) as [[r d'] x]. eauto.
  - exists O. intros.
    destruct (postShare db u i duration zone now created token baseUrl). eauto.
  - exists O. intros. destruct (deleteShare db u i). eauto.
Qed.

(* ================================================================== *)
(** * The model at work on the running example *)
(* ================================================================== *)

Example trim_example : Js.trim (Js.lit "  a b  ") = Js.lit "a b".
Proof. reflexivity. Qed.

Example durationMatch_examples :
  durationMatch "12h" = Some ("12", "h"%char)
  /\ durationMatch "007d" = Some ("007", "d"%char)
  /\ durationMatch "d" = None
  /\ durationMatch "1w" = None
  /\ durationMatch "1d " = None.
Proof. repeat split. Qed.

Example parseInt_examples :
  parseInt "12" = 12
  /\ parseInt "007" = 7
  /\ parseInt "9007199254740992" = 9007199254740992
  /\ parseInt "9007199254740993" = 9007199254740992
  /\ parseInt "9007199254740995" = 9007199254740996.
Proof. repeat split. Qed.

Example computeExpiry_examples :
  computeExpiry utc exNow "1d" = Some (exNow + 86400000)
  /\ computeExpiry utc exNow "2h" = Some (exNow + 7200000)
  /\ computeExpiry utc exNow "soon" = Some (exNow + 604800000)
  /\ computeExpiry utc exNow "99999999999d" = None.
Proof. repeat split. Qed.

(** Across a change of the zone offset the expiry keeps the local time
    of day: 200 days from 15 June 2025 in Eastern Time end an hour after
    200 times 24 hours, and two hours set at 01:30 on the night the
    clocks go forward last one hour. *)
Example computeExpiry_daylight_saving :
  computeExpiry eastern2025 exNow "200d" = Some (exNow + 200 * msPerDay + msPerHour)
  /\ computeExpiry eastern2025 exNow "200d" = Some 1767283600000
  /\ computeExpiry eastern2025 1741501800000 "2h"
     = Some (1741501800000 + msPerHour)
  /\ computeExpiry eastern2025 exNow "2h" = Some (exNow + 2 * msPerHour).
Proof. repeat split. Qed.

Example circular_example :
  checkCircularReference 3 (folders exDb4) (Some 2) 1 = Some true
  /\ checkCircularReference 3 (folders exDb4) (Some 1) 2 = Some false
  /\ checkCircularReference 1 (folders exDb4) (Some 2) 1 = None.
Proof. repeat split. Qed.

Example delete_order_example :
  option_map run_deleted (deleteFolderRecursively 3 exDb4 1 1) = Some [2; 1]
  /\ option_map (fun r => folders (run_db r))
       (deleteFolderRecursively 3 exDb4 1 1) = Some []
  /\ option_map (fun r => files (run_db r))
       (deleteFolderRecursively 3 exDb4 1 1) = Some []
  /\ postorder 3 (folders exDb4) 1 = [2; 1].
Proof. repeat split. Qed.

(** The scenario of the share link: served on the day, expired 25 hours
    after it was issued. *)
Example expiry_scenario :
  (exists b, getShared 2 exDb4 exToken (exNow + 3600000) = Some (json 200 b))
  /\ getShared 2 exDb4 exToken (exNow + 25 * 3600000)
     = Some (json 403 (BExpired "This share link has expired" true
                                (exNow + 86400000))).
Proof. split; [eexists|]; reflexivity. Qed.

(** The cascade of the store alone: deleting "Docs" takes "2024", its
    file and its share link with it. *)
Example cascade_example :
  Prisma.folder_delete exDb4 1 = Ok (mkDb [] [] [] 2 1 1).
Proof. reflexivity. Qed.

(* ================================================================== *)
(** * Moving folders: the circular-reference check is exact *)
(* ================================================================== *)

Lemma chain_descendant fs P F :
  chain fs (Some P) F -> P <> F -> descendant fs P F.
Proof.
  intros H Ne. inversion H as [x | x f t Hf E Hc]; subst.
  - contradiction.
  - exists f. auto.
Qed.

Lemma findUnique_map_set_any fs i n p j :
  Prisma.folder_findUnique (map (Prisma.folder_set i n p) fs) j
  = option_map (Prisma.folder_set i n p) (Prisma.folder_findUnique fs j).
Proof.
  unfold Prisma.folder_findUnique. induction fs as [|a fs IH]; simpl;
    [reflexivity|].
  rewrite folder_set_id. destruct (Folder.id a =? j); [reflexivity | apply IH].
Qed.

(** X1.  PUT /api/folders/:id answers with the circular-reference error
    only when the requested parent is a descendant of the folder, and
    then it has written nothing. *)
Theorem X1_circular_only_for_descendant fuel db u F name P db' :
  putFolder fuel db u F name (Some P)
  = Some (json 400 (BMessage
            "Cannot move folder: This would create a circular reference"), db') ->
  descendant (folders db) P F /\ db' = db.
Proof.
  unfold putFolder. intro E.
  destruct (verifyFolderOwnership db u F) as [r|fi] eqn:Ev.
  { unfold verifyFolderOwnership in Ev.
    destruct (Prisma.folder_findUnique (folders db) F) as [f|];
      [destruct (negb (Folder.ownerId f =? u))|];
      inversion Ev; subst; discriminate. }
  destruct (validName name) as [n|]; [|discriminate].
  destruct (Js.length n >? 255); [discriminate|].
  destruct (P =? F) eqn:EP; [discriminate|]. apply Z.eqb_neq in EP.
  destruct (Prisma.folder_findUnique (folders db) P) as [g|]; [|discriminate].
  destruct (negb (Folder.ownerId g =? u)); [discriminate|].
  destruct (checkCircularReference fuel (folders db) (Some P) F)
    as [[|]|] eqn:Ec; [| |discriminate].
  - inversion E; subst. split; [|reflexivity].
    apply chain_descendant; [now apply (check_true fuel) | assumption].
  - exfalso. unfold putFolderCommit in E.
    destruct (Prisma.folder_findFirst _ _); [discriminate|].
    destruct (Prisma.folder_update db F n (Some P)) as [[f0 d0]|]; discriminate.
Qed.

Lemma X1_witness :
  descendant (folders exDb2) 2 1 /\ exDb2 = exDb2.
Proof.
  apply (X1_circular_only_for_descendant 3 exDb2 1 1 (Some (Js.lit "Docs")) 2).
  reflexivity.
Defined.

(** X2.  A move of a folder F of the caller under a folder P of the
    caller that is neither F nor a descendant of F, with a valid name
    that no other folder under P has, succeeds: F gets the name and the
    parent P, every other folder row, every file and every link is
    kept, and F is then a descendant of P. *)
Theorem X2_move_outside_subtree db u F name n P fi g :
  reachable db ->
  verifyFolderOwnership db u F = inr fi ->
  validName name = Some n -> (Js.length n >? 255) = false ->
  P <> F ->
  Prisma.folder_findUnique (folders db) P = Some g -> Folder.ownerId g = u ->
  ~ descendant (folders db) P F ->
  Prisma.folder_findFirst (folders db)
    (fun f => sameTriple n u (Some P) f && negb (Folder.id f =? F)) = None ->
  exists fuel0, forall fuel, (fuel0 <= fuel)%nat ->
    exists db',
      putFolder fuel db u F name (Some P)
      = Some (json 200 (BFolder "Folder updated successfully"
                          (Folder.mk F n u (Some P))
                          (Some (P, Folder.name g))), db')
      /\ folders db' = map (Prisma.folder_set F n (Some P)) (folders db)
      /\ files db' = files db /\ shareLinks db' = shareLinks db
      /\ (forall x, In x (folders db) -> Folder.id x <> F -> In x (folders db'))
      /\ descendant (folders db') F P.
Proof.
  intros Hr Ev En El Ne Eg Og Nd Hfree.
  destruct (reachable_inv db Hr) as [h I].
  destruct (verify_inr _ _ _ _ Ev) as [Efi [Hfi [Eid Eown]]].
  destruct (findUnique_Some _ _ _ Eg) as [Hg EgP].
  destruct (inv_fuel h db I) as [M HM]. exists (S (S M)). intros fuel Hfuel.
  unfold putFolder. rewrite Ev, En, El.
  destruct (Z.eqb_spec P F) as [|_]; [contradiction|].
  rewrite Eg, Og, Z.eqb_refl. simpl.
  destruct (HM fuel (Some P) F) as [b Hb]; [lia|]. rewrite Hb.
  destruct b.
  { exfalso. apply Nd. apply chain_descendant; [|assumption].
    now apply (check_true fuel). }
  unfold putFolderCommit. unfold sameTriple in Hfree. rewrite Hfree.
  unfold Prisma.folder_update. rewrite Efi.
  assert (Eset : Prisma.folder_set F n (Some P) fi = Folder.mk F n u (Some P)).
  { unfold Prisma.folder_set. rewrite Eid, Z.eqb_refl. now rewrite Eown. }
  assert (Egs : Prisma.folder_set F n (Some P) g = g).
  { unfold Prisma.folder_set. rewrite EgP.
    destruct (Z.eqb_spec P F); [contradiction|reflexivity]. }
  rewrite Eset. unfold parentOf. simpl.
  rewrite findUnique_map_set_any, Eg. simpl. rewrite Egs, EgP.
  eexists. split; [reflexivity|]. simpl.
  split; [reflexivity|]. split; [reflexivity|]. split; [reflexivity|]. split.
  - intros x Hx Nx. apply in_map_iff. exists x. split; [|assumption].
    unfold Prisma.folder_set. destruct (Z.eqb_spec (Folder.id x) F);
      [contradiction|reflexivity].
  - exists (Folder.mk F n u (Some P)). split; [|split; [reflexivity|]].
    + rewrite <- Eset. now apply in_map.
    + simpl. apply chain_here.
Qed.

Ltac reach_exDb5 :=
  reach_from exDb4 (PostFolder 1 (Some (Js.lit "Archive")) None);
  reach_exDb4.

Ltac reach_exDb6 :=
  reach_from exDb5 (PostFolder 2 (Some (Js.lit "Private")) None);
  reach_exDb5.

Lemma X2_witness :
  exists fuel0, forall fuel, (fuel0 <= fuel)%nat ->
    exists db',
      putFolder fuel exDb5 1 2 (Some (Js.lit "2024")) (Some 3)
      = Some (json 200 (BFolder "Folder updated successfully"
                          (Folder.mk 2 (Js.lit "2024") 1 (Some 3))
                          (Some (3, Js.lit "Archive"))), db')
      /\ descendant (folders db') 2 3.
Proof.
  destruct (X2_move_outside_subtree exDb5 1 2 (Some (Js.lit "2024"))
              (Js.lit "2024") 3 (Folder.mk 2 (Js.lit "2024") 1 (Some 1))
              (Folder.mk 3 (Js.lit "Archive") 1 None)) as [fuel0 H].
  - reach_exDb5.
  - reflexivity.
  - reflexivity.
  - reflexivity.
  - discriminate.
  - reflexivity.
  - reflexivity.
  - intros [f [Hf [Ef Hc]]]. simpl in Hf.
    destruct Hf as [<-|[<-|[<-|[]]]]; simpl in Ef; try discriminate.
    simpl in Hc. inversion Hc.
  - reflexivity.
  - exists fuel0. intros fuel Hfuel.
    destruct (H fuel Hfuel) as [db' [H1 [_ [_ [_ [_ H6]]]]]].
    exists db'. split; [exact H1 | exact H6].
Defined.

(* ================================================================== *)
(** * A refused request changes nothing *)
(* ================================================================== *)

Ltac split_handler E :=
  repeat match type of E with
         | context [match ?x with _ => _ end] => destruct x eqn:?
         | context [if ?x then _ else _] => destruct x eqn:?
         end.

Lemma postFolder_refused db u name p res db' :
  postFolder db u name p = (res, db') -> status res <> 201 -> db' = db.
Proof.
  unfold postFolder, Prisma.folder_create. intros E Hs. split_handler E;
    inversion E; subst; try reflexivity; simpl in Hs; lia.
Qed.

Lemma putFolderCommit_refused db u i n p res db' :
  putFolderCommit db u i n p = (res, db') -> status res <> 200 -> db' = db.
Proof.
  unfold putFolderCommit, Prisma.folder_update. intros E Hs. split_handler E;
    inversion E; subst; try reflexivity; simpl in Hs; lia.
Qed.

Lemma putFolder_refused fuel db u i name p res db' :
  putFolder fuel db u i name p = Some (res, db') -> status res <> 200 ->
  db' = db.
Proof.
  unfold putFolder. intros E Hs.
  destruct (verifyFolderOwnership db u i); [now inversion E|].
  destruct (validName name) as [n|]; [|now inversion E].
  destruct (Js.length n >? 255); [now inversion E|].
  destruct p as [P|].
  - destruct (P =? i); [now inversion E|].
    destruct (Prisma.folder_findUnique (folders db) P) as [g|];
      [|now inversion E].
    destruct (negb (Folder.ownerId g =? u)); [now inversion E|].
    destruct (checkCircularReference fuel (folders db) (Some P) i)
      as [[|]|]; [now inversion E| |discriminate].
    inversion E as [E']. now apply (putFolderCommit_refused _ _ _ _ _ _ _ E').
  - inversion E as [E']. now apply (putFolderCommit_refused _ _ _ _ _ _ _ E').
Qed.

Lemma saveFiles_none batch :
  forall db u d db' destroyed,
    saveFiles db u d batch = ([], db', destroyed) -> db' = db.
Proof.
  induction batch as [|[file dbError] rest IH]; intros db u d db' destroyed E;
    simpl in E.
  - now inversion E.
  - destruct dbError.
    + destruct (saveFiles db u d rest) as [[s1 d1] x1] eqn:E1.
      inversion E; subst. now apply (IH _ _ _ _ _ E1).
    + unfold Prisma.file_create in E.
      match type of E with
      | context [saveFiles ?D u d rest] =>
          destruct (saveFiles D u d rest) as [[s1 d1] x1]
      end.
      discriminate.
Qed.

Lemma uploadFiles_refused db u d batch res db' destroyed :
  uploadFiles db u d batch = (res, db', destroyed) -> status res <> 201 ->
  db' = db.
Proof.
  unfold uploadFiles. intros E Hs.
  match type of E with
  | context [match ?c with Some r => _ | None => _ end] =>
      destruct c as [r0|]; [now inversion E|]
  end.
  destruct batch as [|b0 rest]; [now inversion E|].
  destruct (saveFiles db u d (b0 :: rest)) as [[saved d1] x1] eqn:Es.
  destruct saved as [|s0 saved'].
  - inversion E; subst. now apply (saveFiles_none _ _ _ _ _ _ Es).
  - inversion E; subst. simpl in Hs. lia.
Qed.

Lemma putFile_refused db u i name d res db' :
  putFile db u i name d = (res, db') -> status res <> 200 -> db' = db.
Proof.
  unfold putFile, Prisma.file_update. intros E Hs. split_handler E;
    inversion E; subst; try reflexivity; simpl in Hs; lia.
Qed.

Lemma deleteFile_refused db u i res db' destroyed :
  deleteFile db u i = (res, db', destroyed) -> status res <> 200 ->
  db' = db /\ destroyed = [].
Proof.
  unfold deleteFile, Prisma.file_delete. intros E Hs. split_handler E;
    inversion E; subst; try (split; reflexivity); simpl in Hs; lia.
Qed.

Lemma postShare_refused db u i duration zone now created token baseUrl res db' :
  postShare db u i duration zone now created token baseUrl = (res, db') ->
  status res <> 201 -> db' = db.
Proof.
  unfold postShare, Prisma.shareLink_create. intros E Hs.
  destruct (Prisma.folder_findUnique (folders db) i) as [g|];
    [|now inversion E].
  destruct (negb (Folder.ownerId g =? u)); [now inversion E|].
  destruct (computeExpiry zone now _) as [e|]; [|now inversion E].
  destruct (Prisma.shareLink_findFirst (shareLinks db) token);
    [now inversion E|].
  inversion E; subst. simpl in Hs. lia.
Qed.

Lemma deleteShare_refused db u i res db' :
  deleteShare db u i = (res, db') -> status res <> 200 -> db' = db.
Proof.
  unfold deleteShare, Prisma.shareLink_delete. intros E Hs. split_handler E;
    inversion E; subst; try reflexivity; simpl in Hs; lia.
Qed.

Lemma deleteFolder_refused fuel db u i force res db' :
  Inv db ->
  deleteFolder fuel db u i force = Some (res, db') -> status res <> 200 ->
  db' = db.
Proof.
  intros [h I] E Hs. unfold deleteFolder in E.
  destruct (verifyFolderOwnership db u i) as [r|fi] eqn:Ev;
    [now inversion E|].
  destruct (verify_inr _ _ _ _ Ev) as [Efi [Hfi [Eid Eown]]].
  match type of E with
  | context [if ?c then _ else _] => destruct c; [now inversion E|]
  end.
  destruct force.
  - destruct (deleteFolderRecursively fuel db i u) as [r|] eqn:Er;
      [|discriminate].
    apply (deleteFolderRecursively_mono fuel (Nat.max fuel (S (h i)))) in Er;
      [|lia].
    destruct (deleteFolderRecursively_ok h u (Nat.max fuel (S (h i))) db i I)
      as [r' [Er' P]]; [eauto | lia |].
    rewrite Er in Er'. inversion Er'; subst r'. clear Er'.
    destruct P as [Err _]. rewrite Err in E. inversion E; subst.
    simpl in Hs. lia.
  - unfold Prisma.folder_delete in E. rewrite Efi in E.
    inversion E; subst. simpl in Hs. lia.
Qed.

(** X3.  On every reachable database a request that is not answered
    200 or 201 leaves the database exactly as it was. *)
Theorem X3_refused_request_changes_nothing fuel db req res db' :
  reachable db ->
  handle fuel db req = Some (res, db') ->
  status res <> 200 -> status res <> 201 ->
  db' = db.
Proof.
  intros Hr E H200 H201. pose proof (reachable_inv db Hr) as I.
  destruct req; simpl in E.
  - inversion E as [E']. now apply (postFolder_refused _ _ _ _ _ _ E').
  - now apply (putFolder_refused _ _ _ _ _ _ _ _ E).
  - now apply (deleteFolder_refused _ _ _ _ _ _ _ I E).
  - destruct (uploadFiles db userId folderId batch) as [[r d] x] eqn:Eu.
    inversion E; subst. now apply (uploadFiles_refused _ _ _ _ _ _ _ Eu).
  - inversion E as [E']. now apply (putFile_refused _ _ _ _ _ _ _ E').
  - destruct (deleteFile db userId fileId) as [[r d] x] eqn:Eu.
    inversion E; subst. now apply (deleteFile_refused _ _ _ _ _ _ Eu).
  - inversion E as [E']. now apply (postShare_refused _ _ _ _ _ _ _ _ _ _ _ E').
  - inversion E as [E']. now apply (deleteShare_refused _ _ _ _ _ E').
Qed.

Lemma X3_witness :
  snd (postFolder exDb2 1 (Some (Js.lit " 2024")) (Some 1)) = exDb2.
Proof.
  apply (X3_refused_request_changes_nothing O exDb2
           (PostFolder 1 (Some (Js.lit " 2024")) (Some 1))
           (fst (postFolder exDb2 1 (Some (Js.lit " 2024")) (Some 1)))).
  - reach_exDb2.
  - reflexivity.
  - vm_compute. discriminate.
  - vm_compute. discriminate.
Defined.

(* ================================================================== *)
(** * What each request does to the tables *)
(* ================================================================== *)

Lemma postFolder_effect db u name p res db' :
  postFolder db u name p = (res, db') ->
  db' = db
  \/ exists n,
       validName name = Some n
       /\ Prisma.folder_findFirst (folders db) (sameTriple n u (parentScope p))
          = None
       /\ db' = mkDb (folders db
                      ++ [Folder.mk (folderSeq db + 1) n u (parentScope p)])
                     (files db) (shareLinks db) (folderSeq db + 1)
                     (fileSeq db) (shareSeq db).
Proof.
  unfold postFolder, Prisma.folder_create. fold (parentScope p).
  intro E. destruct (validName name) as [n|]; [|left; now inversion E].
  destruct (Js.length n >? 255); [left; now inversion E|].
  match type of E with
  | context [match ?c with Some r => _ | None => _ end] =>
      destruct c as [r0|]; [left; now inversion E|]
  end.
  destruct (Prisma.folder_findFirst _ _) eqn:Ef; [left; now inversion E|].
  right. exists n. inversion E; subst. auto.
Qed.

Lemma putFolder_effect fuel db u i name p res db' :
  putFolder fuel db u i name p = Some (res, db') ->
  db' = db
  \/ exists fi n,
       verifyFolderOwnership db u i = inr fi
       /\ validName name = Some n
       /\ Prisma.folder_findFirst (folders db)
            (fun f => sameTriple n u p f && negb (Folder.id f =? i)) = None
       /\ db' = mkDb (map (Prisma.folder_set i n p) (folders db)) (files db)
                     (shareLinks db) (folderSeq db) (fileSeq db) (shareSeq db).
Proof.
  unfold putFolder. intro E.
  destruct (verifyFolderOwnership db u i) as [r|fi] eqn:Ev;
    [left; now inversion E|].
  destruct (validName name) as [n|]; [|left; now inversion E].
  destruct (Js.length n >? 255); [left; now inversion E|].
  assert (Hc : forall q r0 d0, putFolderCommit db u i n q = (r0, d0) ->
            d0 = db
            \/ (Prisma.folder_findFirst (folders db)
                  (fun f => sameTriple n u q f && negb (Folder.id f =? i)) = None
                /\ d0 = mkDb (map (Prisma.folder_set i n q) (folders db))
                             (files db) (shareLinks db) (folderSeq db)
                             (fileSeq db) (shareSeq db))).
  { intros q r0 d0 Ec. unfold putFolderCommit, Prisma.folder_update in Ec.
    unfold sameTriple.
    destruct (Prisma.folder_findFirst _ _) eqn:Ef; [left; now inversion Ec|].
    destruct (Prisma.folder_findUnique (folders db) i);
      [|left; now inversion Ec].
    right. inversion Ec; subst. auto. }
  destruct p as [P|].
  - destruct (P =? i); [left; now inversion E|].
    destruct (Prisma.folder_findUnique (folders db) P) as [g|];
      [|left; now inversion E].
    destruct (negb (Folder.ownerId g =? u)); [left; now inversion E|].
    destruct (checkCircularReference fuel (folders db) (Some P) i)
      as [[|]|]; [left; now inversion E| |discriminate].
    inversion E as [E']. destruct (Hc _ _ _ E') as [->|[H1 H2]];
      [now left | right; exists fi, n; auto].
  - inversion E as [E']. destruct (Hc _ _ _ E') as [->|[H1 H2]];
      [now left | right; exists fi, n; auto].
Qed.

Lemma deleteFolder_effect h fuel db u i force res db' :
  InvH h db ->
  deleteFolder fuel db u i force = Some (res, db') ->
  (db' = db /\ status res <> 200)
  \/ exists fi keep,
       verifyFolderOwnership db u i = inr fi
       /\ status res = 200
       /\ InvH h db'
       /\ folders db' = filter keep (folders db)
       /\ (forall f, In f (folders db) ->
             (keep f = false <-> chain (folders db) (Some (Folder.id f)) i))
       /\ files db' = Prisma.cascade_files (folders db') (files db)
       /\ shareLinks db'
          = Prisma.cascade_links (folders db') (shareLinks db)
       /\ folderSeq db' = folderSeq db /\ fileSeq db' = fileSeq db
       /\ shareSeq db' = shareSeq db.
Proof.
  intros I E. unfold deleteFolder in E.
  destruct (verifyFolderOwnership db u i) as [r|fi] eqn:Ev.
  { left. injection E as Er0 Ed0. subst res db'. split; [reflexivity|].
    unfold verifyFolderOwnership in Ev.
    destruct (Prisma.folder_findUnique (folders db) i) as [f|];
      [destruct (negb (Folder.ownerId f =? u))|];
      inversion Ev; simpl; lia. }
  destruct (verify_inr _ _ _ _ Ev) as [Efi [Hfi [Eid Eown]]].
  destruct force.
  - rewrite andb_false_r in E.
    destruct (deleteFolderRecursively fuel db i u) as [r|] eqn:Er;
      [|discriminate].
    apply (deleteFolderRecursively_mono fuel (Nat.max fuel (S (h i)))) in Er;
      [|lia].
    destruct (deleteFolderRecursively_ok h u (Nat.max fuel (S (h i))) db i I)
      as [r' [Er' P]]; [eauto | lia |].
    rewrite Er in Er'. inversion Er'; subst r'. clear Er'.
    destruct P as [Err [I' [[keep [Ek Hk]] [Fl [Lk [S1 [S2 [S3 T]]]]]]]].
    rewrite Err in E. injection E as Er0 Ed. subst res db'.
    right. exists fi, keep.
    simpl. repeat (split; [assumption || reflexivity|]). assumption.
  - rewrite andb_true_r in E.
    destruct (Prisma.folder_count (folders db) (childOf i u) >? 0) eqn:Ec;
      [left; simpl in E; inversion E; split; [reflexivity | simpl; lia]|].
    destruct (Prisma.file_count (files db) (fileIn i u) >? 0) eqn:Ef;
      [left; simpl in E; inversion E; split; [reflexivity | simpl; lia]|].
    simpl in E.
    pose proof (no_children h db u i fi I Ev Ec) as NoCh.
    destruct (folder_delete_childless h db i fi I Efi NoCh) as [Ed I'].
    rewrite Ed in E. injection E as Er0 Ed0. subst res db'. right.
    exists fi, (fun f => negb (Folder.id f =? i)).
    simpl. split; [reflexivity|]. split; [reflexivity|].
    split; [assumption|]. split; [reflexivity|].
    split; [|repeat (split; [reflexivity|]); reflexivity].
    intros f Hf. rewrite negb_false_iff, Z.eqb_eq. split.
    + intros ->. apply chain_here.
    + intro Hc. destruct (Z.eq_dec (Folder.id f) i) as [|Ne]; [assumption|].
      destruct (chain_last _ _ _ Hc _ eq_refl Ne) as [c [Hc1 [Hc2 _]]].
      now elim (NoCh c Hc1).
Qed.

Lemma saveFiles_effect batch :
  forall db u d saved db' destroyed,
    saveFiles db u d batch = (saved, db', destroyed) ->
    folders db' = folders db
    /\ shareLinks db' = shareLinks db
    /\ files db' = files db ++ saved
    /\ (forall s, In s saved ->
          File.ownerId s = u /\ File.folderId s = d /\ fileSeq db < File.id s)
    /\ folderSeq db' = folderSeq db /\ shareSeq db' = shareSeq db
    /\ fileSeq db' = fileSeq db + Z.of_nat (List.length saved).
Proof.
  induction batch as [|[file dbError] rest IH];
    intros db u d saved db' destroyed E; simpl in E.
  - inversion E; subst. rewrite app_nil_r. simpl.
    repeat split; try reflexivity; try lia; contradiction.
  - destruct dbError.
    + destruct (saveFiles db u d rest) as [[s1 d1] x1] eqn:E1.
      inversion E; subst. now apply (IH _ _ _ _ _ _ E1).
    + unfold Prisma.file_create in E.
      match type of E with
      | context [saveFiles ?D u d rest] =>
          destruct (saveFiles D u d rest) as [[s1 d1] x1] eqn:E1
      end.
      inversion E; subst.
      destruct (IH _ _ _ _ _ _ E1) as [H1 [H2 [H3 [H4 [H5 [H6 H7]]]]]].
      simpl in *. split; [assumption|]. split; [assumption|].
      split; [rewrite H3, <- app_assoc; reflexivity|].
      split; [|split; [assumption|split; [assumption|]]].
      * intros s [<-|Hs]; [simpl; repeat split; lia|].
        destruct (H4 s Hs) as [A [B C]]. repeat split; auto. lia.
      * rewrite H7. lia.
Qed.

Lemma uploadFiles_effect db u d batch res db' destroyed :
  uploadFiles db u d batch = (res, db', destroyed) ->
  exists saved,
    folders db' = folders db
    /\ shareLinks db' = shareLinks db
    /\ files db' = files db ++ saved
    /\ (forall s, In s saved ->
          File.ownerId s = u /\ File.folderId s = d /\ fileSeq db < File.id s)
    /\ folderSeq db' = folderSeq db /\ shareSeq db' = shareSeq db.
Proof.
  unfold uploadFiles. intro E.
  assert (Same : forall r0 x0, (r0, db, x0) = (res, db', destroyed) ->
            exists saved,
              folders db' = folders db /\ shareLinks db' = shareLinks db
              /\ files db' = files db ++ saved
              /\ (forall s, In s saved ->
                    File.ownerId s = u /\ File.folderId s = d
                    /\ fileSeq db < File.id s)
              /\ folderSeq db' = folderSeq db /\ shareSeq db' = shareSeq db).
  { intros r0 x0 E0. inversion E0; subst. exists []. rewrite app_nil_r.
    repeat split; try reflexivity; contradiction. }
  match type of E with
  | context [match ?c with Some r => _ | None => _ end] =>
      destruct c as [r0|]; [now apply (Same _ _ E)|]
  end.
  destruct batch as [|b0 rest]; [now apply (Same _ _ E)|].
  destruct (saveFiles db u d (b0 :: rest)) as [[saved d1] x1] eqn:Es.
  destruct (saveFiles_effect _ _ _ _ _ _ _ Es) as [H1 [H2 [H3 [H4 [H5 [H6 _]]]]]].
  exists saved.
  assert (Ed : db' = d1) by (destruct saved; now inversion E).
  rewrite Ed. tauto.
Qed.

Lemma verifyFile_inr db u i file :
  verifyFileOwnership db u i = inr file ->
  Prisma.file_findUnique (files db) i = Some file
  /\ In file (files db) /\ File.id file = i /\ File.ownerId file = u.
Proof.
  unfold verifyFileOwnership. intro H.
  destruct (Prisma.file_findUnique (files db) i) as [x|] eqn:E; [|discriminate].
  destruct (negb (File.ownerId x =? u)) eqn:Eo; [discriminate|].
  inversion H; subst. apply negb_false_iff in Eo. apply Z.eqb_eq in Eo.
  destruct (file_findUnique_Some _ _ _ E). tauto.
Qed.

Lemma putFile_effect db u i name d res db' :
  putFile db u i name d = (res, db') ->
  db' = db
  \/ exists file n,
       verifyFileOwnership db u i = inr file
       /\ validName name = Some n
       /\ db' = mkDb (folders db) (map (Prisma.file_set i n d) (files db))
                     (shareLinks db) (folderSeq db) (fileSeq db) (shareSeq db).
Proof.
  unfold putFile, Prisma.file_update. intro E.
  destruct (verifyFileOwnership db u i) as [r|file] eqn:Ev;
    [left; now inversion E|].
  destruct (validName name) as [n|]; [|left; now inversion E].
  destruct (Js.length n >? 255); [left; now inversion E|].
  match type of E with
  | context [match ?c with Some r => _ | None => _ end] =>
      destruct c as [r0|]; [left; now inversion E|]
  end.
  destruct (Prisma.file_findFirst _ _); [left; now inversion E|].
  destruct (Prisma.file_findUnique (files db) i); [|left; now inversion E].
  right. exists file, n. inversion E; subst. auto.
Qed.

Lemma deleteFile_effect db u i res db' destroyed :
  deleteFile db u i = (res, db', destroyed) ->
  (db' = db /\ destroyed = [])
  \/ exists file,
       verifyFileOwnership db u i = inr file
       /\ status res = 200
       /\ destroyed = [File.publicId file]
       /\ db' = mkDb (folders db)
                     (filter (fun x => negb (File.id x =? i)) (files db))
                     (shareLinks db) (folderSeq db) (fileSeq db) (shareSeq db).
Proof.
  unfold deleteFile, Prisma.file_delete. intro E.
  destruct (verifyFileOwnership db u i) as [r|file] eqn:Ev;
    [left; now inversion E|].
  destruct (Prisma.file_findUnique (files db) i); [|left; now inversion E].
  right. exists file. inversion E; subst. auto.
Qed.

Lemma postShare_effect db u i duration zone now created token baseUrl res db' :
  postShare db u i duration zone now created token baseUrl = (res, db') ->
  db' = db
  \/ exists g e,
       Prisma.folder_findUnique (folders db) i = Some g
       /\ Folder.ownerId g = u
       /\ computeExpiry zone now (requested duration) = Some e
       /\ Prisma.shareLink_findFirst (shareLinks db) token = None
       /\ res = json 201 (BShareLink "Share link created successfully"
                  (ShareLink.mk (shareSeq db + 1) token i e created)
                  (baseUrl ++ "/share/" ++ token)%string
                  (Folder.id g) (Folder.name g))
       /\ db' = mkDb (folders db) (files db)
                     (shareLinks db
                      ++ [ShareLink.mk (shareSeq db + 1) token i e created])
                     (folderSeq db) (fileSeq db) (shareSeq db + 1).
Proof.
  unfold postShare, Prisma.shareLink_create. fold (requested duration).
  intro E.
  destruct (Prisma.folder_findUnique (folders db) i) as [g|];
    [|left; now inversion E].
  destruct (negb (Folder.ownerId g =? u)) eqn:Eo; [left; now inversion E|].
  destruct (computeExpiry zone now (requested duration)) as [e|];
    [|left; now inversion E].
  destruct (Prisma.shareLink_findFirst (shareLinks db) token);
    [left; now inversion E|].
  right. exists g, e. apply owner_check in Eo.
  injection E as Er Ed. subst res db'. auto 7.
Qed.

Lemma deleteShare_effect db u i res db' :
  deleteShare db u i = (res, db') ->
  (db' = db /\ status res <> 200)
  \/ exists link g,
       Prisma.shareLink_findUnique (shareLinks db) i = Some link
       /\ Prisma.folder_findUnique (folders db) (ShareLink.folderId link)
          = Some g
       /\ Folder.ownerId g = u
       /\ status res = 200
       /\ db' = mkDb (folders db) (files db)
                     (filter (fun x => negb (ShareLink.id x =? i))
                             (shareLinks db))
                     (folderSeq db) (fileSeq db) (shareSeq db).
Proof.
  unfold deleteShare, Prisma.shareLink_delete. intro E.
  destruct (Prisma.shareLink_findUnique (shareLinks db) i) as [link|] eqn:El;
    [|left; inversion E; split; [reflexivity | simpl; lia]].
  destruct (Prisma.folder_findUnique (folders db) (ShareLink.folderId link))
    as [g|] eqn:Eg; [|left; inversion E; split; [reflexivity | simpl; lia]].
  destruct (negb (Folder.ownerId g =? u)) eqn:Eo;
    [left; inversion E; split; [reflexivity | simpl; lia]|].
  right. exists link, g. apply owner_check in Eo.
  injection E as Er Ed. subst res db'.
  split; [reflexivity|]. split; [exact Eg|]. split; [assumption|].
  split; reflexivity.
Qed.

(* ================================================================== *)
(** * Requests touch only the rows of their user *)
(* ================================================================== *)

Lemma filter_map_fix (A : Type) (p : A -> bool) (g : A -> A) (l : list A) :
  (forall x, In x l -> p (g x) = p x) ->
  (forall x, In x l -> p x = true -> g x = x) ->
  filter p (map g l) = filter p l.
Proof.
  induction l as [|a l IH]; simpl; intros H1 H2; [reflexivity|].
  rewrite (H1 a (or_introl eq_refl)).
  destruct (p a) eqn:Ea.
  - rewrite (H2 a (or_introl eq_refl) Ea). f_equal.
    apply IH; intros; [apply H1 | apply H2]; auto.
  - apply IH; intros; [apply H1 | apply H2]; auto.
Qed.

Lemma filter_filter_keep (A : Type) (p q : A -> bool) (l : list A) :
  (forall x, In x l -> p x = true -> q x = true) ->
  filter p (filter q l) = filter p l.
Proof.
  intro H. rewrite filter_filter_andb. apply filter_ext_in.
  intros x Hx. destruct (p x) eqn:Ep.
  - now rewrite (H x Hx Ep).
  - apply andb_false_r.
Qed.

Lemma filter_app_none (A : Type) (p : A -> bool) (l l' : list A) :
  (forall x, In x l' -> p x = false) -> filter p (l ++ l') = filter p l.
Proof.
  intro H. rewrite filter_app.
  assert (filter p l' = []) as ->; [|apply app_nil_r].
  induction l' as [|a l' IH]; simpl; [reflexivity|].
  rewrite (H a (or_introl eq_refl)). apply IH. intros x Hx. apply H. now right.
Qed.

Lemma cascade_files_keeps h db keep v u :
  InvH h db -> v <> u ->
  (forall f, In f (folders db) -> keep f = false ->
             Folder.ownerId f = u) ->
  filter (ownedFile v)
    (Prisma.cascade_files (filter keep (folders db)) (files db))
  = filter (ownedFile v) (files db)
  /\ filter (ownedFolder v) (filter keep (folders db))
     = filter (ownedFolder v) (folders db).
Proof.
  intros I Ne Hk.
  assert (Kf : forall f, In f (folders db) -> Folder.ownerId f = v ->
                         keep f = true).
  { intros f Hf Of. destruct (keep f) eqn:K; [reflexivity|].
    apply (Hk f Hf) in K. congruence. }
  split.
  - unfold Prisma.cascade_files. apply filter_filter_keep.
    intros x Hx Ox. unfold ownedFile in Ox. apply Z.eqb_eq in Ox.
    destruct (File.folderId x) as [d|] eqn:Ed; [|reflexivity].
    destruct (inv_files h db I x d Hx Ed) as [g [Hg [Eg Og]]].
    apply present_iff. exists g. split; [|assumption].
    apply filter_In. split; [assumption|]. apply (Kf g Hg). congruence.
  - apply filter_filter_keep. intros f Hf Of. unfold ownedFolder in Of.
    apply Z.eqb_eq in Of. now apply Kf.
Qed.

(** X4.  On every reachable database a request of user u leaves the
    folder rows and the file rows of every other user exactly as they
    were, whatever the request and its outcome. *)
Theorem X4_other_users_rows_untouched fuel db req res db' v :
  reachable db ->
  handle fuel db req = Some (res, db') ->
  v <> userOf req ->
  filter (ownedFolder v) (folders db') = filter (ownedFolder v) (folders db)
  /\ filter (ownedFile v) (files db') = filter (ownedFile v) (files db).
Proof.
  intros Hr E Ne. destruct (reachable_inv db Hr) as [h I].
  destruct req as [u name p | u i name p | u i force | u d batch
                   | u i name d | u i | u i duration zone now created token baseUrl
                   | u i]; simpl in E, Ne.
  - inversion E as [E']. clear E.
    destruct (postFolder_effect _ _ _ _ _ _ E') as [->|[n [_ [_ ->]]]];
      [split; reflexivity|]. simpl. split; [|reflexivity].
    apply filter_app_none. intros x [<-|[]]. unfold ownedFolder. simpl.
    apply Z.eqb_neq. congruence.
  - destruct (putFolder_effect _ _ _ _ _ _ _ _ E) as [->|[fi [n [Ev [_ [_ ->]]]]]];
      [split; reflexivity|]. simpl. split; [|reflexivity].
    destruct (verify_inr _ _ _ _ Ev) as [Efi [Hfi [Eid Eown]]].
    apply filter_map_fix.
    + intros x Hx. unfold ownedFolder. now rewrite folder_set_owner.
    + intros x Hx Ox. unfold ownedFolder in Ox. apply Z.eqb_eq in Ox.
      unfold Prisma.folder_set.
      destruct (Z.eqb_spec (Folder.id x) i) as [Ei|]; [|reflexivity].
      assert (x = fi) by (apply (nodup_same_id (folders db)); auto;
                          [exact (inv_nodup h db I) | congruence]).
      subst x. congruence.
  - destruct (deleteFolder_effect h _ _ _ _ _ _ _ I E)
      as [[-> _]|[fi [keep [Ev [_ [_ [Ek [Hk [Fl _]]]]]]]]];
      [split; reflexivity|].
    destruct (verify_inr _ _ _ _ Ev) as [Efi [Hfi [Eid Eown]]].
    rewrite Fl, Ek.
    destruct (cascade_files_keeps h db keep v u I Ne) as [H1 H2];
      [|split; assumption].
    intros f Hf K. apply (Hk f Hf) in K.
    rewrite <- Eown. apply (chain_owner h db _ _ I K f fi); auto.
  - destruct (uploadFiles db u d batch) as [[r d1] x] eqn:Eu.
    inversion E; subst. clear E.
    destruct (uploadFiles_effect _ _ _ _ _ _ _ Eu)
      as [saved [H1 [_ [H3 [H4 _]]]]].
    rewrite H1, H3. split; [reflexivity|].
    apply filter_app_none. intros s Hs. destruct (H4 s Hs) as [Os _].
    unfold ownedFile. apply Z.eqb_neq. congruence.
  - inversion E as [E']. clear E.
    destruct (putFile_effect _ _ _ _ _ _ _ E') as [->|[file [n [Ev [_ ->]]]]];
      [split; reflexivity|]. simpl. split; [reflexivity|].
    destruct (verifyFile_inr _ _ _ _ Ev) as [Ef [Hf [Eid Eown]]].
    apply filter_map_fix.
    + intros x Hx. unfold ownedFile. now rewrite file_set_owner.
    + intros x Hx Ox. unfold ownedFile in Ox. apply Z.eqb_eq in Ox.
      unfold Prisma.file_set.
      destruct (Z.eqb_spec (File.id x) i) as [Ei|]; [|reflexivity].
      assert (x = file) by (apply (nodup_same_file_id (files db)); auto;
                            [exact (inv_file_nodup h db I) | congruence]).
      subst x. congruence.
  - destruct (deleteFile db u i) as [[r d1] x] eqn:Eu.
    inversion E; subst. clear E.
    destruct (deleteFile_effect _ _ _ _ _ _ Eu)
      as [[-> _]|[file [Ev [_ [_ ->]]]]]; [split; reflexivity|].
    simpl. split; [reflexivity|].
    destruct (verifyFile_inr _ _ _ _ Ev) as [Ef [Hf [Eid Eown]]].
    apply filter_filter_keep. intros y Hy Oy.
    unfold ownedFile in Oy. apply Z.eqb_eq in Oy.
    apply negb_true_iff. apply Z.eqb_neq. intro Ei.
    assert (y = file) by (apply (nodup_same_file_id (files db)); auto;
                          [exact (inv_file_nodup h db I) | congruence]).
    subst y. congruence.
  - inversion E as [E']. clear E.
    destruct (postShare_effect _ _ _ _ _ _ _ _ _ _ _ E')
      as [->|[g [e [_ [_ [_ [_ [_ ->]]]]]]]]; split; reflexivity.
  - inversion E as [E']. clear E.
    destruct (deleteShare_effect _ _ _ _ _ E')
      as [[-> _]|[link [g [_ [_ [_ [_ ->]]]]]]]; split; reflexivity.
Qed.

Lemma X4_witness :
  filter (ownedFolder 2) (folders (snd (match handle 3 exDb6 (DeleteFolder 1 1 true) with
                                        | Some p => p
                                        | None => (json 500 (BMessage ""), exDb6)
                                        end)))
  = [Folder.mk 4 (Js.lit "Private") 2 None].
Proof.
  destruct (X4_other_users_rows_untouched 3 exDb6 (DeleteFolder 1 1 true)
              (fst (match handle 3 exDb6 (DeleteFolder 1 1 true) with
                    | Some p => p
                    | None => (json 500 (BMessage ""), exDb6)
                    end))
              (snd (match handle 3 exDb6 (DeleteFolder 1 1 true) with
                    | Some p => p
                    | None => (json 500 (BMessage ""), exDb6)
                    end)) 2) as [H _].
  - reach_exDb6.
  - reflexivity.
  - simpl. discriminate.
  - rewrite H. reflexivity.
Defined.

(* ================================================================== *)
(** * Sibling names stay unique *)
(* ================================================================== *)

Lemma sameTriple_true n o p f :
  Folder.name f = n -> Folder.ownerId f = o -> Folder.parentId f = p ->
  sameTriple n o p f = true.
Proof.
  intros <- <- <-. unfold sameTriple.
  rewrite Z.eqb_refl, andb_true_r.
  apply andb_true_iff. split; [now apply Js_eqb_eq | now apply optZ_eqb_eq].
Qed.

Lemma siblings_create fs i n o p :
  SiblingsUnique fs ->
  Prisma.folder_findFirst fs (sameTriple n o p) = None ->
  SiblingsUnique (fs ++ [Folder.mk i n o p]).
Proof.
  intros U Hn f g Hf Hg En Eo Ep.
  pose proof (find_none _ _ Hn) as Hnone.
  apply in_app_or in Hf. apply in_app_or in Hg.
  destruct Hf as [Hf|[<-|[]]], Hg as [Hg|[<-|[]]]; simpl in *.
  - now apply U.
  - specialize (Hnone f Hf). rewrite sameTriple_true in Hnone; auto.
    discriminate.
  - specialize (Hnone g Hg). rewrite sameTriple_true in Hnone; auto.
    discriminate.
  - reflexivity.
Qed.

Lemma siblings_update fs i n o p fi :
  NoDup (map Folder.id fs) ->
  SiblingsUnique fs ->
  In fi fs -> Folder.id fi = i -> Folder.ownerId fi = o ->
  Prisma.folder_findFirst fs
    (fun f => sameTriple n o p f && negb (Folder.id f =? i)) = None ->
  SiblingsUnique (map (Prisma.folder_set i n p) fs).
Proof.
  intros ND U Hfi Eid Eown Hn f' g' Hf' Hg' En Eo Ep.
  pose proof (find_none _ _ Hn) as Hnone.
  apply in_map_iff in Hf'. destruct Hf' as [f [<- Hf]].
  apply in_map_iff in Hg'. destruct Hg' as [g [<- Hg]].
  assert (Clash : forall a b, In a fs -> In b fs ->
            Folder.id a = i -> Folder.id b <> i ->
            Folder.name b = n -> Folder.ownerId b = o ->
            Folder.parentId b = p -> False).
  { intros a b Ha Hb Ea Nb E1 E2 E3. specialize (Hnone b Hb). simpl in Hnone.
    rewrite (sameTriple_true n o p b E1 E2 E3) in Hnone.
    apply Z.eqb_neq in Nb. rewrite Nb in Hnone. discriminate. }
  unfold Prisma.folder_set in *.
  destruct (Z.eqb_spec (Folder.id f) i) as [Ef|Nf],
           (Z.eqb_spec (Folder.id g) i) as [Eg|Ng]; simpl in *.
  - assert (f = g) by (apply (nodup_same_id fs); auto; congruence).
    now subst.
  - exfalso. assert (f = fi) by (apply (nodup_same_id fs); auto; congruence).
    subst f. apply (Clash fi g); auto; congruence.
  - exfalso. assert (g = fi) by (apply (nodup_same_id fs); auto; congruence).
    subst g. apply (Clash fi f); auto; congruence.
  - now apply U.
Qed.

Lemma siblings_filter fs keep :
  SiblingsUnique fs -> SiblingsUnique (filter keep fs).
Proof.
  intros U f g Hf Hg. apply filter_In in Hf. apply filter_In in Hg.
  apply U; tauto.
Qed.

(** X5.  In every reachable database no two folders have the same
    owner, the same parent and the same name. *)
Theorem X5_sibling_names_unique db :
  reachable db -> SiblingsUnique (folders db).
Proof.
  induction 1 as [|db fuel req res db' Hr IH E].
  - intros f g [].
  - destruct (reachable_inv db Hr) as [h I].
    destruct req as [u name p | u i name p | u i force | u d batch
                     | u i name d | u i | u i duration zone now created token baseUrl
                     | u i]; simpl in E.
    + inversion E as [E']. clear E.
      destruct (postFolder_effect _ _ _ _ _ _ E') as [->|[n [_ [Hn ->]]]];
        [assumption|]. simpl. now apply siblings_create.
    + destruct (putFolder_effect _ _ _ _ _ _ _ _ E)
        as [->|[fi [n [Ev [_ [Hn ->]]]]]]; [assumption|]. simpl.
      destruct (verify_inr _ _ _ _ Ev) as [Efi [Hfi [Eid Eown]]].
      apply (siblings_update _ _ _ u _ fi); auto. exact (inv_nodup h db I).
    + destruct (deleteFolder_effect h _ _ _ _ _ _ _ I E)
        as [[-> _]|[fi [keep [_ [_ [_ [Ek _]]]]]]]; [assumption|].
      rewrite Ek. now apply siblings_filter.
    + destruct (uploadFiles db u d batch) as [[r d1] x] eqn:Eu.
      inversion E; subst. clear E.
      destruct (uploadFiles_effect _ _ _ _ _ _ _ Eu) as [saved [H1 _]].
      now rewrite H1.
    + inversion E as [E']. clear E.
      destruct (putFile_effect _ _ _ _ _ _ _ E') as [->|[file [n [_ [_ ->]]]]];
        assumption.
    + destruct (deleteFile db u i) as [[r d1] x] eqn:Eu.
      inversion E; subst. clear E.
      destruct (deleteFile_effect _ _ _ _ _ _ Eu)
        as [[-> _]|[file [_ [_ [_ ->]]]]]; assumption.
    + inversion E as [E']. clear E.
      destruct (postShare_effect _ _ _ _ _ _ _ _ _ _ _ E')
        as [->|[g [e [_ [_ [_ [_ [_ ->]]]]]]]]; assumption.
    + inversion E as [E']. clear E.
      destruct (deleteShare_effect _ _ _ _ _ E')
        as [[-> _]|[link [g [_ [_ [_ [_ ->]]]]]]]; assumption.
Qed.

Lemma X5_witness : SiblingsUnique (folders exDb6).
Proof.
  apply X5_sibling_names_unique. reach_exDb6.
Defined.

(* ================================================================== *)
(** * Revoking share links *)
(* ================================================================== *)

Lemma link_not_found l tok :
  (forall x, In x l -> ShareLink.token x <> tok) ->
  Prisma.shareLink_findFirst l tok = None.
Proof.
  intro H. destruct (Prisma.shareLink_findFirst l tok) as [x|] eqn:E;
    [|reflexivity].
  apply link_found in E. destruct E as [Hx Ex]. now elim (H x Hx).
Qed.

Lemma link_absent l tok :
  Prisma.shareLink_findFirst l tok = None ->
  forall x, In x l -> ShareLink.token x <> tok.
Proof.
  unfold Prisma.shareLink_findFirst. intros H x Hx E.
  apply (find_none _ _ H) in Hx. simpl in Hx.
  apply String.eqb_neq in Hx. contradiction.
Qed.

Lemma find_filter_keep (A : Type) (p q : A -> bool) (l : list A) :
  (forall x, In x l -> p x = true -> q x = true) ->
  find p (filter q l) = find p l.
Proof.
  induction l as [|a l IH]; simpl; intro H; [reflexivity|].
  destruct (q a) eqn:Eq; simpl.
  - destruct (p a); [reflexivity|]. apply IH. intros x Hx. apply H. now right.
  - destruct (p a) eqn:Ep.
    + rewrite (H a (or_introl eq_refl) Ep) in Eq. discriminate.
    + apply IH. intros x Hx. apply H. now right.
Qed.

Lemma nodup_same_token l x y :
  NoDup (map ShareLink.token l) -> In x l -> In y l ->
  ShareLink.token x = ShareLink.token y -> x = y.
Proof.
  induction l as [|a l IH]; simpl; intros ND Hx Hy E; [contradiction|].
  inversion ND as [|? ? Hn ND']; subst.
  destruct Hx as [->|Hx], Hy as [->|Hy].
  - reflexivity.
  - exfalso. apply Hn. rewrite E. now apply in_map.
  - exfalso. apply Hn. rewrite <- E. now apply in_map.
  - now apply IH.
Qed.

Lemma nodup_same_link_id l x y :
  NoDup (map ShareLink.id l) -> In x l -> In y l ->
  ShareLink.id x = ShareLink.id y -> x = y.
Proof.
  induction l as [|a l IH]; simpl; intros ND Hx Hy E; [contradiction|].
  inversion ND as [|? ? Hn ND']; subst.
  destruct Hx as [->|Hx], Hy as [->|Hy].
  - reflexivity.
  - exfalso. apply Hn. rewrite E. now apply in_map.
  - exfalso. apply Hn. rewrite <- E. now apply in_map.
  - now apply IH.
Qed.

(** Tokens and link ids are unique in every reachable database. *)
Lemma reachable_links db :
  reachable db ->
  TokensUnique db
  /\ NoDup (map ShareLink.id (shareLinks db))
  /\ forall l, In l (shareLinks db) -> ShareLink.id l <= shareSeq db.
Proof.
  unfold TokensUnique. induction 1 as [|db fuel req res db' Hr IH E].
  - simpl. repeat split; try constructor. intros l [].
  - destruct IH as [T [N S]]. destruct (reachable_inv db Hr) as [h I].
    assert (Filt : forall q,
              NoDup (map ShareLink.token (filter q (shareLinks db)))
              /\ NoDup (map ShareLink.id (filter q (shareLinks db)))
              /\ forall l, In l (filter q (shareLinks db)) ->
                           ShareLink.id l <= shareSeq db).
    { intro q. split; [now apply nodup_map_filter|].
      split; [now apply nodup_map_filter|].
      intros l Hl. apply filter_In in Hl. apply S. tauto. }
    destruct req as [u name p | u i name p | u i force | u d batch
                     | u i name d | u i | u i duration zone now created token baseUrl
                     | u i]; simpl in E.
    + inversion E as [E']. clear E.
      destruct (postFolder_effect _ _ _ _ _ _ E') as [->|[n [_ [_ ->]]]];
        simpl; auto.
    + destruct (putFolder_effect _ _ _ _ _ _ _ _ E)
        as [->|[fi [n [_ [_ [_ ->]]]]]]; simpl; auto.
    + destruct (deleteFolder_effect h _ _ _ _ _ _ _ I E)
        as [[-> _]|[fi [keep [_ [_ [_ [_ [_ [_ [Lk [_ [_ S3]]]]]]]]]]]]; auto.
      rewrite Lk, S3. apply Filt.
    + destruct (uploadFiles db u d batch) as [[r d1] x] eqn:Eu.
      inversion E; subst. clear E.
      destruct (uploadFiles_effect _ _ _ _ _ _ _ Eu)
        as [saved [_ [H2 [_ [_ [_ H6]]]]]].
      rewrite H2, H6. auto.
    + inversion E as [E']. clear E.
      destruct (putFile_effect _ _ _ _ _ _ _ E') as [->|[file [n [_ [_ ->]]]]];
        simpl; auto.
    + destruct (deleteFile db u i) as [[r d1] x] eqn:Eu.
      inversion E; subst. clear E.
      destruct (deleteFile_effect _ _ _ _ _ _ Eu)
        as [[-> _]|[file [_ [_ [_ ->]]]]]; simpl; auto.
    + inversion E as [E']. clear E.
      destruct (postShare_effect _ _ _ _ _ _ _ _ _ _ _ E')
        as [->|[g [e [_ [_ [_ [Hn [_ ->]]]]]]]]; simpl; auto.
      pose proof (link_absent _ _ Hn) as Ha.
      rewrite !map_app. simpl. split; [|split].
      * apply NoDup_app; [assumption | repeat constructor; intros [] |].
        intros a Ha1 [<-|[]]. apply in_map_iff in Ha1.
        destruct Ha1 as [l [El Hl]]. now apply (Ha l Hl).
      * apply NoDup_app; [assumption | repeat constructor; intros [] |].
        intros a Ha1 [<-|[]]. apply in_map_iff in Ha1.
        destruct Ha1 as [l [El Hl]]. specialize (S l Hl). lia.
      * intros l Hl. apply in_app_or in Hl. destruct Hl as [Hl|[<-|[]]].
        -- specialize (S l Hl). lia.
        -- simpl. lia.
    + inversion E as [E']. clear E.
      destruct (deleteShare_effect _ _ _ _ _ E')
        as [[-> _]|[link [g [_ [_ [_ [_ ->]]]]]]]; simpl; auto.
Qed.

(** X6.  When DELETE /api/sharelinks/:id answers 200, the token of the
    revoked link is unknown to both public routes from then on (404 at
    every instant), while every other token is looked up as before and
    no folder or file is touched. *)
Theorem X6_revoked_link_not_found db u i res db' :
  reachable db ->
  deleteShare db u i = (res, db') ->
  status res = 200 ->
  exists link,
    Prisma.shareLink_findUnique (shareLinks db) i = Some link
    /\ (forall fuel now,
          getShared fuel db' (ShareLink.token link) now
          = Some (json 404 (BMessage "Share link not found")))
    /\ (forall fuel fileId now,
          getSharedFile fuel db' (ShareLink.token link) fileId now
          = Some (json 404 (BMessage "Share link not found")))
    /\ (forall tok, tok <> ShareLink.token link ->
          Prisma.shareLink_findFirst (shareLinks db') tok
          = Prisma.shareLink_findFirst (shareLinks db) tok)
    /\ folders db' = folders db /\ files db' = files db.
Proof.
  intros Hr E Hs. destruct (reachable_links db Hr) as [T [N _]].
  destruct (deleteShare_effect _ _ _ _ _ E)
    as [[_ Hn]|[link [g [El [_ [_ [_ ->]]]]]]]; [contradiction|].
  exists link. split; [assumption|]. simpl.
  assert (Hl : In link (shareLinks db) /\ ShareLink.id link = i).
  { unfold Prisma.shareLink_findUnique in El. apply find_some in El.
    destruct El as [H1 H2]. apply Z.eqb_eq in H2. tauto. }
  destruct Hl as [Hl Eid].
  assert (Gone : Prisma.shareLink_findFirst
                   (filter (fun x => negb (ShareLink.id x =? i)) (shareLinks db))
                   (ShareLink.token link) = None).
  { apply link_not_found. intros x Hx Ex. apply filter_In in Hx.
    destruct Hx as [Hx Nx]. apply negb_true_iff in Nx. apply Z.eqb_neq in Nx.
    apply Nx. rewrite <- Eid. f_equal.
    now apply (nodup_same_token (shareLinks db)). }
  split; [|split; [|split; [|split; reflexivity]]].
  - intros fuel now. unfold getShared. simpl. now rewrite Gone.
  - intros fuel fileId now. unfold getSharedFile. simpl. now rewrite Gone.
  - intros tok Ne. unfold Prisma.shareLink_findFirst. apply find_filter_keep.
    intros x Hx Ex. apply String.eqb_eq in Ex.
    apply negb_true_iff. apply Z.eqb_neq. intro Ei.
    assert (x = link)
      by (apply (nodup_same_link_id (shareLinks db)); auto; congruence).
    subst x. congruence.
Qed.

Lemma X6_witness :
  exists link,
    Prisma.shareLink_findUnique (shareLinks exDb4) 1 = Some link
    /\ (forall fuel now,
          getShared fuel (snd (deleteShare exDb4 1 1)) (ShareLink.token link) now
          = Some (json 404 (BMessage "Share link not found"))).
Proof.
  destruct (X6_revoked_link_not_found exDb4 1 1
              (fst (deleteShare exDb4 1 1)) (snd (deleteShare exDb4 1 1)))
    as [link [H1 [H2 _]]].
  - reach_exDb4.
  - reflexivity.
  - reflexivity.
  - exists link. split; [exact H1 | exact H2].
Defined.

Lemma find_present (A : Type) (p : A -> bool) (l : list A) (x : A) :
  In x l -> p x = true -> exists y, find p l = Some y.
Proof.
  induction l as [|a l IH]; simpl; intros Hx Px; [contradiction|].
  destruct (p a) eqn:Ea; [eauto|].
  destruct Hx as [->|Hx]; [congruence | now apply IH].
Qed.

(** X7.  When DELETE /api/folders/:id answers 200, every share link on
    the folder or on one of its descendants is gone with it: its token
    is answered 404 from then on.  The links on folders outside the
    subtree are still found under their tokens. *)
Theorem X7_delete_folder_revokes_links fuel db u F force res db' :
  reachable db ->
  deleteFolder fuel db u F force = Some (res, db') ->
  status res = 200 ->
  forall link, In link (shareLinks db) ->
    (chain (folders db) (Some (ShareLink.folderId link)) F ->
     forall fuel' now,
       getShared fuel' db' (ShareLink.token link) now
       = Some (json 404 (BMessage "Share link not found")))
    /\ (~ chain (folders db) (Some (ShareLink.folderId link)) F ->
        Prisma.shareLink_findFirst (shareLinks db') (ShareLink.token link)
        = Some link).
Proof.
  intros Hr E Hs link Hl. destruct (reachable_inv db Hr) as [h I].
  destruct (reachable_links db Hr) as [T _].
  destruct (deleteFolder_effect h _ _ _ _ _ _ _ I E)
    as [[_ Hn]|[fi [keep [Ev [_ [I' [Ek [Hk [_ [Lk _]]]]]]]]]];
    [contradiction|].
  destruct (inv_links h db I link Hl) as [g [Hg Eg]].
  assert (Hpres : Prisma.folder_present (folders db') (ShareLink.folderId link)
                  = true <-> keep g = true).
  { rewrite present_iff, Ek. split.
    - intros [f [Hf Ef]]. apply filter_In in Hf. destruct Hf as [Hf Kf].
      assert (f = g) by (apply (nodup_same_id (folders db)); auto;
                         [exact (inv_nodup h db I) | congruence]).
      now subst.
    - intro K. exists g. split; [apply filter_In; tauto | assumption]. }
  split.
  - intros Hc fuel' now. unfold getShared.
    rewrite link_not_found; [reflexivity|].
    intros x Hx Ex. rewrite Lk in Hx. unfold Prisma.cascade_links in Hx.
    apply filter_In in Hx. destruct Hx as [Hx Px].
    assert (x = link) by now apply (nodup_same_token (shareLinks db)).
    subst x. apply Hpres in Px.
    rewrite <- Eg in Hc. apply (Hk g Hg) in Hc. congruence.
  - intro Hn.
    assert (Hin : In link (shareLinks db')).
    { rewrite Lk. unfold Prisma.cascade_links. apply filter_In.
      split; [assumption|]. apply Hpres.
      destruct (keep g) eqn:K; [reflexivity|]. exfalso. apply Hn.
      rewrite <- Eg. now apply (Hk g Hg). }
    unfold Prisma.shareLink_findFirst.
    destruct (find_present _
                (fun x => String.eqb (ShareLink.token x) (ShareLink.token link))
                _ link Hin (String.eqb_refl _)) as [y Hy].
    rewrite Hy. f_equal.
    pose proof (link_found _ _ _ Hy) as [Hy1 Hy2].
    apply (nodup_same_token (shareLinks db)); auto.
    rewrite Lk in Hy1. unfold Prisma.cascade_links in Hy1.
    apply filter_In in Hy1. tauto.
Qed.

Lemma X7_witness :
  In (ShareLink.mk 1 exToken 2 (exNow + msPerDay) exNow) (shareLinks exDb4)
  /\ forall fuel' now,
       getShared fuel' (snd (match deleteFolder 3 exDb4 1 1 true with
                             | Some p => p
                             | None => (json 500 (BMessage ""), exDb4)
                             end)) exToken now
       = Some (json 404 (BMessage "Share link not found")).
Proof.
  split; [simpl; left; reflexivity|].
  destruct (X7_delete_folder_revokes_links 3 exDb4 1 1 true
              (fst (match deleteFolder 3 exDb4 1 1 true with
                    | Some p => p
                    | None => (json 500 (BMessage ""), exDb4)
                    end))
              (snd (match deleteFolder 3 exDb4 1 1 true with
                    | Some p => p
                    | None => (json 500 (BMessage ""), exDb4)
                    end)))
    with (link := ShareLink.mk 1 exToken 2 (exNow + msPerDay) exNow)
    as [H _].
  - reach_exDb4.
  - reflexivity.
  - reflexivity.
  - simpl. left. reflexivity.
  - apply H.
    apply (chain_up _ 2 (Folder.mk 2 (Js.lit "2024") 1 (Some 1)) 1).
    + simpl. right. left. reflexivity.
    + reflexivity.
    + apply chain_here.
Defined.

(* ================================================================== *)
(** * The listing of a shared folder and the access by file id agree *)
(* ================================================================== *)

Lemma insertBy_In_inv (A : Type) (key : A -> Js.str) (x y : A) (l : list A) :
  y = x \/ In y l -> In y (insertBy key x l).
Proof.
  induction l as [|a l IH]; simpl.
  - intros [->|[]]. now left.
  - destruct (Js.leb (key x) (key a)); simpl.
    + intros [->|[->|H]]; auto.
    + intros [->|[->|H]]; auto.
Qed.

Lemma orderBy_In_iff (A : Type) (key : A -> Js.str) (y : A) (l : list A) :
  In y (orderBy key l) <-> In y l.
Proof.
  split; [apply orderBy_In|].
  induction l as [|a l IH]; simpl; [tauto|].
  intros [->|H]; apply insertBy_In_inv; auto.
Qed.

Lemma traverse_Some (A B : Type) (f : A -> option B) (l : list A) :
  forall bs, traverse f l = Some bs -> Forall2 (fun a b => f a = Some b) l bs.
Proof.
  induction l as [|a l IH]; simpl; intros bs E.
  - inversion E. constructor.
  - destruct (f a) as [b|] eqn:Ea; [|discriminate].
    destruct (traverse f l) as [bs'|]; [|discriminate].
    inversion E; subst. constructor; auto.
Qed.

Lemma allFiles_eq fl sub :
  allFiles (mkContents fl sub)
  = fl ++ flat_map (fun p => allFiles (snd p)) sub.
Proof.
  simpl. f_equal. induction sub as [|[f c] sub IH]; simpl; [reflexivity|].
  now rewrite IH.
Qed.

Lemma Forall2_In_r (A B : Type) (R : A -> B -> Prop) (l : list A) (bs : list B) :
  Forall2 R l bs -> forall b, In b bs -> exists a, In a l /\ R a b.
Proof.
  induction 1 as [|a b l bs Hab F IH]; intros y Hy; [contradiction|].
  destruct Hy as [<-|Hy].
  - exists a. split; [now left | assumption].
  - destruct (IH y Hy) as [a' [H1 H2]]. exists a'. split; [now right|assumption].
Qed.

Lemma Forall2_In_l (A B : Type) (R : A -> B -> Prop) (l : list A) (bs : list B) :
  Forall2 R l bs -> forall a, In a l -> exists b, In b bs /\ R a b.
Proof.
  induction 1 as [|a b l bs Hab F IH]; intros y Hy; [contradiction|].
  destruct Hy as [<-|Hy].
  - exists b. split; [now left | assumption].
  - destruct (IH y Hy) as [b' [H1 H2]]. exists b'. split; [now right|assumption].
Qed.

(** The files [getFolderContents] lists under [x] are the files whose
    folder chain passes through [x]. *)
Lemma getFolderContents_files db :
  forall fuel x c,
    getFolderContents fuel db x = Some c ->
    forall file,
      In file (allFiles c) <->
      In file (files db) /\ chain (folders db) (File.folderId file) x.
Proof.
  induction fuel as [|k IH]; intros x c E file; [discriminate|].
  simpl in E.
  match type of E with
  | context [traverse ?f ?l] =>
      destruct (traverse f l) as [sub|] eqn:Et; [|discriminate];
      pose proof (traverse_Some _ _ f l sub Et) as F2
  end.
  inversion E; subst c. clear E Et. rewrite allFiles_eq.
  rewrite in_app_iff, orderBy_In_iff. unfold Prisma.file_findMany.
  rewrite filter_In, optZ_eqb_eq, in_flat_map.
  split.
  - intros [[Hf Ef]|[[s cs] [Hin Hfile]]].
    + split; [assumption|]. rewrite Ef. apply chain_here.
    + destruct (Forall2_In_r _ _ _ _ _ F2 _ Hin) as [a [Ha Ea]].
      apply orderBy_In_iff in Ha. unfold Prisma.folder_findMany in Ha.
      apply filter_In in Ha. destruct Ha as [Ha Pa]. apply optZ_eqb_eq in Pa.
      destruct (getFolderContents k db (Folder.id a)) as [c0|] eqn:Ec;
        [|discriminate].
      inversion Ea; subst s cs. simpl in Hfile.
      apply (IH _ _ Ec) in Hfile. destruct Hfile as [H1 H2].
      split; [assumption|].
      apply (chain_trans _ _ _ _ H2). now apply chain_child.
  - intros [Hf Hc]. destruct (chain_some _ _ _ Hc) as [d Ed].
    destruct (Z.eq_dec d x) as [->|Nd]; [left; tauto|]. right.
    rewrite Ed in Hc.
    destruct (chain_last _ _ _ Hc d eq_refl Nd) as [s [Hs [Ps Cs]]].
    assert (Hin : In s (orderBy Folder.name
                          (Prisma.folder_findMany (folders db)
                             (fun f => optZ_eqb (Folder.parentId f) (Some x))))).
    { apply orderBy_In_iff. unfold Prisma.folder_findMany. apply filter_In.
      split; [assumption | now apply optZ_eqb_eq]. }
    destruct (Forall2_In_l _ _ _ _ _ F2 _ Hin) as [[s' cs] [Hb Eb]].
    destruct (getFolderContents k db (Folder.id s)) as [c0|] eqn:Ec;
      [|discriminate].
    inversion Eb; subst s' cs. exists (s, c0). split; [assumption|].
    simpl. apply (IH _ _ Ec). split; [assumption|]. now rewrite Ed.
Qed.

Lemma file_findUnique_In l x :
  NoDup (map File.id l) -> In x l ->
  Prisma.file_findUnique l (File.id x) = Some x.
Proof.
  intros ND Hx.
  destruct (Prisma.file_findUnique l (File.id x)) as [y|] eqn:E.
  - apply file_findUnique_Some in E. destruct E as [Hy Ey].
    f_equal. now apply (nodup_same_file_id l).
  - exfalso. unfold Prisma.file_findUnique in E.
    apply (find_none _ _ E) in Hx. simpl in Hx.
    rewrite Z.eqb_refl in Hx. discriminate.
Qed.

(** [inSharedFolder] decides whether the chain of the folder of the file
    passes through the shared folder. *)
Lemma inSharedFolder_spec h db file sh :
  InvH h db ->
  (exists g, In g (folders db) /\ Folder.id g = sh) ->
  (forall fuel b,
     inSharedFolder fuel (folders db) file sh = Some b ->
     (b = true <-> chain (folders db) (File.folderId file) sh))
  /\ exists fuel0, forall fuel, (fuel0 <= fuel)%nat ->
       exists b, inSharedFolder fuel (folders db) file sh = Some b.
Proof.
  intros I HS. split.
  - intros fuel b Hb. unfold inSharedFolder in Hb.
    destruct (optZ_eqb (File.folderId file) (Some sh)) eqn:Eq.
    + apply optZ_eqb_eq in Eq. inversion Hb; subst b. rewrite Eq.
      split; [intros _; apply chain_here | reflexivity].
    + rewrite walkUp_check in Hb. destruct b.
      * split; [intros _; now apply (check_true fuel) | reflexivity].
      * split; [discriminate|]. intro Hc. exfalso.
        revert Hc. apply (check_false fuel); try exact Hb.
        -- exact (inv_nodup h db I).
        -- intros f Hf. pose proof (inv_seq h db I f Hf). lia.
        -- exact HS.
  - destruct (inv_fuel h db I) as [M HM]. exists (S (S M)). intros fuel Hfuel.
    unfold inSharedFolder.
    destruct (optZ_eqb (File.folderId file) (Some sh)); [eauto|].
    rewrite walkUp_check. apply HM. lia.
Qed.

(** X8.  When GET /share/:token answers 200, the files listed anywhere
    in the returned contents are the files of the database whose folder
    chain passes through the shared folder, and they are the files that
    GET /share/:token/files/:fileId serves under the same token at the
    same instant. *)
Theorem X8_listing_matches_access_by_id
    fuel db token now m e r i nm contents n1 n2 n3 :
  reachable db ->
  getShared fuel db token now
  = Some (json 200 (BSharedFolder m e r i nm contents n1 n2 n3)) ->
  exists link,
    Prisma.shareLink_findFirst (shareLinks db) token = Some link
    /\ i = ShareLink.folderId link
    /\ forall file,
         In file (files db) ->
         (In file (allFiles contents) <->
          chain (folders db) (File.folderId file) (ShareLink.folderId link))
         /\ (In file (allFiles contents) <->
             exists fuel',
               getSharedFile fuel' db token (File.id file) now
               = Some (json 200 (BSharedFile file))).
Proof.
  intros Hr E. destruct (reachable_inv db Hr) as [h I].
  unfold getShared in E.
  destruct (Prisma.shareLink_findFirst (shareLinks db) token) as [link|] eqn:El;
    [|discriminate].
  destruct (ShareLink.expiresAt link <? now) eqn:Ex; [discriminate|].
  destruct (Prisma.folder_findUnique (folders db) (ShareLink.folderId link))
    as [g|] eqn:Eg; [|discriminate].
  destruct (getFolderContents fuel db (Folder.id g)) as [c|] eqn:Ec;
    [|discriminate].
  inversion E; subst. clear E.
  destruct (findUnique_Some _ _ _ Eg) as [Hg Eid].
  exists link. split; [reflexivity|]. split; [assumption|].
  intros file Hfile.
  pose proof (getFolderContents_files db _ _ _ Ec file) as Hlist.
  rewrite Eid in Hlist.
  destruct (inSharedFolder_spec h db file (ShareLink.folderId link) I)
    as [Hin [fuel0 Htot]]; [eauto|].
  split; [tauto|]. split.
  - intro Hl. apply Hlist in Hl. destruct Hl as [_ Hc].
    exists fuel0. destruct (Htot fuel0 (Nat.le_refl _)) as [b Hb].
    unfold getSharedFile. rewrite El, Ex.
    rewrite (file_findUnique_In _ _ (inv_file_nodup h db I) Hfile), Hb.
    destruct b; [reflexivity|].
    apply (Hin fuel0 false Hb) in Hc. discriminate.
  - intros [fuel' Es]. apply Hlist. split; [assumption|].
    unfold getSharedFile in Es. rewrite El, Ex in Es.
    rewrite (file_findUnique_In _ _ (inv_file_nodup h db I) Hfile) in Es.
    destruct (inSharedFolder fuel' (folders db) file (ShareLink.folderId link))
      as [[|]|] eqn:Eb; try discriminate.
    now apply (Hin fuel' true Eb).
Qed.

Lemma X8_witness :
  exists link,
    Prisma.shareLink_findFirst (shareLinks exDb4) exToken = Some link
    /\ 2 = ShareLink.folderId link.
Proof.
  destruct (X8_listing_matches_access_by_id 2 exDb4 exToken exNow
              "Shared folder accessed successfully" (exNow + msPerDay)
              msPerDay 2 (Js.lit "2024")
              (mkContents (files exDb4) []) 1 0 10485760)
    as [link [H1 [H2 _]]].
  - reach_exDb4.
  - reflexivity.
  - exists link. split; [exact H1 | exact H2].
Defined.

(* ================================================================== *)
(** * Subtrees are visited once *)
(* ================================================================== *)

(** Lists of ids taken from the subtrees of distinct children of [x]
    have no id in common. *)
Lemma NoDup_subtrees h db x (A : Type) (cid : A -> Z) (ids : A -> list Z) :
  InvH h db ->
  forall items,
    NoDup (map cid items) ->
    (forall a, In a items ->
       exists f, In f (folders db) /\ Folder.id f = cid a
                 /\ Folder.parentId f = Some x) ->
    (forall a, In a items -> NoDup (ids a)) ->
    (forall a y, In a items -> In y (ids a) ->
                 chain (folders db) (Some y) (cid a)) ->
    NoDup (flat_map ids items).
Proof.
  intro I. induction items as [|a items IH]; intros ND Hch Hnd Hin; simpl.
  - constructor.
  - inversion ND as [|? ? Hn ND']; subst.
    apply NoDup_app.
    + apply Hnd. now left.
    + apply IH; auto.
      * intros b Hb. apply Hch. now right.
      * intros b Hb. apply Hnd. now right.
      * intros b y Hb. apply Hin. now right.
    + intros y Hy Hy'. apply in_flat_map in Hy'.
      destruct Hy' as [b [Hb Hyb]].
      pose proof (Hin a y (or_introl eq_refl) Hy) as Ca.
      pose proof (Hin b y (or_intror Hb) Hyb) as Cb.
      destruct (Hch a (or_introl eq_refl)) as [fa [Hfa [Efa Pfa]]].
      destruct (Hch b (or_intror Hb)) as [fb [Hfb [Efb Pfb]]].
      assert (Ne : Folder.id fa <> Folder.id fb).
      { intro Eq. apply Hn. rewrite <- Efa, Eq, Efb. now apply in_map. }
      destruct (chain_fork _ _ _ _ (inv_nodup h db I) Ca Cb) as [Hx|Hx].
      * apply (siblings_apart h db x fb fa I Hfb Hfa Pfb Pfa); congruence.
      * apply (siblings_apart h db x fa fb I Hfa Hfb Pfa Pfb); congruence.
Qed.

Lemma descendant_chain fs y x :
  descendant fs y x -> chain fs (Some y) x.
Proof.
  intros [f [Hf [Ef Hc]]]. now apply (chain_up fs y f x).
Qed.

Lemma postorder_In h fs :
  rank_ok h fs ->
  forall k x, (h x < k)%nat ->
    forall y, In y (postorder k fs x) <-> y = x \/ descendant fs y x.
Proof.
  intro R. induction k as [|k IH]; intros x Hx y; [lia|].
  simpl. rewrite in_app_iff, in_flat_map. simpl. split.
  - intros [[c [Hc Hy]]|[->|[]]]; [|now left]. right.
    apply in_map_iff in Hc. destruct Hc as [fc [<- Hfc]].
    unfold directChildren in Hfc. apply filter_In in Hfc.
    destruct Hfc as [Hfc Pc]. apply optZ_eqb_eq in Pc.
    apply IH in Hy; [|specialize (R fc x Hfc Pc); lia].
    destruct Hy as [->|[f [Hf [Ef Hch]]]].
    + exists fc. split; [assumption|]. split; [reflexivity|].
      rewrite Pc. apply chain_here.
    + exists f. split; [assumption|]. split; [assumption|].
      apply (chain_trans _ _ _ _ Hch). now apply chain_child.
  - intros [->|[f [Hf [Ef Hch]]]]; [right; now left|]. left.
    destruct (chain_some _ _ _ Hch) as [p Ep].
    destruct (Z.eq_dec p x) as [->|Np].
    + exists y. split.
      * rewrite <- Ef. apply in_map. unfold directChildren. apply filter_In.
        split; [assumption | now apply optZ_eqb_eq].
      * apply IH; [|now left]. specialize (R f x Hf Ep). subst y. lia.
    + rewrite Ep in Hch.
      destruct (chain_last _ _ _ Hch p eq_refl Np) as [c [Hc [Pc Cc]]].
      exists (Folder.id c). split.
      * apply in_map. unfold directChildren. apply filter_In.
        split; [assumption | now apply optZ_eqb_eq].
      * apply IH; [specialize (R c x Hc Pc); lia|]. right.
        exists f. split; [assumption|]. split; [assumption|]. now rewrite Ep.
Qed.

Lemma postorder_NoDup h db :
  InvH h db ->
  forall k x, (h x < k)%nat -> NoDup (postorder k (folders db) x).
Proof.
  intro I. pose proof (inv_rank h db I) as R.
  induction k as [|k IH]; intros x Hx; [lia|]. simpl.
  assert (Hch : forall c, In c (map Folder.id (directChildren (folders db) x)) ->
            exists f, In f (folders db) /\ Folder.id f = c
                      /\ Folder.parentId f = Some x).
  { intros c Hc. apply in_map_iff in Hc. destruct Hc as [fc [<- Hfc]].
    unfold directChildren in Hfc. apply filter_In in Hfc.
    destruct Hfc as [Hfc Pc]. apply optZ_eqb_eq in Pc. eauto. }
  apply NoDup_app.
  - apply (NoDup_subtrees h db x Z (fun c => c)); auto.
    + rewrite map_id. apply nodup_map_filter. exact (inv_nodup h db I).
    + intros c Hc. destruct (Hch c Hc) as [f [Hf [Ef Pf]]].
      apply IH. specialize (R f x Hf Pf). subst c. lia.
    + intros c y Hc Hy. destruct (Hch c Hc) as [f [Hf [Ef Pf]]].
      apply (postorder_In h _ R) in Hy;
        [|specialize (R f x Hf Pf); subst c; lia].
      destruct Hy as [->|Hd]; [apply chain_here | now apply descendant_chain].
  - repeat constructor. intros [].
  - intros y Hy [<-|[]]. apply in_flat_map in Hy.
    destruct Hy as [c [Hc Hy]]. destruct (Hch c Hc) as [f [Hf [Ef Pf]]].
    pose proof (R f x Hf Pf) as Hlt.
    apply (postorder_In h _ R) in Hy; [|subst c; lia].
    assert (Hc' : chain (folders db) (Some x) c).
    { destruct Hy as [->|Hd]; [apply chain_here | now apply descendant_chain]. }
    pose proof (chain_rank h _ _ _ R Hc' x eq_refl). subst c. lia.
Qed.

(** X9.  On a reachable database a recursive delete calls
    [prisma.folder.delete] once for every folder of the subtree and for
    no other id; the number of calls is the number of folder rows that
    disappear, so the cascade of the store never has a folder left to
    remove. *)
Theorem X9_one_delete_call_per_folder db u F fi :
  reachable db ->
  verifyFolderOwnership db u F = inr fi ->
  exists fuel0, forall fuel, (fuel0 <= fuel)%nat ->
    exists r,
      deleteFolderRecursively fuel db F u = Some r
      /\ NoDup (run_deleted r)
      /\ (forall y, In y (run_deleted r) <->
                    exists g, In g (folders db) /\ Folder.id g = y
                              /\ chain (folders db) (Some y) F)
      /\ (List.length (run_deleted r) + List.length (folders (run_db r))
          = List.length (folders db))%nat.
Proof.
  intros Hr Ev. destruct (reachable_inv db Hr) as [h I].
  destruct (verify_inr _ _ _ _ Ev) as [Efi [Hfi [Eid Eown]]].
  exists (S (h F)). intros fuel Hfuel.
  destruct (deleteFolderRecursively_ok h u fuel db F I) as [r [Er P]];
    [eauto | lia |].
  destruct P as [Err [I' [[keep [Ek Hk]] [Fl [Lk [S1 [S2 [S3 T]]]]]]]].
  exists r. split; [assumption|].
  assert (ND : NoDup (run_deleted r)).
  { rewrite T. apply (postorder_NoDup h db I). lia. }
  assert (Hmem : forall y, In y (run_deleted r) <->
            exists g, In g (folders db) /\ Folder.id g = y
                      /\ chain (folders db) (Some y) F).
  { intro y. rewrite T.
    rewrite (postorder_In h _ (inv_rank h db I) fuel F ltac:(lia) y). split.
    - intros [->|Hd].
      + exists fi. split; [assumption|]. split; [assumption|apply chain_here].
      + pose proof (descendant_chain _ _ _ Hd) as Hc.
        destruct Hd as [f [Hf [Ef _]]]. exists f. auto.
    - intros [g [Hg [Eg Hc]]].
      destruct (Z.eq_dec y F) as [|Ne]; [now left|]. right.
      now apply chain_descendant. }
  split; [assumption|]. split; [assumption|].
  assert (Hperm : Permutation (run_deleted r)
            (map Folder.id (filter (fun f => negb (keep f)) (folders db)))).
  { apply NoDup_Permutation; [assumption | |].
    - apply nodup_map_filter. exact (inv_nodup h db I).
    - intro y. rewrite Hmem, in_map_iff. split.
      + intros [g [Hg [Eg Hc]]]. exists g. split; [assumption|].
        apply filter_In. split; [assumption|]. apply negb_true_iff.
        apply (Hk g Hg). now rewrite Eg.
      + intros [g [Eg Hg]]. apply filter_In in Hg. destruct Hg as [Hg Kg].
        apply negb_true_iff in Kg. apply (Hk g Hg) in Kg.
        exists g. split; [assumption|]. split; [assumption|]. now rewrite <- Eg. }
  rewrite (Permutation_length Hperm), length_map, Ek.
  clear. induction (folders db) as [|a l IH]; simpl; [reflexivity|].
  destruct (keep a); simpl; lia.
Qed.

Lemma X9_witness :
  exists fuel0, forall fuel, (fuel0 <= fuel)%nat ->
    exists r,
      deleteFolderRecursively fuel exDb6 1 1 = Some r
      /\ NoDup (run_deleted r)
      /\ (List.length (run_deleted r) + List.length (folders (run_db r))
          = List.length (folders exDb6))%nat.
Proof.
  destruct (X9_one_delete_call_per_folder exDb6 1 1
              (Folder.mk 1 (Js.lit "Docs") 1 None)) as [fuel0 H].
  - reach_exDb6.
  - reflexivity.
  - exists fuel0. intros fuel Hfuel.
    destruct (H fuel Hfuel) as [r [H1 [H2 [_ H4]]]].
    exists r. split; [exact H1|]. split; [exact H2 | exact H4].
Defined.

(* ================================================================== *)
(** * The folder tree of GET /api/folders/:id *)
(* ================================================================== *)

Lemma insertBy_Permutation (A : Type) (key : A -> Js.str) (x : A) (l : list A) :
  Permutation (insertBy key x l) (x :: l).
Proof.
  induction l as [|a l IH]; simpl; [reflexivity|].
  destruct (Js.leb (key x) (key a)); [reflexivity|].
  rewrite IH. apply perm_swap.
Qed.

Lemma orderBy_Permutation (A : Type) (key : A -> Js.str) (l : list A) :
  Permutation (orderBy key l) l.
Proof.
  induction l as [|a l IH]; simpl; [reflexivity|].
  rewrite insertBy_Permutation. now constructor.
Qed.

Lemma treeIds_eq f ts :
  treeIds (TNode f ts) = Folder.id f :: flat_map treeIds ts.
Proof.
  simpl. apply f_equal. induction ts as [|t ts IH]; simpl; [reflexivity|].
  now rewrite IH.
Qed.

Lemma getFolderWithChildren_spec h db o :
  InvH h db ->
  forall k x fx,
    In fx (folders db) -> Folder.id fx = x -> Folder.ownerId fx = o ->
    (h x < k)%nat ->
    exists ts,
      getFolderWithChildren k db x o = Some (TNode fx ts)
      /\ (forall y, In y (treeIds (TNode fx ts)) <->
                    y = x \/ descendant (folders db) y x)
      /\ NoDup (treeIds (TNode fx ts)).
Proof.
  intro I. pose proof (inv_rank h db I) as R.
  induction k as [|k IH]; intros x fx Hfx Efx Ofx Hlt; [lia|].
  cbn [getFolderWithChildren].
  pose proof (findUnique_In _ _ (inv_nodup h db I) Hfx) as Efu.
  rewrite Efx in Efu. rewrite Efu, Efx.
  unfold Prisma.folder_findMany.
  pose proof (children_same_owner h db x fx I Hfx Efx) as Ech.
  rewrite Ofx in Ech. rewrite Ech.
  set (cs := orderBy Folder.name (directChildren (folders db) x)).
  assert (Hcs : forall c, In c cs ->
            In c (folders db) /\ Folder.parentId c = Some x
            /\ Folder.ownerId c = o /\ (h (Folder.id c) < k)%nat).
  { intros c Hc. apply orderBy_In in Hc. unfold directChildren in Hc.
    apply filter_In in Hc. destruct Hc as [Hc Pc]. apply optZ_eqb_eq in Pc.
    split; [assumption|]. split; [assumption|]. split.
    - destruct (inv_parent h db I c x Hc Pc) as [g [Hg [Eg Og]]].
      assert (g = fx) by (apply (nodup_same_id (folders db)); auto;
                          [exact (inv_nodup h db I) | congruence]).
      subst g. congruence.
    - specialize (R c x Hc Pc). lia. }
  set (f := fun child => getFolderWithChildren k db (Folder.id child) o).
  destruct (traverse_total _ _ f cs) as [ts Ets].
  { intros c Hc. destruct (Hcs c Hc) as [H1 [H2 [H3 H4]]].
    destruct (IH (Folder.id c) c H1 eq_refl H3 H4) as [tsc [E _]].
    exists (TNode c tsc). exact E. }
  rewrite Ets. exists ts. split; [reflexivity|].
  pose proof (traverse_Some _ _ f cs ts Ets) as F2.
  assert (F2' : Forall2 (fun c t =>
             exists tsc, t = TNode c tsc
               /\ (forall y, In y (treeIds t) <->
                     y = Folder.id c \/ descendant (folders db) y (Folder.id c))
               /\ NoDup (treeIds t)) cs ts).
  { clear Ets. induction F2 as [|c t cs' ts' Hct F2 IHF]; constructor.
    - destruct (Hcs c (or_introl eq_refl)) as [H1 [H2 [H3 H4]]].
      destruct (IH (Folder.id c) c H1 eq_refl H3 H4) as [tsc [E P]].
      exists tsc. unfold f in Hct. rewrite E in Hct.
      injection Hct as <-. split; [reflexivity | exact P].
    - apply IHF. intros c' Hc'. apply Hcs. now right. }
  assert (Hmem : forall y, In y (treeIds (TNode fx ts)) <->
                   y = x \/ descendant (folders db) y x).
  { intro y. rewrite treeIds_eq, Efx. simpl. rewrite in_flat_map. split.
    - intros [<-|[t [Ht Hy]]]; [now left|]. right.
      destruct (Forall2_In_r _ _ _ _ _ F2' t Ht) as [c [Hc [tsc [Et [Pm _]]]]].
      destruct (Hcs c Hc) as [H1 [H2 _]].
      apply Pm in Hy. destruct Hy as [->|[g [Hg [Eg Hch]]]].
      + exists c. split; [assumption|]. split; [reflexivity|].
        rewrite H2. apply chain_here.
      + exists g. split; [assumption|]. split; [assumption|].
        apply (chain_trans _ _ _ _ Hch). now apply chain_child.
    - intros [->|[g [Hg [Eg Hch]]]]; [now left|]. right.
      destruct (chain_some _ _ _ Hch) as [p Ep].
      assert (Hchild : exists c, In c cs
                /\ (y = Folder.id c \/ descendant (folders db) y (Folder.id c))).
      { destruct (Z.eq_dec p x) as [->|Np].
        - exists g. split; [|now left].
          apply orderBy_In_iff. unfold directChildren. apply filter_In.
          split; [assumption | now apply optZ_eqb_eq].
        - rewrite Ep in Hch.
          destruct (chain_last _ _ _ Hch p eq_refl Np) as [c [Hc [Pc Cc]]].
          exists c. split.
          + apply orderBy_In_iff. unfold directChildren. apply filter_In.
            split; [assumption | now apply optZ_eqb_eq].
          + right. exists g. split; [assumption|]. split; [assumption|].
            now rewrite Ep. }
      destruct Hchild as [c [Hc Hy]].
      destruct (Forall2_In_l _ _ _ _ _ F2' c Hc) as [t [Ht [tsc [Et [Pm _]]]]].
      exists t. split; [assumption|]. now apply Pm. }
  split; [exact Hmem|].
  rewrite treeIds_eq. constructor.
  - rewrite Efx. intro Hx. apply in_flat_map in Hx.
    destruct Hx as [t [Ht Hy]].
    destruct (Forall2_In_r _ _ _ _ _ F2' t Ht) as [c [Hc [tsc [Et [Pm _]]]]].
    destruct (Hcs c Hc) as [H1 [H2 _]].
    pose proof (R c x H1 H2) as Hr.
    apply Pm in Hy.
    assert (Hc' : chain (folders db) (Some x) (Folder.id c)).
    { destruct Hy as [->|Hd]; [apply chain_here | now apply descendant_chain]. }
    pose proof (chain_rank h _ _ _ R Hc' x eq_refl). lia.
  - set (cid := fun t => match t with TNode g _ => Folder.id g | TNull => 0 end).
    assert (Emap : map cid ts = map Folder.id cs).
    { clear -F2'. induction F2' as [|c t cs' ts' [tsc [-> _]] F IHF]; simpl;
        [reflexivity | now rewrite IHF]. }
    apply (NoDup_subtrees h db x FolderTree cid treeIds I).
    + rewrite Emap. unfold cs.
      apply (Permutation_NoDup
               (l := map Folder.id (directChildren (folders db) x))).
      * apply Permutation_map, Permutation_sym, orderBy_Permutation.
      * apply nodup_map_filter. exact (inv_nodup h db I).
    + intros t Ht.
      destruct (Forall2_In_r _ _ _ _ _ F2' t Ht) as [c [Hc [tsc [-> _]]]].
      destruct (Hcs c Hc) as [H1 [H2 _]]. exists c. simpl. auto.
    + intros t Ht.
      destruct (Forall2_In_r _ _ _ _ _ F2' t Ht) as [c [Hc [tsc [_ [_ N]]]]].
      exact N.
    + intros t y Ht Hy.
      destruct (Forall2_In_r _ _ _ _ _ F2' t Ht) as [c [Hc [tsc [Et [Pm _]]]]].
      apply Pm in Hy. subst t. simpl.
      destruct Hy as [->|Hd]; [apply chain_here | now apply descendant_chain].
Qed.

(** X10.  On a reachable database [getFolderWithChildren], called as
    GET /api/folders/:id does for a folder that passed the ownership
    check, returns a tree with that folder at the root in which every
    folder below it occurs exactly once and no other folder occurs. *)
Theorem X10_folder_tree_is_the_subtree db u F fi :
  reachable db ->
  verifyFolderOwnership db u F = inr fi ->
  exists fuel0, forall fuel, (fuel0 <= fuel)%nat ->
    exists ts,
      getFolderWithChildren fuel db F u = Some (TNode fi ts)
      /\ NoDup (treeIds (TNode fi ts))
      /\ (forall y, In y (treeIds (TNode fi ts)) <->
                    y = F \/ descendant (folders db) y F).
Proof.
  intros Hr Ev. destruct (reachable_inv db Hr) as [h I].
  destruct (verify_inr _ _ _ _ Ev) as [Efi [Hfi [Eid Eown]]].
  exists (S (h F)). intros fuel Hfuel.
  destruct (getFolderWithChildren_spec h db u I fuel F fi Hfi Eid Eown)
    as [ts [E [Hm Hn]]]; [lia|].
  exists ts. auto.
Qed.

Lemma X10_witness :
  exists fuel0, forall fuel, (fuel0 <= fuel)%nat ->
    exists ts,
      getFolderWithChildren fuel exDb6 1 1
      = Some (TNode (Folder.mk 1 (Js.lit "Docs") 1 None) ts)
      /\ NoDup (treeIds (TNode (Folder.mk 1 (Js.lit "Docs") 1 None) ts)).
Proof.
  destruct (X10_folder_tree_is_the_subtree exDb6 1 1
              (Folder.mk 1 (Js.lit "Docs") 1 None)) as [fuel0 H].
  - reach_exDb6.
  - reflexivity.
  - exists fuel0. intros fuel Hfuel.
    destruct (H fuel Hfuel) as [ts [H1 [H2 _]]].
    exists ts. split; [exact H1 | exact H2].
Defined.

(* ================================================================== *)
(** * The client's move operations and renaming a file *)
(* ================================================================== *)

(** X11.  [moveFolder] and [moveFile] of the client store send a body
    without a name, and both PUT routes refuse such a body (or have
    refused the request in the ownership check before): whatever the
    database and the arguments, both return [false] and nothing is
    moved. *)
Theorem X11_store_moves_never_succeed fuel db u i p :
  storeMoveFolder fuel db u i p = Some (false, db)
  /\ storeMoveFile db u i p = (false, db).
Proof.
  split.
  - unfold storeMoveFolder, putFolder, verifyFolderOwnership.
    destruct (Prisma.folder_findUnique (folders db) i) as [f|];
      [|reflexivity].
    destruct (negb (Folder.ownerId f =? u)); reflexivity.
  - unfold storeMoveFile, putFile, verifyFileOwnership.
    destruct (Prisma.file_findUnique (files db) i) as [x|]; [|reflexivity].
    destruct (negb (File.ownerId x =? u)); reflexivity.
Qed.

Lemma file_findUnique_map_set l i n d j :
  Prisma.file_findUnique (map (Prisma.file_set i n d) l) j
  = option_map (Prisma.file_set i n d) (Prisma.file_findUnique l j).
Proof.
  unfold Prisma.file_findUnique. induction l as [|a l IH]; simpl;
    [reflexivity|].
  rewrite file_set_id. destruct (File.id a =? j); [reflexivity | apply IH].
Qed.

(** X12.  PUT /api/files/:id with a name and no [folderId] writes a null
    [folderId]: after a successful rename the file is at the top level
    of its owner, whatever folder it was in, and no share link gives
    access to it any more. *)
Theorem X12_file_rename_resets_folder db u i name res db' :
  putFile db u i name None = (res, db') ->
  status res = 200 ->
  exists file n,
    Prisma.file_findUnique (files db) i = Some file
    /\ File.ownerId file = u
    /\ validName name = Some n
    /\ Prisma.file_findUnique (files db') i
       = Some (File.mk i n (File.mimetype file) (File.size file)
                       (File.cloudUrl file) (File.publicId file) None u)
    /\ files db' = map (Prisma.file_set i n None) (files db)
    /\ forall fuel token now, (1 <= fuel)%nat ->
         exists r, getSharedFile fuel db' token i now = Some r
                   /\ status r <> 200.
Proof.
  unfold putFile, Prisma.file_update. intros E Hs.
  destruct (verifyFileOwnership db u i) as [r|file] eqn:Ev.
  { exfalso. unfold verifyFileOwnership in Ev.
    destruct (Prisma.file_findUnique (files db) i) as [x|].
    - destruct (negb (File.ownerId x =? u)); [|discriminate].
      injection Ev as <-. injection E as <- _. discriminate.
    - injection Ev as <-. injection E as <- _. discriminate. }
  destruct (verifyFile_inr _ _ _ _ Ev) as [Ef [Hin [Eid Eo]]].
  destruct (validName name) as [n|];
    [|injection E as <- _; discriminate].
  destruct (Js.length n >? 255); [injection E as <- _; discriminate|].
  match type of E with
  | context [Prisma.file_findFirst ?l ?p] =>
      destruct (Prisma.file_findFirst l p);
        [injection E as <- _; discriminate|]
  end.
  rewrite Ef in E. injection E as _ <-.
  assert (Eset : Prisma.file_set i n None file
                 = File.mk i n (File.mimetype file) (File.size file)
                     (File.cloudUrl file) (File.publicId file) None u).
  { unfold Prisma.file_set. rewrite Eid, Z.eqb_refl. now rewrite Eo. }
  assert (Efound : Prisma.file_findUnique
                     (map (Prisma.file_set i n None) (files db)) i
                   = Some (File.mk i n (File.mimetype file) (File.size file)
                             (File.cloudUrl file) (File.publicId file) None u)).
  { rewrite file_findUnique_map_set, Ef. simpl. now rewrite Eset. }
  exists file, n. simpl.
  split; [exact Ef|]. split; [assumption|]. split; [reflexivity|].
  split; [exact Efound|]. split; [reflexivity|].
  intros fuel token now Hfuel. unfold getSharedFile. simpl.
  destruct (Prisma.shareLink_findFirst (shareLinks db) token) as [l|].
  - destruct (ShareLink.expiresAt l <? now).
    + eexists. split; [reflexivity | discriminate].
    + rewrite Efound. unfold inSharedFolder. simpl.
      destruct fuel as [|k]; [lia|]. simpl.
      eexists. split; [reflexivity | discriminate].
  - eexists. split; [reflexivity | discriminate].
Qed.

Lemma X12_witness :
  exists file n,
    Prisma.file_findUnique (files exDb4) 1 = Some file
    /\ File.folderId file = Some 2
    /\ validName (Some (Js.lit "final.pdf")) = Some n
    /\ forall fuel token now, (1 <= fuel)%nat ->
         exists r, getSharedFile fuel
                     (snd (putFile exDb4 1 1 (Some (Js.lit "final.pdf")) None))
                     token 1 now = Some r
                   /\ status r <> 200.
Proof.
  destruct (X12_file_rename_resets_folder exDb4 1 1 (Some (Js.lit "final.pdf"))
              (fst (putFile exDb4 1 1 (Some (Js.lit "final.pdf")) None))
              (snd (putFile exDb4 1 1 (Some (Js.lit "final.pdf")) None)))
    as [file [n [H1 [_ [H3 [_ [_ H6]]]]]]].
  - now destruct (putFile exDb4 1 1 (Some (Js.lit "final.pdf")) None).
  - reflexivity.
  - exists file, n. split; [exact H1|]. split.
    + vm_compute in H1. injection H1 as <-. reflexivity.
    + split; [exact H3 | exact H6].
Defined.

(* ================================================================== *)
(** * Blobs of an upload *)
(* ================================================================== *)

Lemma partition_Permutation (A B : Type) (g : A -> B) (p : A -> bool)
    (l : list A) :
  Permutation (map g l)
    (map g (filter (fun a => negb (p a)) l) ++ map g (filter p l)).
Proof.
  induction l as [|a l IH]; simpl; [reflexivity|].
  destruct (p a); simpl.
  - apply Permutation_cons_app. exact IH.
  - now constructor.
Qed.

Lemma filter_none_all (A : Type) (p : A -> bool) (l : list A) :
  filter (fun a => negb (p a)) l = [] -> filter p l = l.
Proof.
  induction l as [|a l IH]; simpl; [reflexivity|].
  destruct (p a); simpl; [|discriminate].
  intro H. now rewrite IH.
Qed.

(** X13.  POST /api/files/upload leaves no blob unaccounted for: each
    blob of the batch is either the [publicId] of one of the rows the
    request appended to the file table or was handed to
    [cloudinary.uploader.destroy], and never both.  Unless the answer is
    201, no row was appended and every blob of the batch was destroyed,
    in batch order. *)
Theorem X13_every_blob_recorded_or_destroyed db u d batch res db' destroyed :
  uploadFiles db u d batch = (res, db', destroyed) ->
  exists saved,
    files db' = files db ++ saved
    /\ Permutation (map (fun fb => filename (fst fb)) batch)
                   (map File.publicId saved ++ destroyed)
    /\ (status res <> 201 ->
        saved = [] /\ db' = db
        /\ destroyed = map (fun fb => filename (fst fb)) batch).
Proof.
  unfold uploadFiles. intro E.
  match type of E with
  | context [match ?c with Some r => _ | None => _ end] =>
      destruct c as [r0|]
  end.
  { injection E as _ <- <-. exists []. rewrite app_nil_r. simpl.
    split; [reflexivity|]. split; [reflexivity|]. auto. }
  destruct batch as [|b0 rest].
  { injection E as _ <- <-. exists []. rewrite app_nil_r. simpl.
    split; [reflexivity|]. split; [reflexivity|]. auto. }
  destruct (saveFiles db u d (b0 :: rest)) as [[saved d1] x1] eqn:Es.
  destruct (saveFiles_effect _ _ _ _ _ _ _ Es) as [_ [_ [Hf _]]].
  destruct (saveFiles_committed _ _ _ _ _ _ _ Es) as [_ [Hx Hp]].
  assert (Ed : db' = d1 /\ destroyed = x1).
  { destruct saved; injection E as _ <- <-; auto. }
  destruct Ed as [-> ->]. exists saved.
  split; [exact Hf|]. split.
  - rewrite Hp, Hx. unfold committed, failedIds.
    apply (partition_Permutation _ _ (fun fb => filename (fst fb)) snd).
  - intro Hs. destruct saved as [|s0 saved'].
    + split; [reflexivity|]. split.
      * now apply (saveFiles_none _ _ _ _ _ _ Es).
      * rewrite Hx. unfold failedIds. f_equal.
        apply (filter_none_all _ snd). unfold committed in Hp.
        symmetry in Hp. apply map_eq_nil in Hp. exact Hp.
    + injection E as <-. simpl in Hs. lia.
Qed.

Lemma X13_witness :
  exists saved,
    files (snd (fst (uploadFiles exDb2 1 (Some 2)
                       [(exReport, false); (exNotes, true)])))
    = files exDb2 ++ saved
    /\ Permutation [filename exReport; filename exNotes]
         (map File.publicId saved
          ++ snd (uploadFiles exDb2 1 (Some 2)
                    [(exReport, false); (exNotes, true)])).
Proof.
  destruct (X13_every_blob_recorded_or_destroyed exDb2 1 (Some 2)
              [(exReport, false); (exNotes, true)]
              (fst (fst (uploadFiles exDb2 1 (Some 2)
                           [(exReport, false); (exNotes, true)])))
              (snd (fst (uploadFiles exDb2 1 (Some 2)
                           [(exReport, false); (exNotes, true)])))
              (snd (uploadFiles exDb2 1 (Some 2)
                      [(exReport, false); (exNotes, true)])))
    as [saved [H1 [H2 _]]].
  - now destruct (uploadFiles exDb2 1 (Some 2)
                    [(exReport, false); (exNotes, true)]) as [[r0 d0] x0].
  - exists saved. split; [exact H1 | exact H2].
Defined.

(* ================================================================== *)
(** * Issuing a link and using it *)
(* ================================================================== *)

(** X14.  A link that POST /api/folders/:id/share has just issued is the
    one its token resolves to: the owner of the folder is the requester,
    the expiry is the one computed from the duration, and until that
    instant GET /share/:token answers 200 with the folder the link was
    asked for. *)
Theorem X14_issued_link_resolves
    db u i duration zone now created token baseUrl res db' :
  reachable db ->
  postShare db u i duration zone now created token baseUrl = (res, db') ->
  status res = 201 ->
  exists link folder,
    Prisma.shareLink_findFirst (shareLinks db) token = None
    /\ Prisma.shareLink_findFirst (shareLinks db') token = Some link
    /\ ShareLink.folderId link = i
    /\ computeExpiry zone now (requested duration) = Some (ShareLink.expiresAt link)
    /\ Prisma.folder_findUnique (folders db') i = Some folder
    /\ Folder.ownerId folder = u
    /\ forall t, t <= ShareLink.expiresAt link ->
         exists fuel0, forall fuel, (fuel0 <= fuel)%nat ->
           exists contents,
             getShared fuel db' token t
             = Some (json 200 (BSharedFolder
                  "Shared folder accessed successfully"
                  (ShareLink.expiresAt link) (ShareLink.expiresAt link - t)
                  i (Folder.name folder) contents
                  (Z.of_nat (List.length (contents_files contents)))
                  (Z.of_nat (List.length (contents_subfolders contents)))
                  (sumSizes (contents_files contents)))).
Proof.
  intros Hr E Hs. destruct (reachable_inv db Hr) as [h I].
  unfold postShare in E. fold (requested duration) in E.
  destruct (Prisma.folder_findUnique (folders db) i) as [g|] eqn:Eg;
    [|injection E as <- _; discriminate].
  destruct (negb (Folder.ownerId g =? u)) eqn:Eo;
    [injection E as <- _; discriminate|].
  apply negb_false_iff in Eo. apply Z.eqb_eq in Eo.
  destruct (computeExpiry zone now (requested duration)) as [e|] eqn:Ee;
    [|injection E as <- _; discriminate].
  unfold Prisma.shareLink_create in E.
  destruct (Prisma.shareLink_findFirst (shareLinks db) token) eqn:Et;
    [injection E as <- _; discriminate|].
  injection E as _ <-.
  destruct (findUnique_Some _ _ _ Eg) as [Hg Eid].
  assert (Efound : Prisma.shareLink_findFirst
                     (shareLinks db
                      ++ [ShareLink.mk (shareSeq db + 1) token i e created])
                     token
                   = Some (ShareLink.mk (shareSeq db + 1) token i e created)).
  { unfold Prisma.shareLink_findFirst in *. rewrite (find_app_r _ _ _ _ Et).
    simpl. now rewrite String.eqb_refl. }
  exists (ShareLink.mk (shareSeq db + 1) token i e created), g. simpl.
  split; [reflexivity|]. split; [exact Efound|]. split; [reflexivity|].
  split; [reflexivity|]. split; [exact Eg|]. split; [exact Eo|].
  intros t Ht. exists (S (h i)). intros fuel Hfuel.
  set (db1 := mkDb (folders db) (files db)
                (shareLinks db
                 ++ [ShareLink.mk (shareSeq db + 1) token i e created])
                (folderSeq db) (fileSeq db) (shareSeq db + 1)).
  destruct (getFolderContents_total h db1 (inv_rank h db I) fuel i)
    as [c Hc]; [lia|].
  exists c. unfold getShared. unfold db1 at 1 2. simpl.
  rewrite Efound. simpl.
  destruct (Z.ltb_spec e t) as [Hlt|_]; [lia|].
  rewrite Eg, Eid, Hc. reflexivity.
Qed.

Lemma X14_witness :
  exists link folder,
    Prisma.shareLink_findFirst
      (shareLinks (snd (postShare exDb3 1 2 (Some "200d") eastern2025 exNow
                          exNow exToken "http://localhost:5000")))
      exToken = Some link
    /\ ShareLink.folderId link = 2
    /\ ShareLink.expiresAt link = 1767283600000
    /\ Prisma.folder_findUnique (folders exDb3) 2 = Some folder
    /\ forall t, t <= ShareLink.expiresAt link ->
         exists fuel0, forall fuel, (fuel0 <= fuel)%nat ->
           exists contents,
             getShared fuel
               (snd (postShare exDb3 1 2 (Some "200d") eastern2025 exNow
                       exNow exToken "http://localhost:5000"))
               exToken t
             = Some (json 200 (BSharedFolder
                  "Shared folder accessed successfully"
                  (ShareLink.expiresAt link) (ShareLink.expiresAt link - t)
                  2 (Folder.name folder) contents
                  (Z.of_nat (List.length (contents_files contents)))
                  (Z.of_nat (List.length (contents_subfolders contents)))
                  (sumSizes (contents_files contents)))).
Proof.
  destruct (X14_issued_link_resolves exDb3 1 2 (Some "200d") eastern2025
              exNow exNow exToken "http://localhost:5000"
              (fst (postShare exDb3 1 2 (Some "200d") eastern2025 exNow exNow
                      exToken "http://localhost:5000"))
              (snd (postShare exDb3 1 2 (Some "200d") eastern2025 exNow exNow
                      exToken "http://localhost:5000")))
    as [link [folder [_ [H2 [H3 [H4 [H5 [_ H7]]]]]]]].
  - reach_from exDb2 (UploadFiles 1 (Some 2) [(exReport, false)]).
    reach_exDb2.
  - reflexivity.
  - reflexivity.
  - exists link, folder. split; [exact H2|]. split; [exact H3|].
    split.
    + change (computeExpiry eastern2025 exNow (requested (Some "200d")))
        with (Some 1767283600000) in H4.
      now injection H4 as <-.
    + split; [exact H5 | exact H7].
Defined.

(* ================================================================== *)
(** * The recursion and the cascade of the store *)
(* ================================================================== *)

Lemma filter_length_le (A : Type) (p : A -> bool) (l : list A) :
  (List.length (filter p l) <= List.length l)%nat.
Proof.
  induction l as [|a l IH]; simpl; [lia|]. destruct (p a); simpl; lia.
Qed.

Lemma filter_length_eq (A : Type) (p : A -> bool) (l : list A) :
  List.length (filter p l) = List.length l -> filter p l = l.
Proof.
  induction l as [|a l IH]; simpl; [reflexivity|].
  destruct (p a); simpl; intro H.
  - f_equal. apply IH. lia.
  - pose proof (filter_length_le A p l). lia.
Qed.

Lemma cascade_fix n l :
  Prisma.cascade_step l = l -> Prisma.cascade n l = l.
Proof.
  intro H. induction n as [|n IH]; simpl; [reflexivity|]. now rewrite H.
Qed.

Lemma cascade_stable :
  forall n l, (List.length l <= n)%nat ->
    Prisma.cascade_step (Prisma.cascade n l) = Prisma.cascade n l.
Proof.
  induction n as [|n IH]; intros l Hl.
  - destruct l; [reflexivity | simpl in Hl; lia].
  - simpl.
    destruct (Nat.eq_dec (List.length (Prisma.cascade_step l)) (List.length l))
      as [E|E].
    + apply filter_length_eq in E. fold (Prisma.cascade_step l) in E.
      rewrite E, (cascade_fix n l E). exact E.
    + apply IH. pose proof (filter_length_le _
        (fun f => match Folder.parentId f with
                  | None => true
                  | Some p => Prisma.folder_present l p
                  end) l) as Hle.
      fold (Prisma.cascade_step l) in Hle. lia.
Qed.

Lemma cascade_is_filter :
  forall n l, exists q, Prisma.cascade n l = filter q l.
Proof.
  induction n as [|n IH]; intro l; simpl.
  - exists (fun _ => true). symmetry. now apply filter_all.
  - destruct (IH (Prisma.cascade_step l)) as [q Eq]. rewrite Eq.
    unfold Prisma.cascade_step. rewrite filter_filter_andb. eauto.
Qed.

(** Rows outside the subtree of [F] survive every round of the cascade. *)
Lemma cascade_keeps h db F :
  InvH h db ->
  forall n l,
    (forall f, In f (folders db) ->
               ~ chain (folders db) (Some (Folder.id f)) F -> In f l) ->
    forall f, In f (folders db) ->
              ~ chain (folders db) (Some (Folder.id f)) F ->
              In f (Prisma.cascade n l).
Proof.
  intro I. induction n as [|n IH]; intros l Hl; simpl; [exact Hl|].
  apply IH. intros f Hf Hn. unfold Prisma.cascade_step. apply filter_In.
  split; [now apply Hl|].
  destruct (Folder.parentId f) as [p|] eqn:Ep; [|reflexivity].
  apply present_iff.
  destruct (inv_parent h db I f p Hf Ep) as [g [Hg [Eg _]]].
  exists g. split; [|assumption]. apply Hl; [assumption|].
  intro Hc. apply Hn. apply (chain_up _ _ f F Hf eq_refl).
  now rewrite Ep, <- Eg.
Qed.

(** A list that the cascade leaves alone and that has no row for [F]
    has no row of the subtree of [F]. *)
Lemma cascade_drops fs F L :
  NoDup (map Folder.id fs) ->
  (forall f, In f L -> In f fs /\ Folder.id f <> F) ->
  Prisma.cascade_step L = L ->
  forall o, chain fs o F ->
    forall f, In f L -> o = Some (Folder.id f) -> False.
Proof.
  intros ND HL Hfix o Hc.
  induction Hc as [x | x g t Hg Eg Hc IH]; intros f Hf Eo.
  - injection Eo as ->. now apply (proj2 (HL f Hf)).
  - injection Eo as ->.
    assert (g = f) by (apply (nodup_same_id fs); auto; apply (HL f Hf)).
    subst g. destruct (chain_some _ _ _ Hc) as [p Ep].
    rewrite <- Hfix in Hf. unfold Prisma.cascade_step in Hf.
    apply filter_In in Hf. destruct Hf as [Hf Hp]. rewrite Ep in Hp.
    apply present_iff in Hp. destruct Hp as [g' [Hg' Eg']].
    apply (IH HL g' Hg'). now rewrite Ep, Eg'.
Qed.

(** X16.  The recursion of [deleteFolderRecursively] does by hand what
    the store does by itself: on a reachable database the database it
    leaves is exactly the one a single [prisma.folder.delete] of the
    folder leaves through ON DELETE CASCADE. *)
Theorem X16_recursion_equals_cascade db u F fi :
  reachable db ->
  verifyFolderOwnership db u F = inr fi ->
  exists fuel0, forall fuel, (fuel0 <= fuel)%nat ->
    exists r,
      deleteFolderRecursively fuel db F u = Some r
      /\ run_error r = None
      /\ Prisma.folder_delete db F = Ok (run_db r).
Proof.
  intros Hr Ev. destruct (reachable_inv db Hr) as [h I].
  destruct (verify_inr _ _ _ _ Ev) as [Efi [Hfi [Eid Eown]]].
  exists (S (h F)). intros fuel Hfuel.
  destruct (deleteFolderRecursively_ok h u fuel db F I) as [r [Er P]];
    [eauto | lia |].
  destruct P as [Err [I' [[keep [Ek Hk]] [Fl [Lk [S1 [S2 [S3 T]]]]]]]].
  exists r. split; [assumption|]. split; [assumption|].
  unfold Prisma.folder_delete. rewrite Efi.
  set (fs1 := filter (fun f => negb (Folder.id f =? F)) (folders db)).
  assert (Efs : Prisma.cascade (List.length fs1) fs1 = folders (run_db r)).
  { rewrite Ek.
    destruct (cascade_is_filter (List.length fs1) fs1) as [q Eq].
    assert (Hsub : forall f, In f (Prisma.cascade (List.length fs1) fs1) ->
                     In f (folders db) /\ Folder.id f <> F).
    { intros f Hf. rewrite Eq in Hf. apply filter_In in Hf.
      destruct Hf as [Hf _]. unfold fs1 in Hf. apply filter_In in Hf.
      destruct Hf as [Hf Hne]. split; [assumption|].
      apply negb_true_iff in Hne. now apply Z.eqb_neq. }
    assert (Hmem : forall f, In f (folders db) ->
              (In f (Prisma.cascade (List.length fs1) fs1) <->
               ~ chain (folders db) (Some (Folder.id f)) F)).
    { intros f Hf. split.
      - intros Hin Hc.
        apply (cascade_drops (folders db) F
                 (Prisma.cascade (List.length fs1) fs1)
                 (inv_nodup h db I) Hsub
                 (cascade_stable _ _ (le_n _)) _ Hc f Hin eq_refl).
      - intro Hn. apply (cascade_keeps h db F I); auto.
        intros g Hg Hgn. unfold fs1. apply filter_In. split; [assumption|].
        apply negb_true_iff. apply Z.eqb_neq. intro E. apply Hgn.
        rewrite E. apply chain_here. }
    rewrite Eq. unfold fs1. rewrite filter_filter_andb.
    apply filter_ext_in. intros f Hf.
    assert (Hq : In f (Prisma.cascade (List.length fs1) fs1) <->
                 negb (Folder.id f =? F) && q f = true).
    { rewrite Eq. unfold fs1. rewrite filter_filter_andb, filter_In. tauto. }
    specialize (Hmem f Hf). specialize (Hk f Hf).
    destruct (keep f) eqn:Kf;
      destruct (negb (Folder.id f =? F) && q f) eqn:Xf;
      try reflexivity; exfalso.
    - assert (Hin : In f (Prisma.cascade (List.length fs1) fs1)).
      { apply Hmem. intro Hc. apply Hk in Hc. discriminate. }
      apply Hq in Hin. discriminate.
    - apply (proj1 Hmem); [now apply Hq|]. now apply Hk. }
  rewrite Efs, <- Fl, <- Lk, <- S1, <- S2, <- S3.
  now destruct (run_db r).
Qed.

Lemma X16_witness :
  exists fuel0, forall fuel, (fuel0 <= fuel)%nat ->
    exists r,
      deleteFolderRecursively fuel exDb6 1 1 = Some r
      /\ Prisma.folder_delete exDb6 1 = Ok (run_db r).
Proof.
  destruct (X16_recursion_equals_cascade exDb6 1 1
              (Folder.mk 1 (Js.lit "Docs") 1 None)) as [fuel0 H].
  - reach_exDb6.
  - reflexivity.
  - exists fuel0. intros fuel Hfuel.
    destruct (H fuel Hfuel) as [r [H1 [_ H3]]].
    exists r. split; [exact H1 | exact H3].
Defined.

(* ================================================================== *)
(** * What a share shows *)
(* ================================================================== *)

Lemma allFolders_eq fl sub :
  allFolders (mkContents fl sub)
  = flat_map (fun p => fst p :: allFolders (snd p)) sub.
Proof.
  simpl. induction sub as [|[f c] sub IH]; simpl; [reflexivity|].
  now rewrite IH.
Qed.

(** The subfolders [getFolderContents] lists under [x] are the folders
    properly below [x]. *)
Lemma getFolderContents_folders db :
  forall fuel x c,
    getFolderContents fuel db x = Some c ->
    forall f,
      In f (allFolders c) <->
      In f (folders db) /\ chain (folders db) (Folder.parentId f) x.
Proof.
  induction fuel as [|k IH]; intros x c E f; [discriminate|].
  simpl in E.
  match type of E with
  | context [traverse ?g ?l] =>
      destruct (traverse g l) as [sub|] eqn:Et; [|discriminate];
      pose proof (traverse_Some _ _ g l sub Et) as F2
  end.
  inversion E; subst c. clear E Et. rewrite allFolders_eq, in_flat_map.
  split.
  - intros [[s cs] [Hin Hf]].
    destruct (Forall2_In_r _ _ _ _ _ F2 _ Hin) as [a [Ha Ea]].
    apply orderBy_In_iff in Ha. unfold Prisma.folder_findMany in Ha.
    apply filter_In in Ha. destruct Ha as [Ha Pa]. apply optZ_eqb_eq in Pa.
    destruct (getFolderContents k db (Folder.id a)) as [c0|] eqn:Ec;
      [|discriminate].
    inversion Ea; subst s cs. simpl in Hf. destruct Hf as [<-|Hf].
    + split; [assumption|]. rewrite Pa. apply chain_here.
    + apply (IH _ _ Ec) in Hf. destruct Hf as [H1 H2].
      split; [assumption|].
      apply (chain_trans _ _ _ _ H2). now apply chain_child.
  - intros [Hf Hc]. destruct (chain_some _ _ _ Hc) as [d Ed].
    assert (Hsub : forall s,
              In s (folders db) -> Folder.parentId s = Some x ->
              exists c0, getFolderContents k db (Folder.id s) = Some c0
                         /\ In (s, c0) sub).
    { intros s Hs Ps.
      assert (Hin : In s (orderBy Folder.name
                (Prisma.folder_findMany (folders db)
                   (fun f => optZ_eqb (Folder.parentId f) (Some x))))).
      { apply orderBy_In_iff. unfold Prisma.folder_findMany. apply filter_In.
        split; [assumption | now apply optZ_eqb_eq]. }
      destruct (Forall2_In_l _ _ _ _ _ F2 _ Hin) as [[s' cs] [Hb Eb]].
      destruct (getFolderContents k db (Folder.id s)) as [c0|] eqn:Ec;
        [|discriminate].
      inversion Eb; subst s' cs. exists c0. auto. }
    destruct (Z.eq_dec d x) as [->|Nd].
    + destruct (Hsub f Hf Ed) as [c0 [_ Hin]].
      exists (f, c0). split; [assumption|]. now left.
    + rewrite Ed in Hc.
      destruct (chain_last _ _ _ Hc d eq_refl Nd) as [s [Hs [Ps Cs]]].
      destruct (Hsub s Hs Ps) as [c0 [Ec Hin]].
      exists (s, c0). split; [assumption|]. right.
      apply (IH _ _ Ec). split; [assumption|]. now rewrite Ed.
Qed.

(** X17.  GET /share/:token selects the rows of the listing by folder
    only, without looking at their owner, and yet on a reachable
    database every file and every subfolder in a listing belongs to the
    owner of the shared folder, and every listed subfolder lies below
    the shared folder. *)
Theorem X17_share_lists_only_rows_of_the_owner
    fuel db token now m e r i nm contents n1 n2 n3 :
  reachable db ->
  getShared fuel db token now
  = Some (json 200 (BSharedFolder m e r i nm contents n1 n2 n3)) ->
  exists g,
    Prisma.folder_findUnique (folders db) i = Some g
    /\ nm = Folder.name g
    /\ (forall file, In file (allFiles contents) ->
          In file (files db) /\ File.ownerId file = Folder.ownerId g)
    /\ (forall f, In f (allFolders contents) ->
          In f (folders db) /\ Folder.ownerId f = Folder.ownerId g
          /\ descendant (folders db) (Folder.id f) i).
Proof.
  intros Hr E. destruct (reachable_inv db Hr) as [h I].
  unfold getShared in E.
  destruct (Prisma.shareLink_findFirst (shareLinks db) token) as [link|];
    [|discriminate].
  destruct (ShareLink.expiresAt link <? now); [discriminate|].
  destruct (Prisma.folder_findUnique (folders db) (ShareLink.folderId link))
    as [g|] eqn:Eg; [|discriminate].
  destruct (getFolderContents fuel db (Folder.id g)) as [c|] eqn:Ec;
    [|discriminate].
  injection E as _ _ _ Ei En Ecs _ _ _. subst i nm contents.
  destruct (findUnique_Some _ _ _ Eg) as [Hg Eid].
  exists g. split; [now rewrite (findUnique_In _ g (inv_nodup h db I) Hg)|].
  split; [reflexivity|]. split.
  - intros file Hfile.
    apply (getFolderContents_files db _ _ _ Ec) in Hfile.
    destruct Hfile as [Hin Hc]. split; [assumption|].
    destruct (chain_some _ _ _ Hc) as [d Ed].
    destruct (inv_files h db I file d Hin Ed) as [g' [Hg' [Eg' Og']]].
    rewrite <- Og'. rewrite Ed in Hc.
    apply (chain_owner h db (Some d) (Folder.id g) I Hc g' g); auto.
    now rewrite Eg'.
  - intros f Hf.
    apply (getFolderContents_folders db _ _ _ Ec) in Hf.
    destruct Hf as [Hin Hc]. split; [assumption|]. split.
    + apply (chain_owner h db (Some (Folder.id f)) (Folder.id g) I); auto.
      now apply (chain_up _ _ f).
    + exists f. auto.
Qed.

Lemma X17_witness :
  exists fuel contents g,
    getShared fuel exDb6 exToken exNow
    = Some (json 200 (BSharedFolder
         "Shared folder accessed successfully"
         (exNow + msPerDay) msPerDay 2 (Js.lit "2024") contents 1 0 10485760))
    /\ Prisma.folder_findUnique (folders exDb6) 2 = Some g
    /\ (forall file, In file (allFiles contents) ->
          In file (files exDb6) /\ File.ownerId file = Folder.ownerId g).
Proof.
  exists 3%nat.
  destruct (getShared 3 exDb6 exToken exNow) as [[st b]|] eqn:E;
    [|vm_compute in E; discriminate].
  vm_compute in E. injection E as <- <-.
  eexists.
  destruct (X17_share_lists_only_rows_of_the_owner 3 exDb6 exToken exNow
              _ _ _ _ _ _ _ _ _ ltac:(reach_exDb6) eq_refl)
    as [g [H1 [_ [H3 _]]]].
  exists g. split; [reflexivity|]. split; [exact H1 | exact H3].
Defined.

(* ================================================================== *)
(** * Deleting a file *)
(* ================================================================== *)

(** X18.  DELETE /api/files/:id hands a blob to
    [cloudinary.uploader.destroy] only after it has removed the row of
    the file: a refused request destroys nothing and changes nothing; a
    request answered 200 removes the row of that file and no other,
    destroys the blob of that row, and from then on the id is unknown to
    the owner's routes and to the public gateway. *)
Theorem X18_delete_file_row_then_blob db u i res db' destroyed :
  reachable db ->
  deleteFile db u i = (res, db', destroyed) ->
  (status res <> 200 -> db' = db /\ destroyed = [])
  /\ (status res = 200 ->
      exists file,
        Prisma.file_findUnique (files db) i = Some file
        /\ File.ownerId file = u
        /\ destroyed = [File.publicId file]
        /\ (forall x, In x (files db') <-> In x (files db) /\ x <> file)
        /\ folders db' = folders db
        /\ shareLinks db' = shareLinks db
        /\ (forall v, verifyFileOwnership db' v i
                      = inl (json 404 (BMessage "File not found")))
        /\ (forall fuel token now,
              exists r, getSharedFile fuel db' token i now = Some r
                        /\ status r <> 200)).
Proof.
  intros Hr E. destruct (reachable_inv db Hr) as [h I].
  unfold deleteFile, Prisma.file_delete in E.
  destruct (verifyFileOwnership db u i) as [r|file] eqn:Ev.
  { injection E as <- <- <-. split; [auto|]. intro Hs. exfalso.
    unfold verifyFileOwnership in Ev.
    destruct (Prisma.file_findUnique (files db) i) as [x|];
      [destruct (negb (File.ownerId x =? u)); [|discriminate]|];
      injection Ev as <-; discriminate. }
  destruct (verifyFile_inr _ _ _ _ Ev) as [Ef [Hin [Eid Eo]]].
  rewrite Ef in E. injection E as <- <- <-.
  split; [intro Hs; now elim Hs|]. intros _.
  exists file. simpl.
  assert (Gone : Prisma.file_findUnique
                   (filter (fun x => negb (File.id x =? i)) (files db)) i
                 = None).
  { apply file_findUnique_absent. intros x Hx. apply filter_In in Hx.
    destruct Hx as [_ Hx]. apply negb_true_iff in Hx. now apply Z.eqb_neq. }
  split; [exact Ef|]. split; [exact Eo|]. split; [reflexivity|].
  split; [|split; [reflexivity|split; [reflexivity|split]]].
  - intro x. rewrite filter_In, negb_true_iff, Z.eqb_neq. split.
    + intros [Hx Nx]. split; [assumption|]. intros ->. now apply Nx.
    + intros [Hx Nx]. split; [assumption|]. intro Ex. apply Nx.
      apply (nodup_same_file_id (files db)); auto;
        [exact (inv_file_nodup h db I) | congruence].
  - intro v. unfold verifyFileOwnership. simpl. now rewrite Gone.
  - intros fuel token now. unfold getSharedFile. simpl.
    destruct (Prisma.shareLink_findFirst (shareLinks db) token) as [l|].
    + destruct (ShareLink.expiresAt l <? now).
      * eexists. split; [reflexivity | discriminate].
      * rewrite Gone. eexists. split; [reflexivity | discriminate].
    + eexists. split; [reflexivity | discriminate].
Qed.

Lemma X18_witness :
  exists file,
    Prisma.file_findUnique (files exDb4) 1 = Some file
    /\ snd (deleteFile exDb4 1 1) = [File.publicId file]
    /\ forall fuel token now,
         exists r, getSharedFile fuel (snd (fst (deleteFile exDb4 1 1)))
                     token 1 now = Some r
                   /\ status r <> 200.
Proof.
  destruct (X18_delete_file_row_then_blob exDb4 1 1
              (fst (fst (deleteFile exDb4 1 1)))
              (snd (fst (deleteFile exDb4 1 1)))
              (snd (deleteFile exDb4 1 1))) as [_ H].
  - reach_exDb4.
  - now destruct (deleteFile exDb4 1 1) as [[r0 d0] x0].
  - destruct (H eq_refl) as [file [H1 [_ [H3 [_ [_ [_ [_ H8]]]]]]]].
    exists file. split; [exact H1|]. split; [exact H3 | exact H8].
Defined.

(* ================================================================== *)
(** * The list of share links *)
(* ================================================================== *)

Lemma insertDesc_Permutation (A : Type) (key : A -> Z) (x : A) (l : list A) :
  Permutation (insertDesc A key x l) (x :: l).
Proof.
  induction l as [|a l IH]; simpl; [reflexivity|].
  destruct (key a <=? key x); [reflexivity|].
  rewrite IH. apply perm_swap.
Qed.

Lemma orderByDesc_Permutation (A : Type) (key : A -> Z) (l : list A) :
  Permutation (orderByDesc A key l) l.
Proof.
  induction l as [|a l IH]; simpl; [reflexivity|].
  rewrite insertDesc_Permutation. now constructor.
Qed.

Lemma insertDesc_Sorted (A : Type) (key : A -> Z) (x : A) (l : list A) :
  Sorted (fun a b => key b <= key a) l ->
  Sorted (fun a b => key b <= key a) (insertDesc A key x l).
Proof.
  induction l as [|a l IH]; simpl; intro S0.
  - repeat constructor.
  - destruct (Z.leb_spec (key a) (key x)) as [Hle|Hgt].
    + constructor; [assumption|]. now constructor.
    + inversion S0 as [|? ? S1 H1]; subst.
      constructor; [now apply IH|].
      destruct l as [|b l]; simpl.
      * constructor. lia.
      * destruct (key b <=? key x); constructor; [lia|].
        now inversion H1.
Qed.

Lemma orderByDesc_Sorted (A : Type) (key : A -> Z) (l : list A) :
  Sorted (fun a b => key b <= key a) (orderByDesc A key l).
Proof.
  induction l as [|a l IH]; simpl; [constructor|].
  now apply insertDesc_Sorted.
Qed.

Lemma link_findUnique_In l x :
  NoDup (map ShareLink.id l) -> In x l ->
  Prisma.shareLink_findUnique l (ShareLink.id x) = Some x.
Proof.
  intros ND Hx. unfold Prisma.shareLink_findUnique.
  destruct (find (fun y => ShareLink.id y =? ShareLink.id x) l) as [y|] eqn:E.
  - apply find_some in E. destruct E as [Hy Ey]. apply Z.eqb_eq in Ey.
    f_equal. now apply (nodup_same_link_id l).
  - apply (find_none _ _ E) in Hx. simpl in Hx.
    rewrite Z.eqb_refl in Hx. discriminate.
Qed.

(** X19.  On a reachable database GET /api/sharelinks lists, newest
    first, exactly the links the requester may revoke: a link is in the
    list if and only if DELETE /api/sharelinks/:id by the same user
    answers 200 for it.  Every entry carries its folder, which belongs
    to the requester, and [count] is the length of the list. *)
Theorem X19_listed_links_are_the_revocable_ones db u now baseUrl :
  reachable db ->
  let rows := fst (getShareLinks db u now baseUrl) in
  snd (getShareLinks db u now baseUrl) = Z.of_nat (List.length rows)
  /\ Sorted (fun a b => ShareLink.createdAt b <= ShareLink.createdAt a)
            (map row_link rows)
  /\ (forall link,
        In link (map row_link rows) <->
        In link (shareLinks db)
        /\ status (fst (deleteShare db u (ShareLink.id link))) = 200)
  /\ (forall row, In row rows ->
        exists g, row_folder row = Some g
                  /\ Folder.id g = ShareLink.folderId (row_link row)
                  /\ Folder.ownerId g = u
                  /\ row_expiresIn row
                     = ShareLink.expiresAt (row_link row) - now).
Proof.
  intros Hr rows. destruct (reachable_inv db Hr) as [h I].
  destruct (reachable_links db Hr) as [_ [N _]].
  unfold rows, getShareLinks. cbv zeta. cbn [fst snd].
  set (sel := fun l : ShareLink.t =>
         existsb (Z.eqb (ShareLink.folderId l))
           (map Folder.id
              (Prisma.folder_findMany (folders db)
                 (fun f => Folder.ownerId f =? u)))).
  set (links := orderByDesc ShareLink.t ShareLink.createdAt
                  (filter sel (shareLinks db))).
  assert (Hsel : forall l, In l (shareLinks db) ->
            exists g, Prisma.folder_findUnique (folders db) (ShareLink.folderId l)
                      = Some g
                      /\ Folder.id g = ShareLink.folderId l
                      /\ (sel l = true <-> Folder.ownerId g = u)).
  { intros l Hl. destruct (inv_links h db I l Hl) as [g [Hg Eg]].
    exists g. rewrite <- Eg.
    split; [now apply findUnique_In; [exact (inv_nodup h db I)|]|].
    split; [reflexivity|].
    unfold sel. rewrite existsb_exists. split.
    - intros [y [Hy Ey]]. apply Z.eqb_eq in Ey.
      apply in_map_iff in Hy. destruct Hy as [f [Ef Hf]].
      unfold Prisma.folder_findMany in Hf. apply filter_In in Hf.
      destruct Hf as [Hf Of]. apply Z.eqb_eq in Of.
      assert (f = g) by (apply (nodup_same_id (folders db)); auto;
                         [exact (inv_nodup h db I) | congruence]).
      now subst f.
    - intro Og. exists (Folder.id g). split; [|now apply Z.eqb_eq].
      apply in_map. unfold Prisma.folder_findMany. apply filter_In.
      split; [assumption | now apply Z.eqb_eq]. }
  assert (Hin : forall l, In l links <-> In l (shareLinks db) /\ sel l = true).
  { intro l. unfold links. rewrite <- filter_In. split; intro H.
    - apply (Permutation_in _ (orderByDesc_Permutation _ _ _) H).
    - apply (Permutation_in _
               (Permutation_sym (orderByDesc_Permutation _ _ _)) H). }
  assert (Emap : map row_link
            (map (fun link =>
                    mkShareRow link
                      (Prisma.folder_findUnique (folders db)
                         (ShareLink.folderId link))
                      (baseUrl ++ "/share/" ++ ShareLink.token link)%string
                      (ShareLink.expiresAt link - now)) links) = links).
  { rewrite map_map. simpl. apply map_id. }
  rewrite Emap. split; [now rewrite length_map|].
  split; [apply orderByDesc_Sorted|]. split.
  - intro link. rewrite Hin. split.
    + intros [Hl Hs]. split; [assumption|].
      destruct (Hsel link Hl) as [g [Eg [_ Hg]]].
      unfold deleteShare, Prisma.shareLink_delete.
      rewrite (link_findUnique_In _ _ N Hl), Eg.
      apply Hg in Hs. rewrite Hs, Z.eqb_refl. reflexivity.
    + intros [Hl Hs]. split; [assumption|].
      destruct (Hsel link Hl) as [g [Eg [_ Hg]]]. apply Hg.
      unfold deleteShare, Prisma.shareLink_delete in Hs.
      rewrite (link_findUnique_In _ _ N Hl), Eg in Hs.
      destruct (Z.eqb_spec (Folder.ownerId g) u) as [|Ne]; [assumption|].
      simpl in Hs. discriminate.
  - intros row Hrow. apply in_map_iff in Hrow.
    destruct Hrow as [l [<- Hl]]. simpl. apply Hin in Hl.
    destruct Hl as [Hl Hs]. destruct (Hsel l Hl) as [g [Eg [Ei Hg]]].
    exists g. split; [assumption|]. split; [assumption|].
    split; [now apply Hg | reflexivity].
Qed.

Lemma X19_witness :
  (forall link,
     In link (map row_link (fst (getShareLinks exDb6 1 exNow "http://localhost:5000")))
     <-> In link (shareLinks exDb6)
         /\ status (fst (deleteShare exDb6 1 (ShareLink.id link))) = 200)
  /\ fst (getShareLinks exDb6 2 exNow "http://localhost:5000") = [].
Proof.
  split.
  - apply (X19_listed_links_are_the_revocable_ones exDb6 1 exNow
             "http://localhost:5000"). reach_exDb6.
  - reflexivity.
Defined.
